(** * Json_python: the dynamic JSON form generator (app.py)

    A shallow embedding of [JSONFormGenerator] and of the parts of Python's
    standard library it relies on ([str.split], [str.strip], [json.load],
    [json.dump]), with the properties of the form engine, of the history
    store and of the remote submission.

    Conventions of the embedding:
    - a Python [str] is a list of Unicode code points ([N]); a file is the
      text that [read] returns when it is opened with [encoding="utf-8"] (the
      files hold valid UTF-8), and a text with a surrogate cannot be written;
    - a Python [int] is a [Z]; a [float] is kept as the text of its literal,
      from which its truth value is decided;
    - a Python exception is a value of [exn]; a call that can raise returns a
      [result];
    - the mutable objects ([self.data], [self.errores], the file system, the
      page, the network) are threaded explicitly in one state;
    - the library functions that the program only calls ([str.capitalize],
      [re.fullmatch], the widgets of Streamlit, [requests.post]) are
      parameters, gathered in [Entorno]. *)

From Stdlib Require Import Decimal DecimalFacts DecimalPos DecimalN DecimalZ.
From Stdlib Require Import NArith ZArith Bool Lia FunInd String Ascii Strings.Byte List.
Import ListNotations.

Local Open Scope N_scope.

(** ** Text *)

(** A code point, and a Python [str]. *)
Definition char := N.
Definition str := list char.

(** Reading of the UTF-8 bytes of a literal of this file as a [str]. *)
Fixpoint utf8_decode (bs : list N) : str :=
  match bs with
  | [] => []
  | b0 :: r0 =>
    if b0 <? 128 then b0 :: utf8_decode r0
    else if b0 <? 224 then
      match r0 with
      | b1 :: r1 => ((b0 - 192) * 64 + (b1 - 128)) :: utf8_decode r1
      | [] => []
      end
    else if b0 <? 240 then
      match r0 with
      | b1 :: b2 :: r2 =>
        ((b0 - 224) * 4096 + (b1 - 128) * 64 + (b2 - 128)) :: utf8_decode r2
      | _ => []
      end
    else
      match r0 with
      | b1 :: b2 :: b3 :: r3 =>
        ((b0 - 240) * 262144 + (b1 - 128) * 4096 + (b2 - 128) * 64 + (b3 - 128))
          :: utf8_decode r3
      | _ => []
      end
  end.

Definition lit (s : string) : str :=
  utf8_decode (map Byte.to_N (list_byte_of_string s)).

Fixpoint str_eqb (a b : str) : bool :=
  match a, b with
  | [], [] => true
  | x :: a', y :: b' => (x =? y) && str_eqb a' b'
  | _, _ => false
  end.

(** A text can be written to a file opened with [encoding="utf-8"] when it
    holds no surrogate code point. *)
Definition is_surrogate (c : char) : bool := (55296 <=? c) && (c <=? 57343).

Definition encodable (s : str) : bool :=
  forallb (fun c => negb (is_surrogate c)) s.

(** Code points the source and the JSON grammar name. *)
Definition c_tab : char := 9.
Definition c_lf : char := 10.
Definition c_cr : char := 13.
Definition c_space : char := 32.
Definition c_quote : char := 34.
Definition c_comma : char := 44.
Definition c_minus : char := 45.
Definition c_colon : char := 58.
Definition c_lbracket : char := 91.
Definition c_backslash : char := 92.
Definition c_rbracket : char := 93.
Definition c_lbrace : char := 123.
Definition c_rbrace : char := 125.

(** ** Exceptions and results *)

Inductive exn : Type :=
| JSONDecodeError
| FileNotFoundError
| AttributeError
| TypeError
| KeyError
| RecursionError
| UnicodeEncodeError
| ReError
| RerunException
| Exception (mensaje : str).

Inductive result (A : Type) : Type :=
| Ok (a : A)
| Raise (e : exn).
Arguments Ok {A} a.
Arguments Raise {A} e.

Definition bind {A B} (r : result A) (k : A -> result B) : result B :=
  match r with
  | Ok a => k a
  | Raise e => Raise e
  end.

Notation "x <- r ;; k" := (bind r (fun x => k))
  (at level 61, r at next level, right associativity).
Notation "' p <- r ;; k" := (bind r (fun p => k))
  (at level 61, p pattern, r at next level, right associativity).

(** ** JSON values

    What [json.load] builds and [json.dump] accepts: [None], [bool], [int],
    [float], [str], [list] and [dict] (insertion ordered, keys unique).  A
    [float] is kept as the text of its literal: of binary64 arithmetic only
    the test for zero is part of this embedding ([float_nonzero]), and no
    value that the form collects is a float. *)
Unset Elimination Schemes.
Inductive json : Type :=
| JNull
| JBool (b : bool)
| JInt (z : Z)
| JFloat (literal : str)
| JStr (s : str)
| JArr (items : list json)
| JObj (pairs : list (str * json)).
Set Elimination Schemes.

(** Induction over values, with the hypotheses for the nested lists. *)
Section JsonInd.
Variable P : json -> Prop.
Hypothesis Hnull : P JNull.
Hypothesis Hbool : forall b, P (JBool b).
Hypothesis Hint : forall z, P (JInt z).
Hypothesis Hfloat : forall l, P (JFloat l).
Hypothesis Hstr : forall s, P (JStr s).
Hypothesis Harr : forall l, Forall P l -> P (JArr l).
Hypothesis Hobj : forall kvs, Forall (fun kv => P (snd kv)) kvs -> P (JObj kvs).

Fixpoint json_nested_ind (v : json) : P v :=
  match v with
  | JNull => Hnull
  | JBool b => Hbool b
  | JInt z => Hint z
  | JFloat l => Hfloat l
  | JStr s => Hstr s
  | JArr l =>
    Harr l ((fix go (l : list json) : Forall P l :=
             match l with
             | [] => Forall_nil _
             | x :: l' => Forall_cons x (json_nested_ind x) (go l')
             end) l)
  | JObj kvs =>
    Hobj kvs ((fix go (l : list (str * json)) : Forall (fun kv => P (snd kv)) l :=
             match l with
             | [] => Forall_nil _
             | x :: l' => Forall_cons x (json_nested_ind (snd x)) (go l')
             end) kvs)
  end.
End JsonInd.

(** ** Dictionaries

    A [dict] keeps its keys in insertion order; [d[k] = v] replaces the value
    of an existing key in place and appends a new key at the end. *)
Section Dict.
Variable V : Type.

Fixpoint dict_get (d : list (str * V)) (k : str) : option V :=
  match d with
  | [] => None
  | (k', v) :: d' => if str_eqb k' k then Some v else dict_get d' k
  end.

Fixpoint dict_set (d : list (str * V)) (k : str) (v : V) : list (str * V) :=
  match d with
  | [] => [(k, v)]
  | (k', v') :: d' =>
    if str_eqb k' k then (k', v) :: d' else (k', v') :: dict_set d' k v
  end.

Definition dict_keys (d : list (str * V)) : list str := map fst d.
End Dict.
Arguments dict_get {V} d k.
Arguments dict_set {V} d k v.
Arguments dict_keys {V} d.

(** ** [json.dump(obj, f, indent=2, ensure_ascii=False)]

    The text written is the concatenation of the chunks of
    [json.encoder._make_iterencode] with [indent=2], hence with the separators
    [","] and [": "]. *)

Fixpoint uint_str (d : uint) : str :=
  match d with
  | Nil => []
  | D0 d => 48 :: uint_str d
  | D1 d => 49 :: uint_str d
  | D2 d => 50 :: uint_str d
  | D3 d => 51 :: uint_str d
  | D4 d => 52 :: uint_str d
  | D5 d => 53 :: uint_str d
  | D6 d => 54 :: uint_str d
  | D7 d => 55 :: uint_str d
  | D8 d => 56 :: uint_str d
  | D9 d => 57 :: uint_str d
  end.

(** [int.__repr__]: the decimal digits, with a minus sign below zero. *)
Definition repr_int (z : Z) : str :=
  match Z.to_int z with
  | Pos d => uint_str d
  | Neg d => c_minus :: uint_str d
  end.

Definition hex_char (n : N) : char := if n <? 10 then 48 + n else 87 + n.

(** [ESCAPE_DCT] of [json.encoder]: the quote, the backslash and the control
    characters are escaped, everything else is written as it is. *)
Definition escape_char (c : char) : str :=
  if c =? c_quote then [c_backslash; c_quote]
  else if c =? c_backslash then [c_backslash; c_backslash]
  else if c =? c_lf then [c_backslash; 110]
  else if c =? c_cr then [c_backslash; 114]
  else if c =? c_tab then [c_backslash; 116]
  else if c =? 8 then [c_backslash; 98]
  else if c =? 12 then [c_backslash; 102]
  else if c <? 32 then [c_backslash; 117; 48; 48; hex_char (c / 16); hex_char (c mod 16)]
  else [c].

Definition hex4_str (n : N) : str :=
  [c_backslash; 117; hex_char (n / 4096); hex_char ((n / 256) mod 16);
   hex_char ((n / 16) mod 16); hex_char (n mod 16)].

(** [ESCAPE_ASCII], the default ([ensure_ascii=True]): only the characters
    from the space to the tilde are written as they are; above the basic plane
    a character becomes a surrogate pair. *)
Definition escape_char_ascii (c : char) : str :=
  if (32 <=? c) && (c <=? 126) && negb (c =? c_quote) && negb (c =? c_backslash)
  then [c]
  else if c <? 32 then escape_char c
  else if (c =? c_quote) || (c =? c_backslash) then escape_char c
  else if c <? 65536 then hex4_str c
  else hex4_str (55296 + ((c - 65536) / 1024) mod 1024)
         ++ hex4_str (56320 + (c - 65536) mod 1024).

Definition newline_indent (level : nat) : str :=
  c_lf :: repeat c_space (2 * level).

Section Iterencode.
(** The escaping of one character: [escape_char] or [escape_char_ascii]. *)
Variable esc : char -> str.

Definition encode_basestring (s : str) : str :=
  c_quote :: flat_map esc s ++ [c_quote].

Section Items.
Variable enc : json -> str.
Variable indent : str.

(** The chunks of the items of a list: the first item follows the indent,
    every other one the separator and the indent. *)
Fixpoint iterencode_list (first : bool) (l : list json) : str :=
  match l with
  | [] => []
  | x :: l' =>
    (if first then [] else [c_comma]) ++ indent ++ enc x
      ++ iterencode_list false l'
  end.

Fixpoint iterencode_dict (first : bool) (kvs : list (str * json)) : str :=
  match kvs with
  | [] => []
  | (k, v) :: kvs' =>
    (if first then [] else [c_comma]) ++ indent ++ encode_basestring k
      ++ [c_colon; c_space] ++ enc v ++ iterencode_dict false kvs'
  end.
End Items.

Fixpoint iterencode (level : nat) (v : json) : str :=
  match v with
  | JNull => lit "null"
  | JBool true => lit "true"
  | JBool false => lit "false"
  | JInt z => repr_int z
  | JFloat l => l
  | JStr s => encode_basestring s
  | JArr [] => lit "[]"
  | JArr l =>
    [c_lbracket]
      ++ iterencode_list (iterencode (S level)) (newline_indent (S level)) true l
      ++ newline_indent level ++ [c_rbracket]
  | JObj [] => lit "{}"
  | JObj kvs =>
    [c_lbrace]
      ++ iterencode_dict (iterencode (S level)) (newline_indent (S level)) true kvs
      ++ newline_indent level ++ [c_rbrace]
  end.
End Iterencode.

(** [json.dump(v, f, indent=2, ensure_ascii=False)] writes [json_dumps v];
    [json.dumps(v, indent=2)] is [json_dumps_ascii v]. *)
Definition json_dumps (v : json) : str := iterencode escape_char 0 v.
Definition json_dumps_ascii (v : json) : str := iterencode escape_char_ascii 0 v.

(** ** [json.load(f)]

    [json.loads] of the text of the file, as [json.decoder] and [json.scanner]
    do it: [scanstring] in strict mode, [NUMBER_RE], [JSONObject], [JSONArray]
    and [scan_once].  Every failure of the decoder is a [JSONDecodeError].
    The bounds of the interpreter (the depth of recursion, the number of
    digits of an [int] literal) are not part of the embedding. *)

Definition is_ws (c : char) : bool :=
  (c =? c_space) || (c =? c_tab) || (c =? c_lf) || (c =? c_cr).

Fixpoint skip_ws (s : str) : str :=
  match s with
  | c :: s' => if is_ws c then skip_ws s' else s
  | [] => []
  end.

Definition digit_of_char (c : char) : option (uint -> uint) :=
  if c =? 48 then Some D0 else if c =? 49 then Some D1
  else if c =? 50 then Some D2 else if c =? 51 then Some D3
  else if c =? 52 then Some D4 else if c =? 53 then Some D5
  else if c =? 54 then Some D6 else if c =? 55 then Some D7
  else if c =? 56 then Some D8 else if c =? 57 then Some D9
  else None.

(** The longest run of decimal digits at the head of [s]. *)
Fixpoint scan_digits (s : str) : uint * str :=
  match s with
  | c :: s' =>
    match digit_of_char c with
    | Some D => let (d, r) := scan_digits s' in (D d, r)
    | None => (Nil, s)
    end
  | [] => (Nil, [])
  end.

Definition is_nil (d : uint) : bool :=
  match d with Nil => true | _ => false end.

(** [NUMBER_RE.match]: an optional minus sign and either a single zero or a
    digit from 1 to 9 with all the digits that follow it; then, when present,
    a dot with one digit or more, and an [e] or [E] with an optional sign and
    one digit or more.  With a fraction or an exponent the literal is a float,
    else an [int]. *)
(** The groups of [NUMBER_RE]: each gives what it matched and what follows. *)
Definition scan_integer (s : str) : option (bool * uint * str) :=
  let (neg, s1) :=
    match s with
    | c :: t => if c =? c_minus then (true, t) else (false, s)
    | [] => (false, s)
    end in
  match s1 with
  | c :: t =>
    if c =? 48 then Some (neg, D0 Nil, t)
    else match digit_of_char c with
         | Some _ => let (d, r) := scan_digits s1 in Some (neg, d, r)
         | None => None
         end
  | [] => None
  end.

Definition scan_fraction (r : str) : bool * str :=
  match r with
  | c :: t =>
    if c =? 46 then
      let (fd, r') := scan_digits t in
      if is_nil fd then (false, r) else (true, r')
    else (false, r)
  | [] => (false, r)
  end.

Definition scan_exponent (r : str) : bool * str :=
  match r with
  | c :: t =>
    if (c =? 101) || (c =? 69) then
      let t' :=
        match t with
        | c2 :: t2 => if (c2 =? 43) || (c2 =? c_minus) then t2 else t
        | [] => t
        end in
      let (ed, r') := scan_digits t' in
      if is_nil ed then (false, r) else (true, r')
    else (false, r)
  | [] => (false, r)
  end.

Definition match_number (s : str) : option (json * str) :=
  match scan_integer s with
  | None => None
  | Some (neg, d, r) =>
    let (frac, r1) := scan_fraction r in
    let (exp, r2) := scan_exponent r1 in
    if frac || exp
    then Some (JFloat (firstn (length s - length r2) s), r2)
    else Some (JInt (Z.of_int (if neg then Neg d else Pos d)), r2)
  end.

Fixpoint strip_prefix (p s : str) : option str :=
  match p, s with
  | [], _ => Some s
  | a :: p', b :: s' => if a =? b then strip_prefix p' s' else None
  | _ :: _, [] => None
  end.

Definition hex_val (c : char) : option N :=
  if (48 <=? c) && (c <=? 57) then Some (c - 48)
  else if (97 <=? c) && (c <=? 102) then Some (c - 87)
  else if (65 <=? c) && (c <=? 70) then Some (c - 55)
  else None.

Definition hex4 (a b c d : char) : option N :=
  match hex_val a, hex_val b, hex_val c, hex_val d with
  | Some x, Some y, Some z, Some w => Some (((x * 16 + y) * 16 + z) * 16 + w)
  | _, _, _, _ => None
  end.

Definition is_high_surrogate (c : N) : bool := (55296 <=? c) && (c <=? 56319).
Definition is_low_surrogate (c : N) : bool := (56320 <=? c) && (c <=? 57343).
Definition join_surrogates (hi lo : N) : N :=
  65536 + ((hi - 55296) * 1024 + (lo - 56320)).

(** [BACKSLASH] of [json.decoder]. *)
Definition unescape (e : char) : option char :=
  if e =? c_quote then Some c_quote
  else if e =? c_backslash then Some c_backslash
  else if e =? 47 then Some 47
  else if e =? 98 then Some 8
  else if e =? 102 then Some 12
  else if e =? 110 then Some c_lf
  else if e =? 114 then Some c_cr
  else if e =? 116 then Some c_tab
  else None.

Definition prepend (c : char) (r : result (str * str)) : result (str * str) :=
  '(x, rest) <- r ;; Ok (c :: x, rest).

(** [scanstring(s, end, strict=True)], from the character after the opening
    quote: the decoded string and what follows the closing quote. *)
Fixpoint scanstring (s : str) : result (str * str) :=
  match s with
  | [] => Raise JSONDecodeError
  | c :: s1 =>
    if c =? c_quote then Ok ([], s1)
    else if c =? c_backslash then
      match s1 with
      | [] => Raise JSONDecodeError
      | e :: s2 =>
        if e =? 117 then
          match s2 with
          | h1 :: h2 :: h3 :: h4 :: s6 =>
            match hex4 h1 h2 h3 h4 with
            | None => Raise JSONDecodeError
            | Some uni =>
              if is_high_surrogate uni then
                match s6 with
                | b :: u :: g1 :: g2 :: g3 :: g4 :: s12 =>
                  if (b =? c_backslash) && (u =? 117) then
                    match hex4 g1 g2 g3 g4 with
                    | None => Raise JSONDecodeError
                    | Some uni2 =>
                      if is_low_surrogate uni2
                      then prepend (join_surrogates uni uni2) (scanstring s12)
                      else prepend uni (scanstring s6)
                    end
                  else prepend uni (scanstring s6)
                | _ => prepend uni (scanstring s6)
                end
              else prepend uni (scanstring s6)
            end
          | _ => Raise JSONDecodeError
          end
        else
          match unescape e with
          | Some c' => prepend c' (scanstring s2)
          | None => Raise JSONDecodeError
          end
      end
    else if c <? 32 then Raise JSONDecodeError
    else prepend c (scanstring s1)
  end.

(** [scan_once], [JSONArray] and [JSONObject].  [fuel] bounds the nesting of
    the calls; [decode] gives more fuel than a text of that length can use
    ([scan_once_consumes]), so that [RecursionError] is never raised here.

    [array_items fuel acc s] scans the items of an array from the first
    character of an item, [acc] being the items already read;
    [object_items fuel acc s] scans the pairs of an object from the character
    after the opening quote of a key. *)
Fixpoint scan_once (fuel : nat) (s : str) {struct fuel} : result (json * str) :=
  match fuel with
  | O => Raise RecursionError
  | S fuel' =>
    match s with
    | [] => Raise JSONDecodeError
    | c :: s' =>
      if c =? c_quote then
        '(x, r) <- scanstring s' ;; Ok (JStr x, r)
      else if c =? c_lbrace then
        match skip_ws s' with
        | c1 :: r1 =>
          if c1 =? c_rbrace then Ok (JObj [], r1)
          else if c1 =? c_quote then object_items fuel' [] r1
          else Raise JSONDecodeError
        | [] => Raise JSONDecodeError
        end
      else if c =? c_lbracket then
        match skip_ws s' with
        | c1 :: r1 =>
          if c1 =? c_rbracket then Ok (JArr [], r1)
          else array_items fuel' [] (c1 :: r1)
        | [] => Raise JSONDecodeError
        end
      else
        match strip_prefix (lit "null") s with
        | Some r => Ok (JNull, r)
        | None =>
        match strip_prefix (lit "true") s with
        | Some r => Ok (JBool true, r)
        | None =>
        match strip_prefix (lit "false") s with
        | Some r => Ok (JBool false, r)
        | None =>
        match match_number s with
        | Some vr => Ok vr
        | None =>
        match strip_prefix (lit "NaN") s with
        | Some r => Ok (JFloat (lit "NaN"), r)
        | None =>
        match strip_prefix (lit "Infinity") s with
        | Some r => Ok (JFloat (lit "Infinity"), r)
        | None =>
        match strip_prefix (lit "-Infinity") s with
        | Some r => Ok (JFloat (lit "-Infinity"), r)
        | None => Raise JSONDecodeError
        end end end end end end end
    end
  end

with array_items (fuel : nat) (acc : list json) (s : str) {struct fuel}
  : result (json * str) :=
  match fuel with
  | O => Raise RecursionError
  | S fuel' =>
    '(v, r) <- scan_once fuel' s ;;
    match skip_ws r with
    | c :: r1 =>
      if c =? c_rbracket then Ok (JArr (acc ++ [v]), r1)
      else if c =? c_comma then array_items fuel' (acc ++ [v]) (skip_ws r1)
      else Raise JSONDecodeError
    | [] => Raise JSONDecodeError
    end
  end

with object_items (fuel : nat) (acc : list (str * json)) (s : str) {struct fuel}
  : result (json * str) :=
  match fuel with
  | O => Raise RecursionError
  | S fuel' =>
    '(k, r) <- scanstring s ;;
    match skip_ws r with
    | c :: r1 =>
      if c =? c_colon then
        '(v, r2) <- scan_once fuel' (skip_ws r1) ;;
        match skip_ws r2 with
        | c2 :: r3 =>
          if c2 =? c_rbrace then Ok (JObj (dict_set acc k v), r3)
          else if c2 =? c_comma then
            match skip_ws r3 with
            | c3 :: r4 =>
              if c3 =? c_quote then object_items fuel' (dict_set acc k v) r4
              else Raise JSONDecodeError
            | [] => Raise JSONDecodeError
            end
          else Raise JSONDecodeError
        | [] => Raise JSONDecodeError
        end
      else Raise JSONDecodeError
    | [] => Raise JSONDecodeError
    end
  end.

(** [JSONDecoder.decode(s)]: white space is allowed around the value,
    anything else after it is [Extra data]. *)
Definition decode (s : str) : result json :=
  '(v, r) <- scan_once (S (2 * length s)) (skip_ws s) ;;
  match skip_ws r with
  | [] => Ok v
  | _ :: _ => Raise JSONDecodeError
  end.

(** [json.loads(s)]: a text that starts with a byte order mark is refused. *)
Definition json_loads (s : str) : result json :=
  match s with
  | c :: _ => if c =? 65279 then Raise JSONDecodeError else decode s
  | [] => decode s
  end.

(** ** Truth values *)

(** The digits after the dot of a float literal, and its exponent. *)
Definition fraction_digits (r : str) : uint * str :=
  match r with
  | c :: t => if c =? 46 then scan_digits t else (Nil, r)
  | [] => (Nil, r)
  end.

Definition exponent_value (r : str) : Z :=
  match r with
  | c :: t =>
    if (c =? 101) || (c =? 69) then
      match t with
      | c2 :: t2 =>
        if c2 =? 43 then Z.of_uint (fst (scan_digits t2))
        else if c2 =? c_minus then (- Z.of_uint (fst (scan_digits t2)))%Z
        else Z.of_uint (fst (scan_digits t))
      | [] => 0%Z
      end
    else 0%Z
  | [] => 0%Z
  end.

(** [bool(x)] of the float [x] that [json.load] makes of a literal.  [float]
    rounds the decimal number of the literal to the nearest binary64 number,
    a tie to the even one: the float is zero exactly when the number is at
    most 2^-1075 in magnitude, half of the smallest positive float.  With the
    digits [m] of the literal and the power of ten [k] that they are
    multiplied by, that is [m * 10^k <= 2^-1075].  [NaN] and the infinities
    are not zero. *)
Definition float_nonzero (literal : str) : bool :=
  match scan_integer literal with
  | None => true
  | Some (_, d, r) =>
    let (fd, r1) := fraction_digits r in
    let m := Z.of_uint (Decimal.app d fd) in
    let k := (exponent_value r1 - Z.of_nat (nb_digits fd))%Z in
    if (m =? 0)%Z then false
    else if (0 <=? k)%Z then true
    else (10 ^ (- k) <? m * 2 ^ 1075)%Z
  end.

(** Python truth value of a JSON value ([if valor], [if regex],
    [if not historial]). *)
Definition truthy (v : json) : bool :=
  match v with
  | JNull => false
  | JBool b => b
  | JInt z => negb (Z.eqb z 0)
  | JFloat literal => float_nonzero literal
  | JStr s => negb (str_eqb s [])
  | JArr l => match l with [] => false | _ => true end
  | JObj kvs => match kvs with [] => false | _ => true end
  end.

(** ** [str.split] and [str.strip] *)

(** [s.split(sep)] for a separator of one character: the segments between the
    separators, the empty ones included. *)
Fixpoint split (sep : char) (s : str) : list str :=
  match s with
  | [] => [[]]
  | c :: s' =>
    if c =? sep then [] :: split sep s'
    else match split sep s' with
         | seg :: segs => (c :: seg) :: segs
         | [] => [[c]]
         end
  end.

(** [str.isspace] for one character, the white space of [str.strip]. *)
Definition isspace (c : char) : bool :=
  ((9 <=? c) && (c <=? 13)) || ((28 <=? c) && (c <=? 32))
  || (c =? 133) || (c =? 160) || (c =? 5760)
  || ((8192 <=? c) && (c <=? 8202))
  || (c =? 8232) || (c =? 8233) || (c =? 8239) || (c =? 8287) || (c =? 12288).

Fixpoint lstrip (s : str) : str :=
  match s with
  | c :: s' => if isspace c then lstrip s' else s
  | [] => []
  end.

Definition rstrip (s : str) : str := rev (lstrip (rev s)).

Definition strip (s : str) : str := rstrip (lstrip s).

(** ** The program and its surroundings *)

(** The answer of [requests.post]: a response with its status code, or an
    exception whose text is [mensaje]. *)
Inductive respuesta : Type :=
| Response (status_code : Z)
| Fallo (mensaje : str).

(** What the program is run against: the library functions it only calls
    ([str.capitalize], [str()], [re.fullmatch]), what the user has entered in
    each widget during this run of the script, and the remote server.
    [escrito_antes_del_error texto] is what a file holds after the writing of
    [texto] has failed: the chunks that [json.dump] had written before the
    one that cannot be encoded. *)
Record Entorno : Type := {
  capitalize : str -> str;
  py_str : json -> str;
  re_fullmatch : str -> str -> result bool;
  escrito_antes_del_error : str -> str;
  st_text_input : str -> json -> str;
  st_number_input : str -> json -> json -> result Z;
  st_checkbox : str -> bool;
  st_button : str -> option str -> bool;
  st_form_submit_button : str -> bool;
  requests_post : str -> json -> respuesta
}.

(** What the script puts on the page, in order. *)
Inductive elemento : Type :=
| st_title (texto : str)
| st_markdown (texto : str)
| st_subheader (texto : str)
| st_success (texto : str)
| st_info (texto : str)
| st_warning (texto : str)
| st_error (texto : str)
| st_json (v : json)
| st_download_button (label data file_name mime : str)
| st_expander (label : str).

(** The object ([self]) with the world it acts on: the files, the page and the
    calls of [requests.post], each with its URL and its JSON body. *)
Record Estado : Type := mkEstado {
  schema_path : str;
  historial_path : str;
  schema : json;
  data : list (str * json);
  errores : list (str * str);
  archivos : str -> option str;
  pantalla : list elemento;
  peticiones : list (str * json)
}.

Definition set_data (d : list (str * json)) (st : Estado) : Estado :=
  mkEstado (schema_path st) (historial_path st) (schema st) d (errores st)
           (archivos st) (pantalla st) (peticiones st).

Definition set_errores (e : list (str * str)) (st : Estado) : Estado :=
  mkEstado (schema_path st) (historial_path st) (schema st) (data st) e
           (archivos st) (pantalla st) (peticiones st).

Definition set_archivos (f : str -> option str) (st : Estado) : Estado :=
  mkEstado (schema_path st) (historial_path st) (schema st) (data st)
           (errores st) f (pantalla st) (peticiones st).

Definition set_pantalla (p : list elemento) (st : Estado) : Estado :=
  mkEstado (schema_path st) (historial_path st) (schema st) (data st)
           (errores st) (archivos st) p (peticiones st).

Definition set_peticiones (r : list (str * json)) (st : Estado) : Estado :=
  mkEstado (schema_path st) (historial_path st) (schema st) (data st)
           (errores st) (archivos st) (pantalla st) r.

(** The state in which the file at [path] holds [content]. *)
Definition con_archivo (path content : str) (st : Estado) : Estado :=
  set_archivos (fun q => if str_eqb q path then Some content else archivos st q) st.

(** A method: it changes the state and returns or raises; what it changed
    before raising stays changed. *)
Definition M (A : Type) : Type := Estado -> Estado * result A.

Definition ret {A} (a : A) : M A := fun st => (st, Ok a).
Definition raise {A} (e : exn) : M A := fun st => (st, Raise e).
Definition lift {A} (r : result A) : M A := fun st => (st, r).

Definition bindM {A B} (m : M A) (k : A -> M B) : M B :=
  fun st =>
    match m st with
    | (st', Ok a) => k a st'
    | (st', Raise e) => (st', Raise e)
    end.

Notation "'do' x <- m ; k" := (bindM m (fun x => k))
  (at level 10, x name, m at level 100, k at level 200).
Notation "m1 >> m2" := (bindM m1 (fun _ => m2))
  (at level 62, right associativity).

Definition show (e : elemento) : M unit :=
  fun st => (set_pantalla (pantalla st ++ [e]) st, Ok tt).

(** [d.get(k, default)] of a value of the schema; only a [dict] has [get]. *)
Definition opciones_get (opciones : json) (k : str) (default : json) : result json :=
  match opciones with
  | JObj kvs =>
    Ok (match dict_get kvs k with Some v => v | None => default end)
  | _ => Raise AttributeError
  end.

Definition is_str (v : json) (s : str) : bool :=
  match v with
  | JStr x => str_eqb x s
  | _ => false
  end.

(** [[i.strip() for i in texto.split(",") if i.strip()]] *)
Definition lista_de (texto : str) : list str :=
  flat_map (fun i => if truthy (JStr (strip i)) then [strip i] else [])
           (split c_comma texto).

(** [len(historial)] and [del historial[index]] for an index in range. *)
Definition len (v : json) : result nat :=
  match v with
  | JArr l => Ok (length l)
  | JObj kvs => Ok (length kvs)
  | JStr s => Ok (length s)
  | _ => Raise TypeError
  end.

Definition del_item (v : json) (index : nat) : result json :=
  match v with
  | JArr l => Ok (JArr (firstn index l ++ skipn (S index) l))
  | JObj _ => Raise KeyError
  | _ => Raise TypeError
  end.

Section JSONFormGenerator.
Variable env : Entorno.

(** [with open(path, "w", encoding="utf-8") as f: json.dump(...)] for the
    text that [json.dump] produces: a text with a surrogate cannot be
    encoded, the error is raised and the file keeps what was written before. *)
Definition write_file (path : str) (content : str) : M unit :=
  fun st =>
    if encodable content then (con_archivo path content st, Ok tt)
    else (con_archivo path (escrito_antes_del_error env content) st,
          Raise UnicodeEncodeError).

(** [json.load] of an existing file; [open] raises when there is none. *)
Definition json_load_file (path : str) : M json :=
  fun st =>
    match archivos st path with
    | Some content => (st, json_loads content)
    | None => (st, Raise FileNotFoundError)
    end.

Definition load_schema : M json :=
  fun st => json_load_file (schema_path st) st.

(** [JSONFormGenerator(schema_path, historial_path)] in a world with the
    given files. *)
Definition init (schema_path historial_path : str)
           (archivos : str -> option str) : result Estado :=
  let st := mkEstado schema_path historial_path JNull [] [] archivos [] [] in
  match load_schema st with
  | (_, Ok sch) =>
    Ok (mkEstado schema_path historial_path sch [] [] archivos [] [])
  | (_, Raise e) => Raise e
  end.

(** [re.fullmatch(regex, valor)] of a value of the schema: only a [str] is a
    pattern. *)
Definition fullmatch (regex : json) (valor : str) : result bool :=
  match regex with
  | JStr r => re_fullmatch env r valor
  | _ => Raise TypeError
  end.

Definition validar_regex (campo valor : str) (regex : json) : M bool :=
  do ok <- lift (fullmatch regex valor) ;
  if negb ok then
    fun st =>
      (set_errores
         (dict_set (errores st) campo
                   (lit "Formato inválido para '" ++ campo ++ lit "'")) st,
       Ok false)
  else ret true.

Definition set_campo (campo : str) (v : json) : M unit :=
  fun st => (set_data (dict_set (data st) campo v) st, Ok tt).

(** The body of the loop of [render_form], for one field of the schema. *)
Definition render_campo (campo : str) (opciones : json) : M unit :=
  do tipo <- lift (opciones_get opciones (lit "tipo") JNull) ;
  do placeholder <- lift (opciones_get opciones (lit "placeholder") (JStr [])) ;
  do regex <- lift (opciones_get opciones (lit "regex") JNull) ;
  if is_str tipo (lit "texto") then
    let valor := st_text_input env (capitalize env campo) placeholder in
    (if truthy (JStr valor) && truthy regex
     then do _ <- validar_regex campo valor regex ; ret tt
     else ret tt) >>
    set_campo campo (JStr valor)
  else if is_str tipo (lit "numero") then
    do minimo <- lift (opciones_get opciones (lit "min") (JInt 0)) ;
    do maximo <- lift (opciones_get opciones (lit "max") (JInt 100)) ;
    do n <- lift (st_number_input env (capitalize env campo) minimo maximo) ;
    set_campo campo (JInt n)
  else if is_str tipo (lit "booleano") then
    set_campo campo (JBool (st_checkbox env (capitalize env campo)))
  else if is_str tipo (lit "lista") then
    let texto :=
      st_text_input env (capitalize env campo ++ lit " (separado por comas)")
                    placeholder in
    set_campo campo (JArr (map JStr (lista_de texto)))
  else
    show (st_warning (lit "Tipo no reconocido: " ++ py_str env tipo)).

Fixpoint render_campos (items : list (str * json)) : M unit :=
  match items with
  | [] => ret tt
  | (campo, opciones) :: items' =>
    render_campo campo opciones >> render_campos items'
  end.

(** [self.schema.items()]: only a [dict] has [items]. *)
Definition render_form : M unit :=
  show (st_title (lit "🧩 Formulario dinámico con validaciones, historial y envío remoto")) >>
  fun st =>
    match schema st with
    | JObj items => render_campos items st
    | _ => (st, Raise AttributeError)
    end.

(** Lines 60 to 66: the list that [guardar_historial] appends to. *)
Definition cargar_para_guardar : M json :=
  fun st =>
    match archivos st (historial_path st) with
    | Some content =>
      match json_loads content with
      | Ok v => (st, Ok v)
      | Raise JSONDecodeError => (st, Ok (JArr []))
      | Raise e => (st, Raise e)
      end
    | None => (st, Ok (JArr []))
    end.

Definition guardar_historial : M unit :=
  do historial <- cargar_para_guardar ;
  fun st =>
    match historial with
    | JArr l =>
      write_file (historial_path st)
                 (json_dumps (JArr (l ++ [JObj (data st)]))) st
    | _ => (st, Raise AttributeError)
    end.

(** [0 <= index < len(historial)] looks at the length only when the index
    is not negative. *)
Definition eliminar_entrada_historial (index : Z) : M unit :=
  fun st =>
    match archivos st (historial_path st) with
    | Some content =>
      match json_loads content with
      | Raise e => (st, Raise e)
      | Ok historial =>
        if (0 <=? index)%Z then
          match len historial with
          | Raise e => (st, Raise e)
          | Ok n =>
            if (index <? Z.of_nat n)%Z then
              match del_item historial (Z.to_nat index) with
              | Raise e => (st, Raise e)
              | Ok historial' =>
                (write_file (historial_path st) (json_dumps historial') >>
                 raise RerunException) st
              end
            else (st, Ok tt)
          end
        else (st, Ok tt)
      end
    | None => (st, Ok tt)
    end.

(** Lines 115 to 126: what follows the form of the remote submission. *)
Definition enviar_a_url (enviar : bool) (url : str) : M unit :=
  if enviar then
    if truthy (JStr url) then
      fun st =>
        let st' := set_peticiones (peticiones st ++ [(url, JObj (data st))]) st in
        match requests_post env url (JObj (data st)) with
        | Response status_code =>
          if (status_code =? 200)%Z
          then show (st_success (lit "✅ Datos enviados correctamente.")) st'
          else show (st_warning (lit "⚠️ Error al enviar: Código "
                                   ++ repr_int status_code)) st'
        | Fallo e =>
          show (st_error (lit "❌ Fallo al enviar: " ++ e)) st'
        end
    else show (st_warning (lit "⚠️ Debés ingresar una URL válida."))
  else ret tt.

Fixpoint mostrar_errores (l : list (str * str)) : M unit :=
  match l with
  | [] => ret tt
  | (campo, mensaje) :: l' =>
    show (st_markdown (lit "- **" ++ campo ++ lit "**: " ++ mensaje)) >>
    mostrar_errores l'
  end.

Definition render_output : M unit :=
  show (st_markdown (lit "---")) >>
  fun st =>
    match errores st with
    | _ :: _ =>
      (show (st_error (lit "❌ Errores en el formulario:")) >>
       mostrar_errores (errores st)) st
    | [] =>
      (show (st_success (lit "✅ JSON válido generado")) >>
       show (st_subheader (lit "📄 Resultado JSON")) >>
       show (st_json (JObj (data st))) >>
       (if st_button env (lit "💾 Guardar en historial") None
        then guardar_historial >>
             show (st_success (lit "Guardado en historial correctamente."))
        else ret tt) >>
       show (st_download_button (lit "⬇️ Descargar JSON")
                                (json_dumps_ascii (JObj (data st)))
                                (lit "resultado.json") (lit "application/json")) >>
       show (st_expander (lit "📡 Enviar JSON a una URL externa")) >>
       enviar_a_url
         (st_form_submit_button env (lit "🚀 Enviar"))
         (st_text_input env (lit "Ingresá la URL donde enviar el JSON:")
                        (JStr (lit "https://api.tuservidor.com/datos")))) st
    end.

(** Lines 133 to 140: the list that [mostrar_historial] shows. *)
Definition cargar_para_mostrar : M json :=
  fun st =>
    match archivos st (historial_path st) with
    | Some content =>
      match json_loads content with
      | Ok v => (st, Ok v)
      | Raise JSONDecodeError => (st, Ok (JArr []))
      | Raise e => (st, Raise e)
      end
    | None => (st, Ok (JArr []))
    end.

(** The loop over [historial[::-1]]: [entradas] are the entries still to
    show, the last one first, and [n] is their number, so that the entry
    shown has the index [n - 1] in the stored list. *)
Fixpoint mostrar_entradas (entradas : list json) (n : nat) : M unit :=
  match entradas, n with
  | entry :: entradas', S real_index =>
    show (st_expander (lit "Formulario #" ++ repr_int (Z.of_nat real_index + 1))) >>
    show (st_json entry) >>
    (if st_button env (lit "🗑️ Eliminar este formulario")
                  (Some (lit "del_" ++ repr_int (Z.of_nat real_index)))
     then eliminar_entrada_historial (Z.of_nat real_index)
     else ret tt) >>
    mostrar_entradas entradas' real_index
  | _, _ => ret tt
  end.

(** Of a stored value that is not a list, only a non-empty [str] can be
    sliced and enumerated, character by character; a [dict] and a number
    raise at [historial[::-1]]. *)
Definition mostrar_historial : M unit :=
  show (st_markdown (lit "---")) >>
  show (st_subheader (lit "📚 Historial de formularios anteriores")) >>
  do historial <- cargar_para_mostrar ;
  if negb (truthy historial) then
    show (st_info (lit "No hay historial guardado aún."))
  else
    match historial with
    | JArr l => mostrar_entradas (rev l) (length l)
    | JStr s => mostrar_entradas (map (fun c => JStr [c]) (rev s)) (length s)
    | _ => raise TypeError
    end.

Definition run : M unit :=
  render_form >> render_output >> mostrar_historial.

(** The script: [app = JSONFormGenerator("esquema.json"); app.run()]. *)
Definition main (archivos : str -> option str) : result (Estado * result unit) :=
  app <- init (lit "esquema.json") (lit "historial.json") archivos ;;
  Ok (run app).
End JSONFormGenerator.

(** ** Values that are written and read back exactly *)

Fixpoint keys_unique (ks : list str) : bool :=
  match ks with
  | [] => true
  | k :: ks' => negb (existsb (str_eqb k) ks') && keys_unique ks'
  end.

(** The keys of every [dict] in the value are distinct. *)
Fixpoint keys_ok (v : json) : bool :=
  match v with
  | JArr l => forallb keys_ok l
  | JObj kvs =>
    keys_unique (map fst kvs) && forallb (fun kv => keys_ok (snd kv)) kvs
  | _ => true
  end.

(** What the program can have stored: no float occurs in the value, and its
    strings and keys can be encoded. *)
Fixpoint storable (v : json) : bool :=
  match v with
  | JFloat _ => false
  | JStr s => encodable s
  | JArr l => forallb storable l
  | JObj kvs => forallb (fun kv => encodable (fst kv) && storable (snd kv)) kvs
  | _ => true
  end.

(** A value as Python holds it (the keys of a [dict] are distinct) in which no
    float occurs. *)
Fixpoint json_plain (v : json) : bool :=
  match v with
  | JFloat _ => false
  | JArr l => forallb json_plain l
  | JObj kvs =>
    keys_unique (map fst kvs) && forallb (fun kv => json_plain (snd kv)) kvs
  | _ => true
  end.

(** The value of a field of one of the four kinds, and a Submission: a [dict]
    of such values.  The strings are texts, as everything that comes from a
    widget: they can be encoded. *)
Definition is_valor (v : json) : bool :=
  match v with
  | JStr s => encodable s
  | JInt _ | JBool _ => true
  | JArr l => forallb (fun x => match x with JStr s => encodable s | _ => false end) l
  | _ => false
  end.

Definition is_submission (v : json) : bool :=
  match v with
  | JObj kvs =>
    keys_unique (map fst kvs)
    && forallb (fun kv => encodable (fst kv) && is_valor (snd kv)) kvs
  | _ => false
  end.

Definition is_object (v : json) : bool :=
  match v with JObj _ => true | _ => false end.

(** The characters of a text of printable ASCII, with its line feeds. *)
Definition es_ascii (s : str) : bool :=
  forallb (fun c => (c =? c_lf) || ((32 <=? c) && (c <=? 126))) s.

(** A text of Unicode scalar values: code points below [0x110000] that are
    not surrogates, as in every [str] decoded from UTF-8. *)
Definition es_unicode (s : str) : bool :=
  forallb (fun c => negb (is_surrogate c) && (c <? 1114112)) s.

(** Every string and every key in the value satisfies [p]. *)
Fixpoint textos (p : str -> bool) (v : json) : bool :=
  match v with
  | JStr s => p s
  | JArr l => forallb (textos p) l
  | JObj kvs => forallb (fun kv => p (fst kv) && textos p (snd kv)) kvs
  | _ => true
  end.

(** ** The grammar of JSON

    The grammar of RFC 8259, with the value that a text denotes.  [ext] is
    false for the grammar of the standard, and true for the grammar of
    Python's [json], which adds [NaN], [Infinity] and [-Infinity] to the
    values. *)

(** ws: spaces, tabs, line feeds and carriage returns. *)
Definition es_ws (w : str) : bool := forallb is_ws w.

Definition es_digito (c : char) : bool := (48 <=? c) && (c <=? 57).

Definition no_vacio (s : str) : bool :=
  match s with [] => false | _ :: _ => true end.

(** The text does not go on with a digit, or with a dot. *)
Definition sin_digito (s : str) : bool :=
  match s with c :: _ => negb (es_digito c) | [] => true end.

Definition sin_punto (s : str) : bool :=
  match s with c :: _ => negb (c =? 46) | [] => true end.

(** The first character of a text that follows white space is none of the
    white space, the closing bracket and the byte order mark. *)
Definition cabeza_de_valor (s : str) : bool :=
  match s with
  | c :: _ => negb (is_ws c) && negb (c =? c_rbracket) && negb (c =? 65279)
  | [] => false
  end.

(** The decimal numeral that a run of digits writes. *)
Fixpoint numeral (s : str) : uint :=
  match s with
  | [] => Nil
  | c :: s' =>
    match digit_of_char c with
    | Some D => D (numeral s')
    | None => Nil
    end
  end.

(** int = zero / ( digit1-9 *DIGIT ) *)
Definition es_int (s : str) : bool :=
  match s with
  | [] => false
  | [c] => es_digito c
  | c :: s' => es_digito c && negb (c =? 48) && forallb es_digito s'
  end.

(** frac = decimal-point 1*DIGIT, or nothing. *)
Definition es_frac (s : str) : bool :=
  match s with
  | [] => true
  | c :: ds => (c =? 46) && no_vacio ds && forallb es_digito ds
  end.

(** exp = e [ minus / plus ] 1*DIGIT, or nothing. *)
Definition es_exp (s : str) : bool :=
  match s with
  | [] => true
  | c :: t =>
    ((c =? 101) || (c =? 69))
    && match t with
       | c2 :: ds =>
         if (c2 =? 43) || (c2 =? c_minus)
         then no_vacio ds && forallb es_digito ds
         else forallb es_digito t
       | [] => false
       end
  end.

Definition signo (neg : bool) : str := if neg then [c_minus] else [].

(** number = [ minus ] int [ frac ] [ exp ]: an [int] when it has neither
    fraction nor exponent, else a [float]. *)
Inductive numero : str -> json -> Prop :=
| num_int (neg : bool) (i : str) :
    es_int i = true ->
    numero (signo neg ++ i)
           (JInt (Z.of_int (if neg then Neg (numeral i) else Pos (numeral i))))
| num_float (neg : bool) (i f e : str) :
    es_int i = true -> es_frac f = true -> es_exp e = true -> f ++ e <> [] ->
    numero (signo neg ++ i ++ f ++ e) (JFloat (signo neg ++ i ++ f ++ e)).

(** The text goes on with the escape of a low surrogate. *)
Definition sigue_bajo (s : str) : bool :=
  match s with
  | b :: u :: g1 :: g2 :: g3 :: g4 :: _ =>
    (b =? c_backslash) && (u =? 117)
    && match hex4 g1 g2 g3 g4 with
       | Some lo => is_low_surrogate lo
       | None => false
       end
  | _ => false
  end.

(** [cadena s x]: between its quotes a string holds [s], and denotes [x].
    An unescaped character is any but the quote, the backslash and the
    control characters; an escape is one of the two-character escapes or
    [\uXXXX]; the escapes of a high and a low surrogate in a row denote one
    character. *)
Inductive cadena : str -> str -> Prop :=
| cad_fin : cadena [] []
| cad_char (c : char) (s x : str) :
    (32 <=? c) = true -> c <> c_quote -> c <> c_backslash ->
    cadena s x -> cadena (c :: s) (c :: x)
| cad_escape (e c : char) (s x : str) :
    unescape e = Some c ->
    cadena s x -> cadena (c_backslash :: e :: s) (c :: x)
| cad_u (h1 h2 h3 h4 : char) (u : N) (s x : str) :
    hex4 h1 h2 h3 h4 = Some u ->
    is_high_surrogate u && sigue_bajo s = false ->
    cadena s x ->
    cadena (c_backslash :: 117 :: h1 :: h2 :: h3 :: h4 :: s) (u :: x)
| cad_par (h1 h2 h3 h4 g1 g2 g3 g4 : char) (hi lo : N) (s x : str) :
    hex4 h1 h2 h3 h4 = Some hi -> is_high_surrogate hi = true ->
    hex4 g1 g2 g3 g4 = Some lo -> is_low_surrogate lo = true ->
    cadena s x ->
    cadena (c_backslash :: 117 :: h1 :: h2 :: h3 :: h4
              :: c_backslash :: 117 :: g1 :: g2 :: g3 :: g4 :: s)
           (join_surrogates hi lo :: x).

(** The [dict] of the members of an object, in the order of the text: a name
    given again keeps its place and takes the new value. *)
Definition dict_desde (acc kvs : list (str * json)) : list (str * json) :=
  fold_left (fun d kv => dict_set d (fst kv) (snd kv)) kvs acc.

Definition dict_de (kvs : list (str * json)) : list (str * json) :=
  dict_desde [] kvs.

(** [gramatica ext t v]: [t] is the text of a value, and [v] the value;
    [elementos] are the values of an array between its brackets, [miembros]
    the members of an object between its braces. *)
Inductive gramatica (ext : bool) : str -> json -> Prop :=
| g_null : gramatica ext (lit "null") JNull
| g_true : gramatica ext (lit "true") (JBool true)
| g_false : gramatica ext (lit "false") (JBool false)
| g_numero (s : str) (v : json) : numero s v -> gramatica ext s v
| g_cadena (s x : str) :
    cadena s x -> gramatica ext (c_quote :: s ++ [c_quote]) (JStr x)
| g_lista_vacia (w : str) :
    es_ws w = true -> gramatica ext (c_lbracket :: w ++ [c_rbracket]) (JArr [])
| g_lista (s : str) (l : list json) :
    elementos ext s l -> gramatica ext (c_lbracket :: s ++ [c_rbracket]) (JArr l)
| g_objeto_vacio (w : str) :
    es_ws w = true -> gramatica ext (c_lbrace :: w ++ [c_rbrace]) (JObj [])
| g_objeto (s : str) (kvs : list (str * json)) :
    miembros ext s kvs ->
    gramatica ext (c_lbrace :: s ++ [c_rbrace]) (JObj (dict_de kvs))
| g_nan : ext = true -> gramatica ext (lit "NaN") (JFloat (lit "NaN"))
| g_infinity :
    ext = true -> gramatica ext (lit "Infinity") (JFloat (lit "Infinity"))
| g_neg_infinity :
    ext = true -> gramatica ext (lit "-Infinity") (JFloat (lit "-Infinity"))

with elementos (ext : bool) : str -> list json -> Prop :=
| el_ultimo (w1 s : str) (v : json) (w2 : str) :
    es_ws w1 = true -> gramatica ext s v -> es_ws w2 = true ->
    elementos ext (w1 ++ s ++ w2) [v]
| el_mas (w1 s : str) (v : json) (w2 resto : str) (l : list json) :
    es_ws w1 = true -> gramatica ext s v -> es_ws w2 = true ->
    elementos ext resto l ->
    elementos ext (w1 ++ s ++ w2 ++ c_comma :: resto) (v :: l)

with miembros (ext : bool) : str -> list (str * json) -> Prop :=
| mi_ultimo (w1 k x w2 w3 s : str) (v : json) (w4 : str) :
    es_ws w1 = true -> cadena k x -> es_ws w2 = true -> es_ws w3 = true ->
    gramatica ext s v -> es_ws w4 = true ->
    miembros ext
             (w1 ++ c_quote :: k ++ c_quote :: w2 ++ c_colon :: w3 ++ s ++ w4)
             [(x, v)]
| mi_mas (w1 k x w2 w3 s : str) (v : json) (w4 resto : str)
         (kvs : list (str * json)) :
    es_ws w1 = true -> cadena k x -> es_ws w2 = true -> es_ws w3 = true ->
    gramatica ext s v -> es_ws w4 = true ->
    miembros ext resto kvs ->
    miembros ext
             (w1 ++ c_quote :: k ++ c_quote :: w2 ++ c_colon :: w3 ++ s ++ w4
                 ++ c_comma :: resto)
             ((x, v) :: kvs).

Scheme gramatica_mut := Minimality for gramatica Sort Prop
  with elementos_mut := Minimality for elementos Sort Prop
  with miembros_mut := Minimality for miembros Sort Prop.

Combined Scheme gramatica_elementos_miembros
  from gramatica_mut, elementos_mut, miembros_mut.

(** JSON-text = ws value ws. *)
Definition json_texto (ext : bool) (s : str) (v : json) : Prop :=
  exists w1 t w2,
    s = w1 ++ t ++ w2 /\ es_ws w1 = true /\ es_ws w2 = true /\ gramatica ext t v.

(** ** Measures and predicates for the decoder *)

(** What may follow a value in a JSON text. *)
Definition ends_value (rest : str) : bool :=
  match rest with
  | [] => true
  | c :: _ => is_ws c || (c =? c_comma) || (c =? c_rbracket) || (c =? c_rbrace)
  end.

(** The text of a value starts with a character of its own kind: never with
    white space, a closing bracket or a byte order mark. *)
Definition starts_value (c : char) : bool :=
  (c =? 110) || (c =? 116) || (c =? 102) || (c =? c_minus)
  || ((48 <=? c) && (c <=? 57)) || (c =? c_quote) || (c =? c_lbracket)
  || (c =? c_lbrace).

(** The fuel that [scan_once] uses on the text of a value. *)
Fixpoint size (v : json) : nat :=
  match v with
  | JArr l => S (fold_right (fun x n => S (size x + n)) O l)
  | JObj kvs => S (fold_right (fun kv n => S (size (snd kv) + n)) O kvs)
  | _ => 1
  end.

Definition items_size (l : list json) : nat :=
  fold_right (fun x n => S (size x + n)) O l.

Definition pairs_size (kvs : list (str * json)) : nat :=
  fold_right (fun kv n => S (size (snd kv) + n)) O kvs.

(** [scans v]: the text of [v], at any depth and before anything that may
    follow a value, is read back as [v]. *)
Definition scans (v : json) : Prop :=
  forall level fuel rest,
    (size v <= fuel)%nat -> ends_value rest = true ->
    scan_once fuel (iterencode escape_char level v ++ rest) = Ok (v, rest).

(** [scans_con esc v]: the same for the text written with the escaping
    [esc]. *)
Definition scans_con (esc : char -> str) (v : json) : Prop :=
  forall level fuel rest,
    (size v <= fuel)%nat -> ends_value rest = true ->
    scan_once fuel (iterencode esc level v ++ rest) = Ok (v, rest).

(** [consumes s res]: a result of the decoder on [s] is a value with a strictly
    shorter rest of the text, or a [JSONDecodeError]. *)
Definition consumes {A : Type} (s : str) (res : result (A * str)) : Prop :=
  match res with
  | Ok (_, r) => (length r < length s)%nat
  | Raise e => e = JSONDecodeError
  end.

(** ** Predicates for the methods *)


(** The entries of a dictionary under one key. *)
Definition entradas {V : Type} (d : list (str * V)) (k : str) : list (str * V) :=
  filter (fun kv => str_eqb (fst kv) k) d.

(** [ajeno k m]: the method [m] leaves what the Submission and the errors
    hold under the key [k] as it is. *)
Definition ajeno {A : Type} (k : str) (m : M A) : Prop :=
  forall st, entradas (data (fst (m st))) k = entradas (data st) k
             /\ entradas (errores (fst (m st))) k = entradas (errores st) k.

(** [colecta m]: the method [m] keeps [self.data] a Submission. *)
Definition colecta {A : Type} (m : M A) : Prop :=
  forall st, is_submission (JObj (data st)) = true ->
             is_submission (JObj (data (fst (m st)))) = true.

(** [mantiene m]: the method [m] leaves the Submission and the requests sent
    as they are. *)
Definition mantiene {A : Type} (m : M A) : Prop :=
  forall st, data (fst (m st)) = data st
             /\ peticiones (fst (m st)) = peticiones st.

(** [envia_solo cond url m]: the method [m] leaves the Submission as it is
    and sends nothing, or [cond] holds and it sends one request, the
    Submission to [url]. *)
Definition envia_solo {A : Type} (cond : Prop) (url : str) (m : M A) : Prop :=
  forall st, data (fst (m st)) = data st
             /\ (peticiones (fst (m st)) = peticiones st
                 \/ (cond /\ peticiones (fst (m st))
                             = peticiones st ++ [(url, JObj (data st))])).

(** The kinds of field that [render_form] knows: the value under [tipo] is
    one of the four strings. *)
Definition tipo_reconocido (opciones : json) : bool :=
  match opciones_get opciones (lit "tipo") JNull with
  | Ok tipo =>
    is_str tipo (lit "texto") || is_str tipo (lit "numero")
    || is_str tipo (lit "booleano") || is_str tipo (lit "lista")
  | Raise _ => false
  end.

(** [anota m]: the method [m] only adds to the page. *)
Definition anota {A : Type} (m : M A) : Prop :=
  forall st, exists mas, pantalla (fst (m st)) = pantalla st ++ mas.

(** [solo_historial m]: of the object and its world, the method [m] changes
    nothing but the content of the history file. *)
Definition solo_historial {A : Type} (m : M A) : Prop :=
  forall st,
    schema_path (fst (m st)) = schema_path st
    /\ historial_path (fst (m st)) = historial_path st
    /\ schema (fst (m st)) = schema st
    /\ data (fst (m st)) = data st
    /\ errores (fst (m st)) = errores st
    /\ pantalla (fst (m st)) = pantalla st
    /\ peticiones (fst (m st)) = peticiones st
    /\ forall q, q <> historial_path st -> archivos (fst (m st)) q = archivos st q.

(** [rellena m]: the method [m] leaves the files and the requests sent as
    they are. *)
Definition rellena {A : Type} (m : M A) : Prop :=
  forall st, archivos (fst (m st)) = archivos st
             /\ peticiones (fst (m st)) = peticiones st.

(** The object that [JSONFormGenerator("esquema.json")] builds on the schema
    [sch], in a world with the files [fs]. *)
Definition objeto (sch : json) (fs : str -> option str) : Estado :=
  mkEstado (lit "esquema.json") (lit "historial.json") sch [] [] fs [] [].

(** [no_escribe m]: the method [m] leaves the files and their paths as they
    are, and only adds to the page. *)
Definition no_escribe {A : Type} (m : M A) : Prop :=
  forall st,
    archivos (fst (m st)) = archivos st
    /\ historial_path (fst (m st)) = historial_path st
    /\ exists mas, pantalla (fst (m st)) = pantalla st ++ mas.

(** The state with the elements [es] added to the page. *)
Definition agrega (es : list elemento) (st : Estado) : Estado :=
  set_pantalla (pantalla st ++ es) st.

(** What [render_output] shows of a Submission without errors, before the
    button that saves it and after it. *)
Definition resultado (d : list (str * json)) : list elemento :=
  [st_markdown (lit "---");
   st_success (lit "✅ JSON válido generado");
   st_subheader (lit "📄 Resultado JSON");
   st_json (JObj d)].

Definition descarga (d : list (str * json)) : list elemento :=
  [st_download_button (lit "⬇️ Descargar JSON") (json_dumps_ascii (JObj d))
                      (lit "resultado.json") (lit "application/json");
   st_expander (lit "📡 Enviar JSON a una URL externa")].

(** The two elements at the head of the history on the page. *)
Definition cabecera_historial : list elemento :=
  [st_markdown (lit "---");
   st_subheader (lit "📚 Historial de formularios anteriores")].

(** The key of the button that deletes the entry with the index [i]. *)
Definition clave_eliminar (i : nat) : option str :=
  Some (lit "del_" ++ repr_int (Z.of_nat i)).

(** What [mostrar_historial] shows of the entry with the index [real_index]:
    an expander numbered from one, with the entry in it. *)
Definition tarjeta (real_index : nat) (entry : json) : list elemento :=
  [st_expander (lit "Formulario #" ++ repr_int (Z.of_nat real_index + 1));
   st_json entry].

(** The cards of the entries of [l] whose index is at least [desde] and less
    than [hasta], the highest index first. *)
Definition tarjetas (l : list json) (desde hasta : nat) : list elemento :=
  flat_map (fun i => match nth_error l i with
                     | Some entry => tarjeta i entry
                     | None => []
                     end)
           (rev (seq desde (hasta - desde))).

(** The title that [render_form] shows first. *)
Definition titulo : elemento :=
  st_title (lit "🧩 Formulario dinámico con validaciones, historial y envío remoto").

(** The message that [validar_regex] records for a field. *)
Definition formato_invalido (campo : str) : str :=
  lit "Formato inválido para '" ++ campo ++ lit "'".

(** [rechazado env campo opciones]: the field is a text field with a pattern,
    something has been entered in it, and what has been entered does not
    match the pattern. *)
Definition rechazado (env : Entorno) (campo : str) (opciones : json) : Prop :=
  exists kvs r,
    opciones = JObj kvs
    /\ dict_get kvs (lit "tipo") = Some (JStr (lit "texto"))
    /\ dict_get kvs (lit "regex") = Some (JStr r)
    /\ r <> []
    /\ st_text_input env (capitalize env campo)
                     (match dict_get kvs (lit "placeholder") with
                      | Some p => p
                      | None => JStr []
                      end) <> []
    /\ re_fullmatch env r
                    (st_text_input env (capitalize env campo)
                                   (match dict_get kvs (lit "placeholder") with
                                    | Some p => p
                                    | None => JStr []
                                    end)) = Ok false.

(** The line that [render_output] shows for one error. *)
Definition linea_de_error (cm : str * str) : elemento :=
  st_markdown (lit "- **" ++ fst cm ++ lit "**: " ++ snd cm).

(** An item of a list field as [render_form] leaves it: not empty, without a
    comma and without white space at either end. *)
Definition item_limpio (x : str) : Prop :=
  x <> [] /\ ~ In c_comma x /\ strip x = x.

(** ** The list of a field in the words of the specification *)

(** [sep.join(l)] for a separator of one character. *)
Fixpoint join (sep : char) (l : list str) : str :=
  match l with
  | [] => []
  | [s] => s
  | s :: l' => s ++ sep :: join sep l'
  end.

(** The list of a field of kind [lista] in the words of the specification:
    split on commas, trim each segment, drop the empty ones. *)
Definition split_trim_drop (texto : str) : list str :=
  filter (fun i => negb (str_eqb i [])) (map strip (split c_comma texto)).

(** ** Sample data *)

(** A Submission with a field of each kind, and a stored log of two entries. *)
Definition envio_ejemplo : list (str * json) :=
  [(lit "nombre", JStr (lit "María José"));
   (lit "edad", JInt 42);
   (lit "activo", JBool true);
   (lit "intereses", JArr [JStr (lit "fútbol"); JStr (lit "ajedrez")])].

Definition historial_ejemplo : list json :=
  [JObj [(lit "nombre", JStr (lit "Ñandú")); (lit "edad", JInt (-7));
         (lit "activo", JBool false); (lit "intereses", JArr [])];
   JObj [(lit "nombre", JStr (lit "Ana")); (lit "edad", JInt 30);
         (lit "activo", JBool true); (lit "intereses", JArr [JStr (lit "cine")])]].

(** A world with one file. *)
Definition un_archivo (path content : str) : str -> option str :=
  fun q => if str_eqb q path then Some content else None.

Definition estado_con (data : list (str * json)) (archivos : str -> option str)
  : Estado :=
  mkEstado (lit "esquema.json") (lit "historial.json") (JObj []) data []
           archivos [] [].

Definition estado_ejemplo : Estado :=
  estado_con envio_ejemplo
             (un_archivo (lit "historial.json") (json_dumps (JArr historial_ejemplo))).

(** A history file whose content is not JSON. *)
Definition estado_corrupto : Estado :=
  estado_con envio_ejemplo (un_archivo (lit "historial.json") (lit "{")).

(** A world whose schema file holds the JSON text of an empty array. *)
Definition estado_esquema_lista : Estado :=
  mkEstado (lit "esquema.json") (lit "historial.json") JNull [] []
           (un_archivo (lit "esquema.json") (lit "[]")) [] [].







(** A world whose schema file holds the text [NaN]. *)
Definition estado_esquema_nan : Estado :=
  mkEstado (lit "esquema.json") (lit "historial.json") JNull [] []
           (un_archivo (lit "esquema.json") (lit "NaN")) [] [].

(** The text of a schema of one field, on three lines, and a world whose
    schema file holds it. *)
Definition texto_esquema : str :=
  [c_lbrace; c_lf; c_space; c_space; c_quote] ++ lit "edad"
    ++ [c_quote; c_colon; c_space; c_lbrace; c_quote] ++ lit "tipo"
    ++ [c_quote; c_colon; c_space; c_quote] ++ lit "numero"
    ++ [c_quote; c_rbrace; c_lf; c_rbrace; c_lf].

Definition estado_esquema_valido : Estado :=
  mkEstado (lit "esquema.json") (lit "historial.json") JNull [] []
           (un_archivo (lit "esquema.json") texto_esquema) [] [].

Definition ascii_upper (c : char) : char :=
  if (97 <=? c) && (c <=? 122) then c - 32 else c.

Definition ascii_lower (c : char) : char :=
  if (65 <=? c) && (c <=? 90) then c + 32 else c.

(** [str.capitalize] on a text of ASCII characters. *)
Definition ascii_capitalize (s : str) : str :=
  match s with
  | [] => []
  | c :: t => ascii_upper c :: map ascii_lower t
  end.

(** A run of the script: [entradas] gives what the user has typed in the text
    input of each label, every number input holds its minimum, no box is
    ticked and no button pressed except, with [enviar], the button of the
    form; the server answers [resp].  The patterns are those without special
    characters, which match their own text and nothing else. *)
Definition entorno_de (entradas : str -> str) (enviar : bool) (resp : respuesta)
  : Entorno :=
  {| capitalize := ascii_capitalize;
     py_str := fun v => match v with
                        | JStr s => s
                        | JNull => lit "None"
                        | _ => lit "?"
                        end;
     re_fullmatch := fun r v => Ok (str_eqb r v);
     escrito_antes_del_error := fun _ => [];
     st_text_input := fun label _ => entradas label;
     st_number_input := fun _ minimo _ =>
                          match minimo with
                          | JInt z => Ok z
                          | _ => Raise TypeError
                          end;
     st_checkbox := fun _ => false;
     st_button := fun _ _ => false;
     st_form_submit_button := fun _ => enviar;
     requests_post := fun _ _ => resp |}.

(** The user has typed the same text everywhere. *)
Definition siempre (texto : str) : str -> str := fun _ => texto.

(** Nothing typed; the word [rojo] typed; a list typed; a URL typed, the
    button of the form pressed and a server that answers 404. *)
Definition entorno_quieto : Entorno := entorno_de (siempre []) false (Response 200).

Definition entorno_rojo : Entorno :=
  entorno_de (siempre (lit "rojo")) false (Response 200).

Definition entorno_lista : Entorno :=
  entorno_de (siempre (lit "a, b,,c ")) false (Response 200).

Definition url_ejemplo : str := lit "https://ejemplo.uy/datos".

Definition entorno_404 : Entorno := entorno_de (siempre url_ejemplo) true (Response 404).

(** A fresh object on a schema, in a world without files. *)
Definition estado_formulario (esquema : json) : Estado :=
  mkEstado (lit "esquema.json") (lit "historial.json") esquema [] []
           (fun _ => None) [] [].

(** A schema with a text field checked against [regex] and a list field. *)
Definition campos_color (regex : str) : list (str * json) :=
  [(lit "color", JObj [(lit "tipo", JStr (lit "texto")); (lit "regex", JStr regex)]);
   (lit "gustos", JObj [(lit "tipo", JStr (lit "lista"))])].

(** The form of that schema, with the pattern [azul] and with the empty
    pattern. *)
Definition estado_color : Estado := estado_formulario (JObj (campos_color (lit "azul"))).

Definition estado_color_sin_patron : Estado :=
  estado_formulario (JObj (campos_color [])).

(** A schema with a field of each kind, one of a kind that [render_form]
    does not know, and a text field without a pattern. *)
Definition campos_ficha : list (str * json) :=
  [(lit "nombre", JObj [(lit "tipo", JStr (lit "texto")); (lit "regex", JStr (lit "Ana"))]);
   (lit "edad", JObj [(lit "tipo", JStr (lit "numero")); (lit "min", JInt 18)]);
   (lit "activo", JObj [(lit "tipo", JStr (lit "booleano"))]);
   (lit "gustos", JObj [(lit "tipo", JStr (lit "lista"))]);
   (lit "foto", JObj [(lit "tipo", JStr (lit "imagen"))]);
   (lit "apodo", JObj [(lit "tipo", JStr (lit "texto"))])].

Definition estado_ficha : Estado := estado_formulario (JObj campos_ficha).

(** A run in which nothing is typed and the only button pressed is the one
    with the key [clave]. *)
Definition entorno_pulsa (clave : option str) : Entorno :=
  {| capitalize := capitalize entorno_quieto;
     py_str := py_str entorno_quieto;
     re_fullmatch := re_fullmatch entorno_quieto;
     escrito_antes_del_error := escrito_antes_del_error entorno_quieto;
     st_text_input := st_text_input entorno_quieto;
     st_number_input := st_number_input entorno_quieto;
     st_checkbox := st_checkbox entorno_quieto;
     st_button := fun _ key =>
                    match key, clave with
                    | Some k, Some k' => str_eqb k k'
                    | None, None => true
                    | _, _ => false
                    end;
     st_form_submit_button := st_form_submit_button entorno_quieto;
     requests_post := requests_post entorno_quieto |}.

(** A schema file in which the name [color] is given twice. *)
Definition campos_repetidos : list (str * json) :=
  [(lit "color", JObj [(lit "tipo", JStr (lit "texto"))]);
   (lit "edad", JObj [(lit "tipo", JStr (lit "numero"))]);
   (lit "color", JObj [(lit "tipo", JStr (lit "lista"))])].

Definition estado_esquema_repetido : Estado :=
  mkEstado (lit "esquema.json") (lit "historial.json") JNull [] []
           (un_archivo (lit "esquema.json") (json_dumps (JObj campos_repetidos)))
           [] [].

(** An object whose form has recorded an error. *)
Definition estado_con_error : Estado :=
  mkEstado (lit "esquema.json") (lit "historial.json") (JObj []) envio_ejemplo
           [(lit "nombre", formato_invalido (lit "nombre"))]
           (fun _ => None) [] [].

(** A history file that holds a JSON object, not an array. *)
Definition estado_historial_objeto : Estado :=
  estado_con envio_ejemplo
             (un_archivo (lit "historial.json")
                         (json_dumps (JObj [(lit "nombre", JStr (lit "Ana"))]))).

(** A schema whose text field has a number where its pattern should be. *)
Definition campos_patron_numero : list (str * json) :=
  [(lit "activo", JObj [(lit "tipo", JStr (lit "booleano"))]);
   (lit "color", JObj [(lit "tipo", JStr (lit "texto")); (lit "regex", JInt 5)])].

Definition estado_patron_numero : Estado :=
  estado_formulario (JObj campos_patron_numero).

(** * Properties *)

(** ** Text *)

Lemma str_eqb_eq (a b : str) : str_eqb a b = true <-> a = b.
Proof.
  revert b; induction a as [|x a IH]; intros [|y b]; simpl;
    try (split; [discriminate | congruence]); try tauto.
  rewrite andb_true_iff, N.eqb_eq, IH.
  split; [intros [-> ->]; reflexivity | intros H; inversion H; auto].
Qed.

Lemma str_eqb_refl (a : str) : str_eqb a a = true.
Proof. apply str_eqb_eq; reflexivity. Qed.

Lemma str_eqb_neq (a b : str) : str_eqb a b = false <-> a <> b.
Proof.
  rewrite <- str_eqb_eq. destruct (str_eqb a b); split; congruence.
Qed.

(** ** Numbers: [int.__repr__] against [NUMBER_RE] *)

Lemma ends_value_cases (rest : str) :
  ends_value rest = true ->
  rest = [] \/ exists c t, rest = c :: t /\ In c [32; 9; 10; 13; 44; 93; 125].
Proof.
  destruct rest as [|c t]; [left; reflexivity|]. simpl. unfold is_ws.
  rewrite !orb_true_iff, !N.eqb_eq. unfold c_space, c_tab, c_lf, c_cr, c_comma, c_rbracket, c_rbrace.
  intros H. right. exists c, t. split; [reflexivity|]. simpl. intuition.
Qed.

Ltac ends_cases H :=
  apply ends_value_cases in H;
  destruct H as [->|(? & ? & -> & H)];
  [|simpl in H; repeat (destruct H as [<-|H]; [|]); try contradiction].

Lemma scan_digits_nondigit (rest : str) :
  ends_value rest = true -> scan_digits rest = (Nil, rest).
Proof. intros H. ends_cases H; reflexivity. Qed.

Lemma scan_digits_uint_str (d : uint) (rest : str) :
  ends_value rest = true -> scan_digits (uint_str d ++ rest) = (d, rest).
Proof.
  intros H. induction d; simpl; try (rewrite IHd; reflexivity).
  apply scan_digits_nondigit; assumption.
Qed.

Lemma scan_fraction_none (rest : str) :
  ends_value rest = true -> scan_fraction rest = (false, rest).
Proof. intros H. ends_cases H; reflexivity. Qed.

Lemma scan_exponent_none (rest : str) :
  ends_value rest = true -> scan_exponent rest = (false, rest).
Proof. intros H. ends_cases H; reflexivity. Qed.

Lemma to_uint_head (p : positive) :
  exists c t, uint_str (Pos.to_uint p) = c :: t
              /\ (49 <=? c) && (c <=? 57) = true.
Proof.
  assert (Hn : Pos.to_uint p = unorm (Pos.to_uint p)).
  { rewrite <- (DecimalPos.Unsigned.to_of (Pos.to_uint p)).
    rewrite DecimalPos.Unsigned.of_to. reflexivity. }
  assert (Hz : nzhead (Pos.to_uint p) <> Nil).
  { intros E. apply (DecimalPos.Unsigned.to_uint_nonzero p).
    rewrite Hn. apply unorm_0. assumption. }
  rewrite (unorm_nzhead _ Hz) in Hn.
  pose proof (nzhead_nonzero (Pos.to_uint p)) as H0.
  rewrite <- Hn in H0, Hz.
  destruct (Pos.to_uint p); simpl; try (eexists _, _; split; [reflexivity|reflexivity]).
  - contradiction.
  - exfalso. eapply H0. reflexivity.
Qed.

Lemma scan_integer_digits (p : positive) (neg : bool) (rest : str) :
  ends_value rest = true ->
  scan_integer ((if neg then [c_minus] else []) ++ uint_str (Pos.to_uint p) ++ rest)
  = Some (neg, Pos.to_uint p, rest).
Proof.
  intros H.
  pose proof (scan_digits_uint_str (Pos.to_uint p) rest H) as Hd.
  destruct (to_uint_head p) as (c & t & E & Hc).
  rewrite E in *. apply andb_true_iff in Hc. destruct Hc as [H1 H2].
  apply N.leb_le in H1, H2.
  assert (Hc : c = 49 \/ c = 50 \/ c = 51 \/ c = 52 \/ c = 53 \/ c = 54
               \/ c = 55 \/ c = 56 \/ c = 57) by lia.
  unfold scan_integer.
  destruct neg; simpl app;
    (replace (c_minus =? c_minus) with true by reflexivity);
    repeat (destruct Hc as [->|Hc]; [simpl in *; rewrite Hd; reflexivity|]);
    subst c; simpl in *; rewrite Hd; reflexivity.
Qed.

Lemma match_number_repr_int (z : Z) (rest : str) :
  ends_value rest = true ->
  match_number (repr_int z ++ rest) = Some (JInt z, rest).
Proof.
  intros H. unfold match_number, repr_int.
  pose proof (DecimalZ.of_to z) as Hz.
  destruct z as [|p|p]; simpl Z.to_int in *.
  - simpl. rewrite (scan_fraction_none _ H), (scan_exponent_none _ H). reflexivity.
  - pose proof (scan_integer_digits p false rest H) as Hs. simpl app in Hs.
    cbv iota. rewrite Hs, (scan_fraction_none _ H), (scan_exponent_none _ H).
    simpl orb. cbv iota. rewrite Hz. reflexivity.
  - pose proof (scan_integer_digits p true rest H) as Hs. simpl app in Hs.
    cbv iota. simpl app. rewrite Hs, (scan_fraction_none _ H), (scan_exponent_none _ H).
    simpl orb. cbv iota. rewrite Hz. reflexivity.
Qed.

(** The first character of [repr_int z] is a digit or the minus sign. *)
Lemma repr_int_head (z : Z) :
  exists c t, repr_int z = c :: t
              /\ ((c =? c_minus) || ((48 <=? c) && (c <=? 57))) = true.
Proof.
  unfold repr_int. destruct z as [|p|p]; simpl Z.to_int.
  - eexists _, _; split; reflexivity.
  - destruct (to_uint_head p) as (c & t & E & Hc). exists c, t. split; [assumption|].
    apply andb_true_iff in Hc. destruct Hc as [H1 H2].
    apply N.leb_le in H1. apply orb_true_iff; right.
    rewrite H2, andb_true_r. apply N.leb_le. lia.
  - eexists _, _; split; reflexivity.
Qed.

(** ** Strings: [ESCAPE_DCT] against [scanstring] *)

Lemma scanstring_escape_char (c : char) (t : str) :
  scanstring (escape_char c ++ t) = prepend c (scanstring t).
Proof.
  unfold escape_char.
  destruct (c =? c_quote) eqn:E1; [apply N.eqb_eq in E1; subst; reflexivity|].
  destruct (c =? c_backslash) eqn:E2; [apply N.eqb_eq in E2; subst; reflexivity|].
  destruct (c =? c_lf) eqn:E3; [apply N.eqb_eq in E3; subst; reflexivity|].
  destruct (c =? c_cr) eqn:E4; [apply N.eqb_eq in E4; subst; reflexivity|].
  destruct (c =? c_tab) eqn:E5; [apply N.eqb_eq in E5; subst; reflexivity|].
  destruct (c =? 8) eqn:E6; [apply N.eqb_eq in E6; subst; reflexivity|].
  destruct (c =? 12) eqn:E7; [apply N.eqb_eq in E7; subst; reflexivity|].
  destruct (c <? 32) eqn:E8.
  - apply N.ltb_lt in E8.
    assert (Hc : c = 0 \/ c = 1 \/ c = 2 \/ c = 3 \/ c = 4 \/ c = 5 \/ c = 6
                 \/ c = 7 \/ c = 8 \/ c = 9 \/ c = 10 \/ c = 11 \/ c = 12
                 \/ c = 13 \/ c = 14 \/ c = 15 \/ c = 16 \/ c = 17 \/ c = 18
                 \/ c = 19 \/ c = 20 \/ c = 21 \/ c = 22 \/ c = 23 \/ c = 24
                 \/ c = 25 \/ c = 26 \/ c = 27 \/ c = 28 \/ c = 29 \/ c = 30
                 \/ c = 31) by lia.
    repeat (destruct Hc as [->|Hc]; [try discriminate; reflexivity|]).
    subst c. reflexivity.
  - simpl. rewrite E1, E2, E8. reflexivity.
Qed.

Lemma scanstring_escaped (s rest : str) :
  scanstring (flat_map escape_char s ++ c_quote :: rest) = Ok (s, rest).
Proof.
  induction s as [|c s IH]; [reflexivity|].
  simpl flat_map. rewrite <- app_assoc, scanstring_escape_char, IH. reflexivity.
Qed.

(** ** White space and the first character of a value *)

Lemma skip_ws_indent (level : nat) (t : str) :
  skip_ws (newline_indent level ++ t) = skip_ws t.
Proof.
  unfold newline_indent. simpl. induction (level + (level + 0))%nat; simpl; auto.
Qed.

Lemma skip_ws_head (c : char) (t : str) :
  is_ws c = false -> skip_ws (c :: t) = c :: t.
Proof. intros H. simpl. rewrite H. reflexivity. Qed.

Lemma iterencode_head (esc : char -> str) (level : nat) (v : json) :
  json_plain v = true ->
  exists c t, iterencode esc level v = c :: t /\ starts_value c = true.
Proof.
  intros Hp. destruct v as [|[|]|z|l|s|[|x l]|[|kv kvs]]; simpl in *;
    try discriminate; try (eexists _, _; split; reflexivity).
  destruct (repr_int_head z) as (c & t & E & Hc). exists c, t. split; [assumption|].
  unfold starts_value. apply orb_true_iff in Hc. destruct Hc as [Hc|Hc]; rewrite Hc;
    rewrite ?orb_true_r; reflexivity.
Qed.

Lemma starts_value_not_ws (c : char) : starts_value c = true -> is_ws c = false.
Proof.
  unfold starts_value, is_ws. rewrite !orb_true_iff, !andb_true_iff, !N.eqb_eq, !N.leb_le.
  unfold c_minus, c_quote, c_lbracket, c_lbrace, c_space, c_tab, c_lf, c_cr.
  intros H. rewrite !orb_false_iff, !N.eqb_neq. lia.
Qed.

(** ** [json.dump] against [json.load] *)

Lemma array_items_eq (fuel : nat) (acc : list json) (s : str) :
  array_items (S fuel) acc s =
  ('(v, r) <- scan_once fuel s ;;
   match skip_ws r with
   | c :: r1 =>
     if c =? c_rbracket then Ok (JArr (acc ++ [v]), r1)
     else if c =? c_comma then array_items fuel (acc ++ [v]) (skip_ws r1)
     else Raise JSONDecodeError
   | [] => Raise JSONDecodeError
   end).
Proof. reflexivity. Qed.

Lemma object_items_eq (fuel : nat) (acc : list (str * json)) (s : str) :
  object_items (S fuel) acc s =
  ('(k, r) <- scanstring s ;;
   match skip_ws r with
   | c :: r1 =>
     if c =? c_colon then
       '(v, r2) <- scan_once fuel (skip_ws r1) ;;
       match skip_ws r2 with
       | c2 :: r3 =>
         if c2 =? c_rbrace then Ok (JObj (dict_set acc k v), r3)
         else if c2 =? c_comma then
           match skip_ws r3 with
           | c3 :: r4 =>
             if c3 =? c_quote then object_items fuel (dict_set acc k v) r4
             else Raise JSONDecodeError
           | [] => Raise JSONDecodeError
           end
         else Raise JSONDecodeError
       | [] => Raise JSONDecodeError
       end
     else Raise JSONDecodeError
   | [] => Raise JSONDecodeError
   end).
Proof. reflexivity. Qed.

Lemma skip_ws_value (level : nat) (v : json) (t : str) :
  json_plain v = true ->
  skip_ws (iterencode escape_char level v ++ t) = iterencode escape_char level v ++ t.
Proof.
  intros Hp. destruct (iterencode_head escape_char level v Hp) as (c & r & E & Hc).
  rewrite E. simpl app. apply skip_ws_head, starts_value_not_ws, Hc.
Qed.

Lemma iterencode_list_next (enc : json -> str) (indent : str) (y : json) (l : list json) :
  iterencode_list enc indent false (y :: l)
  = c_comma :: indent ++ enc y ++ iterencode_list enc indent false l.
Proof. reflexivity. Qed.

Lemma iterencode_dict_next (esc : char -> str) (enc : json -> str) (indent k : str)
      (v : json) (kvs : list (str * json)) :
  iterencode_dict esc enc indent false ((k, v) :: kvs)
  = c_comma :: indent ++ c_quote :: flat_map esc k ++ c_quote :: c_colon :: c_space
      :: enc v ++ iterencode_dict esc enc indent false kvs.
Proof.
  simpl. unfold encode_basestring. simpl. rewrite <- !app_assoc. reflexivity.
Qed.

Ltac flatten_text :=
  repeat (rewrite <- app_comm_cons || rewrite <- app_assoc).

Lemma array_items_scans (level : nat) (l : list json) :
  forall x fuel acc rest,
    Forall scans (x :: l) -> forallb json_plain (x :: l) = true ->
    (items_size (x :: l) <= fuel)%nat ->
    array_items fuel acc
      (iterencode escape_char (S level) x
         ++ iterencode_list (iterencode escape_char (S level))
                            (newline_indent (S level)) false l
         ++ newline_indent level ++ c_rbracket :: rest)
    = Ok (JArr (acc ++ x :: l), rest).
Proof.
  induction l as [|y l IH]; intros x fuel acc rest Hs Hp Hf;
    inversion Hs as [|? ? Hx Hl]; subst;
    simpl forallb in Hp; apply andb_true_iff in Hp; destruct Hp as [Hpx Hpl];
    change (items_size (x :: ?l)) with (S (size x + items_size l)) in Hf;
    (destruct fuel as [|fuel]; [lia|]); rewrite array_items_eq.
  - simpl iterencode_list. rewrite app_nil_l.
    rewrite (Hx (S level) fuel); [|lia|reflexivity].
    cbv beta iota delta [bind]. rewrite skip_ws_indent. reflexivity.
  - rewrite iterencode_list_next. rewrite <- app_comm_cons, <- !app_assoc.
    rewrite (Hx (S level) fuel); [|lia|reflexivity].
    cbv beta iota delta [bind]. rewrite skip_ws_head by reflexivity.
    replace (c_comma =? c_rbracket) with false by reflexivity.
    replace (c_comma =? c_comma) with true by reflexivity. cbv iota.
    rewrite skip_ws_indent.
    simpl forallb in Hpl. pose proof Hpl as Hpl'. apply andb_true_iff in Hpl'.
    rewrite (skip_ws_value (S level) y _ (proj1 Hpl')).
    rewrite (IH y fuel (acc ++ [x]) rest Hl Hpl); [|lia].
    rewrite <- app_assoc. reflexivity.
Qed.

Lemma keys_unique_NoDup (ks : list str) : keys_unique ks = true <-> NoDup ks.
Proof.
  induction ks as [|k ks IH]; simpl.
  - split; [constructor | reflexivity].
  - rewrite andb_true_iff, negb_true_iff, IH. split.
    + intros [Hn Hd]. constructor; [|assumption].
      intros Hin. apply not_true_iff_false in Hn. apply Hn.
      apply existsb_exists. exists k. split; [assumption | apply str_eqb_refl].
    + intros H. inversion H as [|? ? Hn Hd]; subst. split; [|assumption].
      apply not_true_iff_false. intros He. apply existsb_exists in He.
      destruct He as (k' & Hin & He). apply str_eqb_eq in He. subst. contradiction.
Qed.

Lemma dict_set_fresh (V : Type) (d : list (str * V)) (k : str) (v : V) :
  ~ In k (map fst d) -> dict_set d k v = d ++ [(k, v)].
Proof.
  induction d as [|[k' v'] d IH]; simpl; intros Hn; [reflexivity|].
  destruct (str_eqb k' k) eqn:E.
  - apply str_eqb_eq in E. exfalso. apply Hn. left. assumption.
  - rewrite IH; [reflexivity|]. intros Hin. apply Hn. right. assumption.
Qed.

Lemma object_items_scans (level : nat) (kvs : list (str * json)) :
  forall k v fuel acc rest,
    Forall (fun kv => scans (snd kv)) ((k, v) :: kvs) ->
    forallb (fun kv => json_plain (snd kv)) ((k, v) :: kvs) = true ->
    NoDup (map fst (acc ++ (k, v) :: kvs)) ->
    (pairs_size ((k, v) :: kvs) <= fuel)%nat ->
    object_items fuel acc
      (flat_map escape_char k ++ c_quote :: c_colon :: c_space
         :: iterencode escape_char (S level) v
         ++ iterencode_dict escape_char (iterencode escape_char (S level))
                            (newline_indent (S level)) false kvs
         ++ newline_indent level ++ c_rbrace :: rest)
    = Ok (JObj (acc ++ (k, v) :: kvs), rest).
Proof.
  induction kvs as [|[k2 v2] kvs IH]; intros k v fuel acc rest Hs Hp Hd Hf;
    inversion Hs as [|? ? Hv Hl]; subst; simpl snd in Hv;
    simpl forallb in Hp; apply andb_true_iff in Hp; destruct Hp as [Hpv Hpl];
    change (pairs_size ((k, v) :: ?l)) with (S (size v + pairs_size l)) in Hf;
    (destruct fuel as [|fuel]; [lia|]); rewrite object_items_eq;
    rewrite scanstring_escaped; cbv beta iota delta [bind];
    rewrite skip_ws_head by reflexivity;
    replace (c_colon =? c_colon) with true by reflexivity; cbv iota;
    change (skip_ws (c_space :: ?t)) with (skip_ws t);
    rewrite (skip_ws_value (S level) v _ Hpv);
    assert (Hk : dict_set acc k v = acc ++ [(k, v)])
      by (apply dict_set_fresh; rewrite map_app in Hd;
          apply NoDup_remove_2 in Hd; intros Hin; apply Hd, in_or_app; left; exact Hin).
  - simpl iterencode_dict. rewrite app_nil_l.
    rewrite (Hv (S level) fuel); [|lia|reflexivity].
    cbv beta iota. rewrite skip_ws_indent.
    rewrite skip_ws_head by reflexivity.
    replace (c_rbrace =? c_rbrace) with true by reflexivity. cbv iota.
    rewrite Hk. reflexivity.
  - rewrite iterencode_dict_next. flatten_text.
    rewrite (Hv (S level) fuel); [|lia|reflexivity].
    cbv beta iota. rewrite skip_ws_head by reflexivity.
    replace (c_comma =? c_rbrace) with false by reflexivity.
    replace (c_comma =? c_comma) with true by reflexivity. cbv iota.
    rewrite skip_ws_indent. rewrite skip_ws_head by reflexivity.
    replace (c_quote =? c_quote) with true by reflexivity. cbv iota.
    rewrite Hk.
    rewrite (IH k2 v2 fuel (acc ++ [(k, v)]) rest Hl Hpl); [| |lia].
    + rewrite <- app_assoc. reflexivity.
    + rewrite <- app_assoc. exact Hd.
Qed.

Lemma iterencode_arr (esc : char -> str) (level : nat) (x : json) (l : list json)
      (rest : str) :
  iterencode esc level (JArr (x :: l)) ++ rest
  = c_lbracket :: newline_indent (S level) ++ iterencode esc (S level) x
      ++ iterencode_list (iterencode esc (S level)) (newline_indent (S level)) false l
      ++ newline_indent level ++ c_rbracket :: rest.
Proof.
  change (iterencode esc level (JArr (x :: l)))
    with (c_lbracket
            :: (newline_indent (S level) ++ iterencode esc (S level) x
                  ++ iterencode_list (iterencode esc (S level))
                                     (newline_indent (S level)) false l)
            ++ newline_indent level ++ [c_rbracket]).
  rewrite <- app_comm_cons. f_equal. rewrite <- !app_assoc. reflexivity.
Qed.

Lemma iterencode_obj (esc : char -> str) (level : nat) (k : str) (v : json)
      (kvs : list (str * json)) (rest : str) :
  iterencode esc level (JObj ((k, v) :: kvs)) ++ rest
  = c_lbrace :: newline_indent (S level) ++ c_quote :: flat_map esc k
      ++ c_quote :: c_colon :: c_space :: iterencode esc (S level) v
      ++ iterencode_dict esc (iterencode esc (S level)) (newline_indent (S level)) false kvs
      ++ newline_indent level ++ c_rbrace :: rest.
Proof.
  change (iterencode esc level (JObj ((k, v) :: kvs)))
    with (c_lbrace
            :: (newline_indent (S level)
                  ++ (c_quote :: flat_map esc k ++ [c_quote])
                  ++ [c_colon; c_space] ++ iterencode esc (S level) v
                  ++ iterencode_dict esc (iterencode esc (S level))
                                     (newline_indent (S level)) false kvs)
            ++ newline_indent level ++ [c_rbrace]).
  rewrite <- app_comm_cons. f_equal. rewrite <- !app_assoc. f_equal.
  rewrite <- app_comm_cons. f_equal. rewrite <- !app_assoc. reflexivity.
Qed.

Lemma scan_once_number (fuel : nat) (c : char) (t : str) (vr : json * str) :
  ((c =? c_minus) || ((48 <=? c) && (c <=? 57))) = true ->
  match_number (c :: t) = Some vr ->
  scan_once (S fuel) (c :: t) = Ok vr.
Proof.
  rewrite orb_true_iff, andb_true_iff, N.eqb_eq, !N.leb_le. unfold c_minus.
  intros Hc Hm.
  assert (H : c = 45 \/ c = 48 \/ c = 49 \/ c = 50 \/ c = 51 \/ c = 52 \/ c = 53
              \/ c = 54 \/ c = 55 \/ c = 56 \/ c = 57) by lia.
  clear Hc.
  repeat (destruct H as [->|H]; [simpl; rewrite Hm; reflexivity|]).
  subst c. simpl. rewrite Hm. reflexivity.
Qed.

Lemma forallb_Forall_plain {A : Type} (f : A -> json) (P : json -> Prop) (l : list A) :
  Forall (fun a => json_plain (f a) = true -> P (f a)) l ->
  forallb (fun a => json_plain (f a)) l = true ->
  Forall (fun a => P (f a)) l.
Proof.
  induction 1 as [|a l Ha Hl IH]; simpl; intros Hp; constructor;
    apply andb_true_iff in Hp; destruct Hp; auto.
Qed.

Lemma scans_plain (v : json) : json_plain v = true -> scans v.
Proof.
  induction v as [| b | z | l | s | l IH | kvs IH] using json_nested_ind;
    intros Hp level fuel rest Hf He; simpl in Hp; try discriminate;
    (destruct fuel as [|fuel]; [simpl in Hf; lia|]).
  - reflexivity.
  - destruct b; reflexivity.
  - simpl iterencode.
    destruct (repr_int_head z) as (c & t & E & Hc).
    pose proof (match_number_repr_int z rest He) as Hm.
    rewrite E in Hm |- *. simpl app in Hm |- *.
    apply scan_once_number; assumption.
  - simpl iterencode. unfold encode_basestring. flatten_text. simpl app.
    change (scan_once (S fuel) (c_quote :: ?t))
      with ('(x, r) <- scanstring t ;; Ok (JStr x, r)).
    rewrite scanstring_escaped. reflexivity.
  - destruct l as [|x l]; [reflexivity|].
    rewrite iterencode_arr.
    assert (Hs : Forall scans (x :: l))
      by (apply (forallb_Forall_plain (fun a => a) scans); assumption).
    pose proof Hp as Hp'. simpl in Hp'. apply andb_true_iff in Hp'. destruct Hp' as [Hpx _].
    change (scan_once (S fuel) (c_lbracket :: ?t))
      with (match skip_ws t with
            | c1 :: r1 =>
              if c1 =? c_rbracket then Ok (JArr [], r1)
              else array_items fuel [] (c1 :: r1)
            | [] => Raise JSONDecodeError
            end).
    rewrite skip_ws_indent, (skip_ws_value (S level) x _ Hpx).
    pose proof (@array_items_scans level l x fuel [] rest Hs Hp) as Ha.
    destruct (iterencode_head escape_char (S level) x Hpx) as (c & t & E & Hc).
    rewrite E in Ha |- *. rewrite <- app_comm_cons in Ha |- *.
    replace (c =? c_rbracket) with false.
    + apply Ha. simpl in Hf. unfold items_size. simpl. lia.
    + symmetry. apply N.eqb_neq. intros ->. discriminate Hc.
  - destruct kvs as [|[k v] kvs]; [reflexivity|].
    rewrite iterencode_obj.
    apply andb_true_iff in Hp. destruct Hp as [Hu Hp].
    assert (Hs : Forall (fun kv => scans (snd kv)) ((k, v) :: kvs))
      by (apply (forallb_Forall_plain (fun kv => snd kv) scans); assumption).
    change (scan_once (S fuel) (c_lbrace :: ?t))
      with (match skip_ws t with
            | c1 :: r1 =>
              if c1 =? c_rbrace then Ok (JObj [], r1)
              else if c1 =? c_quote then object_items fuel [] r1
              else Raise JSONDecodeError
            | [] => Raise JSONDecodeError
            end).
    rewrite skip_ws_indent, skip_ws_head by reflexivity.
    replace (c_quote =? c_rbrace) with false by reflexivity.
    replace (c_quote =? c_quote) with true by reflexivity. cbv iota.
    apply (@object_items_scans level kvs k v fuel [] rest Hs Hp).
    + apply keys_unique_NoDup. exact Hu.
    + simpl in Hf. unfold pairs_size. simpl. lia.
Qed.

Lemma items_size_le (level : nat) (indent : str) (l : list json) :
  Forall (fun v => forall level, (size v <= length (iterencode escape_char level v))%nat) l ->
  (items_size l
   <= length (iterencode_list (iterencode escape_char level) indent false l))%nat.
Proof.
  induction 1 as [|y l Hy Hl IH]; [apply le_n|].
  rewrite iterencode_list_next.
  change (items_size (y :: l)) with (S (size y + items_size l)).
  repeat (rewrite length_app || rewrite length_cons). specialize (Hy level). lia.
Qed.

Lemma pairs_size_le (level : nat) (indent : str) (kvs : list (str * json)) :
  Forall (fun kv => forall level,
              (size (snd kv) <= length (iterencode escape_char level (snd kv)))%nat) kvs ->
  (pairs_size kvs
   <= length (iterencode_dict escape_char (iterencode escape_char level) indent false kvs))%nat.
Proof.
  induction 1 as [|[k v] kvs Hv Hl IH]; [apply le_n|].
  rewrite iterencode_dict_next.
  change (pairs_size ((k, v) :: kvs)) with (S (size v + pairs_size kvs)).
  repeat (rewrite length_app || rewrite length_cons).
  specialize (Hv level). simpl in Hv. lia.
Qed.

Lemma size_le_length (v : json) :
  json_plain v = true ->
  forall level, (size v <= length (iterencode escape_char level v))%nat.
Proof.
  induction v as [| b | z | l | s | l IH | kvs IH] using json_nested_ind;
    intros Hp level;
    try (destruct (iterencode_head escape_char level _ Hp) as (c & t & E & _);
         rewrite E; simpl; lia).
  - destruct l as [|x l]; [simpl; lia|].
    rewrite <- (app_nil_r (iterencode _ _ _)), iterencode_arr.
    simpl in Hp. apply andb_true_iff in Hp. destruct Hp as [Hpx Hpl].
    inversion IH as [|? ? Hx Hl]; subst.
    assert (Hl' : Forall (fun v => forall level,
                              (size v <= length (iterencode escape_char level v))%nat) l)
      by (apply (forallb_Forall_plain (fun a => a)
                   (fun v => forall level,
                        (size v <= length (iterencode escape_char level v))%nat));
          assumption).
    pose proof (items_size_le (S level) (newline_indent (S level)) l Hl') as Hi.
    specialize (Hx Hpx (S level)).
    change (size (JArr (x :: l))) with (S (S (size x + items_size l))).
    repeat (rewrite length_app || rewrite length_cons). lia.
  - destruct kvs as [|[k v] kvs]; [simpl; lia|].
    rewrite <- (app_nil_r (iterencode _ _ _)), iterencode_obj.
    simpl in Hp. apply andb_true_iff in Hp. destruct Hp as [_ Hp].
    apply andb_true_iff in Hp. destruct Hp as [Hpv Hpl].
    inversion IH as [|? ? Hv Hl]; subst. simpl snd in Hv.
    assert (Hl' : Forall (fun kv => forall level,
                              (size (snd kv)
                               <= length (iterencode escape_char level (snd kv)))%nat) kvs)
      by (apply (forallb_Forall_plain (fun kv => snd kv)
                   (fun v => forall level,
                        (size v <= length (iterencode escape_char level v))%nat));
          assumption).
    pose proof (pairs_size_le (S level) (newline_indent (S level)) kvs Hl') as Hi.
    specialize (Hv Hpv (S level)).
    change (size (JObj ((k, v) :: kvs))) with (S (S (size v + pairs_size kvs))).
    repeat (rewrite length_app || rewrite length_cons). lia.
Qed.

(** What [json.dump] writes, [json.load] reads back. *)
Lemma json_loads_dumps (v : json) :
  json_plain v = true -> json_loads (json_dumps v) = Ok v.
Proof.
  intros Hp. unfold json_loads, decode, json_dumps.
  pose proof (size_le_length v Hp 0) as Hsz.
  pose proof (@scans_plain v Hp) as Hs.
  specialize (Hs 0%nat (S (2 * length (iterencode escape_char 0 v))) []).
  rewrite app_nil_r in Hs. specialize (Hs ltac:(lia) eq_refl).
  pose proof (skip_ws_value 0 v [] Hp) as Hw. rewrite app_nil_r in Hw.
  destruct (iterencode_head escape_char 0 v Hp) as (c & t & E & Hc).
  rewrite E in *.
  replace (c =? 65279) with false
    by (symmetry; apply N.eqb_neq; intros ->; discriminate Hc).
  rewrite Hw, Hs. reflexivity.
Qed.

(** ** The decoder never runs out of fuel *)

Functional Scheme scanstring_ind := Induction for scanstring Sort Prop.

Lemma consumes_prepend (c c' : char) (s t : str) :
  (length t <= length s)%nat ->
  consumes t (scanstring t) -> consumes (c' :: s) (prepend c (scanstring t)).
Proof.
  intros Hl. unfold prepend. destruct (scanstring t) as [[x r]|e]; simpl; [lia|auto].
Qed.

Lemma scanstring_consumes (s : str) : consumes s (scanstring s).
Proof.
  functional induction (scanstring s);
    try reflexivity; try (simpl; lia);
    try (apply consumes_prepend; [simpl; lia | assumption]).
Qed.

Lemma skip_ws_length (s : str) : (length (skip_ws s) <= length s)%nat.
Proof.
  induction s as [|c s IH]; simpl; [lia|]. destruct (is_ws c); simpl; lia.
Qed.

Lemma scan_digits_length (s : str) : (length (snd (scan_digits s)) <= length s)%nat.
Proof.
  induction s as [|c s IH]; simpl; [lia|].
  destruct (digit_of_char c); simpl; [|lia].
  destruct (scan_digits s); simpl in *; lia.
Qed.

Lemma scan_integer_length (s : str) (neg : bool) (d : uint) (r : str) :
  scan_integer s = Some (neg, d, r) -> (length r < length s)%nat.
Proof.
  unfold scan_integer.
  assert (Hd : forall c t, digit_of_char c <> None ->
                           (length (snd (scan_digits (c :: t))) < length (c :: t))%nat).
  { intros c t Hc. simpl. destruct (digit_of_char c); [|congruence].
    pose proof (scan_digits_length t). destruct (scan_digits t); simpl in *; lia. }
  destruct s as [|c t]; [discriminate|].
  destruct (c =? c_minus).
  - destruct t as [|c' t']; [discriminate|].
    destruct (c' =? 48); [intros H; inversion H; subst; simpl; lia|].
    destruct (digit_of_char c') eqn:E; [|discriminate].
    specialize (Hd c' t'). rewrite E in Hd. specialize (Hd ltac:(discriminate)).
    destruct (scan_digits (c' :: t')). intros H; inversion H; subst. simpl in *; lia.
  - destruct (c =? 48); [intros H; inversion H; subst; simpl; lia|].
    destruct (digit_of_char c) eqn:E; [|discriminate].
    specialize (Hd c t). rewrite E in Hd. specialize (Hd ltac:(discriminate)).
    destruct (scan_digits (c :: t)). intros H; inversion H; subst. simpl in *; lia.
Qed.

Lemma scan_fraction_length (s : str) : (length (snd (scan_fraction s)) <= length s)%nat.
Proof.
  unfold scan_fraction. destruct s as [|c t]; simpl; [lia|].
  destruct (c =? 46); simpl; [|lia].
  pose proof (scan_digits_length t). destruct (scan_digits t) as [fd r'].
  destruct (is_nil fd); simpl in *; lia.
Qed.

Lemma scan_exponent_length (s : str) : (length (snd (scan_exponent s)) <= length s)%nat.
Proof.
  unfold scan_exponent. destruct s as [|c t]; simpl; [lia|].
  destruct ((c =? 101) || (c =? 69)); simpl; [|lia].
  set (t' := match t with
             | [] => t
             | c2 :: t2 => if (c2 =? 43) || (c2 =? c_minus) then t2 else t
             end).
  assert (Ht : (length t' <= length t)%nat).
  { subst t'. destruct t as [|c2 t2]; simpl; [lia|].
    destruct ((c2 =? 43) || (c2 =? c_minus)); simpl; lia. }
  pose proof (scan_digits_length t'). destruct (scan_digits t') as [ed r'].
  destruct (is_nil ed); simpl in *; lia.
Qed.

Lemma match_number_length (s : str) (v : json) (r : str) :
  match_number s = Some (v, r) -> (length r < length s)%nat.
Proof.
  unfold match_number. destruct (scan_integer s) as [[[neg d] r0]|] eqn:E; [|discriminate].
  apply scan_integer_length in E.
  pose proof (scan_fraction_length r0) as Hf. destruct (scan_fraction r0) as [frac r1].
  pose proof (scan_exponent_length r1) as He. destruct (scan_exponent r1) as [exp r2].
  simpl in *. destruct (frac || exp); intros H; inversion H; subst; lia.
Qed.

Lemma strip_prefix_length (p s r : str) :
  strip_prefix p s = Some r -> length s = (length p + length r)%nat.
Proof.
  revert s; induction p as [|a p IH]; intros [|b s]; simpl; try discriminate.
  - intros H; inversion H; reflexivity.
  - intros H; inversion H; reflexivity.
  - destruct (a =? b); [|discriminate]. intros H. rewrite (IH _ H). reflexivity.
Qed.

Lemma scan_once_consumes (fuel : nat) :
  (forall s, (2 * length s + 1 <= fuel)%nat -> consumes s (scan_once fuel s))
  /\ (forall acc s, (2 * length s + 2 <= fuel)%nat -> consumes s (array_items fuel acc s))
  /\ (forall acc s, (2 * length s + 2 <= fuel)%nat -> consumes s (object_items fuel acc s)).
Proof.
  induction fuel as [|fuel (IHs & IHa & IHo)];
    [repeat split; intros; lia|].
  split; [|split].
  - intros [|c s'] Hf; [reflexivity|]. simpl length in Hf.
    pose proof (skip_ws_length s') as Hw.
    cbn [scan_once].
    destruct (c =? c_quote).
    { pose proof (scanstring_consumes s') as Hc. unfold bind.
      destruct (scanstring s') as [[x r]|e]; simpl in *; [lia|assumption]. }
    destruct (c =? c_lbrace).
    { destruct (skip_ws s') as [|c1 r1]; [reflexivity|].
      destruct (c1 =? c_rbrace); [simpl in *; lia|].
      destruct (c1 =? c_quote); [|reflexivity].
      specialize (IHo [] r1). simpl in Hw.
      destruct (object_items fuel [] r1) as [[v r]|e]; simpl in *;
        [specialize (IHo ltac:(lia)); lia | apply IHo; lia]. }
    destruct (c =? c_lbracket).
    { destruct (skip_ws s') as [|c1 r1]; [reflexivity|].
      destruct (c1 =? c_rbracket); [simpl in *; lia|].
      specialize (IHa [] (c1 :: r1)). simpl in Hw.
      destruct (array_items fuel [] (c1 :: r1)) as [[v r]|e]; simpl in *;
        [specialize (IHa ltac:(lia)); lia | apply IHa; lia]. }
    repeat match goal with
           | |- context [strip_prefix ?p ?s] =>
             let E := fresh "E" in
             destruct (strip_prefix p s) eqn:E;
               [apply strip_prefix_length in E; simpl in E |- *; lia|]
           | |- context [match_number ?s] =>
             let E := fresh "E" in
             destruct (match_number s) as [[? ?]|] eqn:E;
               [apply match_number_length in E; simpl in E |- *; lia|]
           end.
    reflexivity.
  - intros acc s Hf. rewrite array_items_eq. unfold bind.
    specialize (IHs s ltac:(lia)).
    destruct (scan_once fuel s) as [[v r]|e]; [|exact IHs]. simpl in IHs.
    pose proof (skip_ws_length r) as Hw.
    destruct (skip_ws r) as [|c r1]; [reflexivity|]. simpl in Hw.
    destruct (c =? c_rbracket); [simpl; lia|].
    destruct (c =? c_comma); [|reflexivity].
    pose proof (skip_ws_length r1) as Hw1.
    specialize (IHa (acc ++ [v]) (skip_ws r1) ltac:(lia)).
    destruct (array_items fuel (acc ++ [v]) (skip_ws r1)) as [[v' r']|e];
      simpl in *; [lia|assumption].
  - intros acc s Hf. rewrite object_items_eq. unfold bind.
    pose proof (scanstring_consumes s) as Hk.
    destruct (scanstring s) as [[k r]|e]; [|exact Hk]. simpl in Hk.
    pose proof (skip_ws_length r) as Hw.
    destruct (skip_ws r) as [|c r1]; [reflexivity|]. simpl in Hw.
    destruct (c =? c_colon); [|reflexivity].
    pose proof (skip_ws_length r1) as Hw1.
    specialize (IHs (skip_ws r1) ltac:(lia)).
    destruct (scan_once fuel (skip_ws r1)) as [[v r2]|e]; [|exact IHs]. simpl in IHs.
    pose proof (skip_ws_length r2) as Hw2.
    destruct (skip_ws r2) as [|c2 r3]; [reflexivity|]. simpl in Hw2.
    destruct (c2 =? c_rbrace); [simpl; lia|].
    destruct (c2 =? c_comma); [|reflexivity].
    pose proof (skip_ws_length r3) as Hw3.
    destruct (skip_ws r3) as [|c3 r4]; [reflexivity|]. simpl in Hw3.
    destruct (c3 =? c_quote); [|reflexivity].
    specialize (IHo (dict_set acc k v) r4 ltac:(lia)).
    destruct (object_items fuel (dict_set acc k v) r4) as [[v' r']|e];
      simpl in *; [lia|assumption].
Qed.

(** [json.loads] returns a value or raises [JSONDecodeError], nothing else. *)
Lemma decode_total (s : str) :
  (exists v, decode s = Ok v) \/ decode s = Raise JSONDecodeError.
Proof.
  unfold decode. pose proof (skip_ws_length s) as Hw.
  destruct (scan_once_consumes (S (2 * length s))) as (Hs & _ & _).
  specialize (Hs (skip_ws s) ltac:(lia)). unfold bind.
  destruct (scan_once (S (2 * length s)) (skip_ws s)) as [[v r]|e].
  - destruct (skip_ws r); [left; exists v; reflexivity | right; reflexivity].
  - right. simpl in Hs. rewrite Hs. reflexivity.
Qed.

Lemma json_loads_total (s : str) :
  (exists v, json_loads s = Ok v) \/ json_loads s = Raise JSONDecodeError.
Proof.
  unfold json_loads. destruct s as [|c t]; [apply decode_total|].
  destruct (c =? 65279); [right; reflexivity | apply decode_total].
Qed.

(** ** What the decoder builds *)

Lemma keys_storable_plain (v : json) :
  keys_ok v = true -> storable v = true -> json_plain v = true.
Proof.
  induction v as [| b | z | l | s | l IH | kvs IH] using json_nested_ind;
    simpl; try reflexivity; try (intros; assumption).
  - induction IH as [|x l Hx Hl IHl]; [reflexivity|].
    simpl. rewrite !andb_true_iff. intros [Hk Hks] [Hs Hss].
    split; [apply Hx | apply IHl]; assumption.
  - rewrite !andb_true_iff. intros [Hu Hk] Hs. split; [assumption|]. clear Hu.
    induction IH as [|[k x] l Hx Hl IHl]; [reflexivity|].
    simpl in *. rewrite !andb_true_iff in *.
    destruct Hk as [Hk Hks]. destruct Hs as [[_ Hs] Hss].
    split; [apply Hx | apply IHl]; assumption.
Qed.

Lemma dict_set_keys (V : Type) (d : list (str * V)) (k : str) (v : V) :
  map fst (dict_set d k v)
  = if existsb (str_eqb k) (map fst d) then map fst d else map fst d ++ [k].
Proof.
  induction d as [|[k0 v0] d IH]; simpl; [reflexivity|].
  destruct (str_eqb k0 k) eqn:E.
  - apply str_eqb_eq in E. subst k0. rewrite str_eqb_refl. reflexivity.
  - replace (str_eqb k k0) with false
      by (symmetry; apply str_eqb_neq; apply str_eqb_neq in E; congruence).
    simpl. rewrite IH. destruct (existsb (str_eqb k) (map fst d)); reflexivity.
Qed.

Lemma keys_unique_dict_set (V : Type) (d : list (str * V)) (k : str) (v : V) :
  keys_unique (map fst d) = true -> keys_unique (map fst (dict_set d k v)) = true.
Proof.
  intros Hd. rewrite dict_set_keys.
  destruct (existsb (str_eqb k) (map fst d)) eqn:E; [assumption|].
  apply keys_unique_NoDup. apply keys_unique_NoDup in Hd.
  apply NoDup_app; [assumption | repeat constructor; auto |].
  intros x Hx [->|[]].
  apply not_true_iff_false in E. apply E. apply existsb_exists.
  exists x. split; [assumption | apply str_eqb_refl].
Qed.

Lemma forallb_dict_set (V : Type) (P : str * V -> bool) (d : list (str * V))
      (k : str) (v : V) :
  forallb P d = true -> P (k, v) = true -> forallb P (dict_set d k v) = true.
Proof.
  intros Hd Hv. induction d as [|[k0 v0] d IH]; simpl in *; [rewrite Hv; reflexivity|].
  apply andb_true_iff in Hd. destruct Hd as [H0 Hd].
  destruct (str_eqb k0 k) eqn:E; simpl.
  - apply str_eqb_eq in E. subst k0. rewrite Hv, Hd. reflexivity.
  - rewrite H0, IH; auto.
Qed.

Lemma keys_ok_dict_set (acc : list (str * json)) (k : str) (v : json) :
  keys_ok (JObj acc) = true -> keys_ok v = true ->
  keys_ok (JObj (dict_set acc k v)) = true.
Proof.
  simpl. rewrite !andb_true_iff. intros [Hu Hf] Hv. split.
  - apply keys_unique_dict_set, Hu.
  - apply (forallb_dict_set json (fun kv => keys_ok (snd kv))); assumption.
Qed.

Lemma match_number_keys_ok (s : str) (v : json) (r : str) :
  match_number s = Some (v, r) -> keys_ok v = true.
Proof.
  unfold match_number. destruct (scan_integer s) as [[[neg d] r0]|]; [|discriminate].
  destruct (scan_fraction r0) as [frac r1]. destruct (scan_exponent r1) as [exp r2].
  destruct (frac || exp); intros H; inversion H; reflexivity.
Qed.

Lemma scan_once_keys_ok (fuel : nat) :
  (forall s v r, scan_once fuel s = Ok (v, r) -> keys_ok v = true)
  /\ (forall acc s v r, forallb keys_ok acc = true ->
                        array_items fuel acc s = Ok (v, r) -> keys_ok v = true)
  /\ (forall acc s v r, keys_ok (JObj acc) = true ->
                        object_items fuel acc s = Ok (v, r) -> keys_ok v = true).
Proof.
  induction fuel as [|fuel (IHs & IHa & IHo)];
    [repeat split; intros; discriminate|].
  split; [|split].
  - intros [|c s'] v r; [discriminate|]. cbn [scan_once].
    destruct (c =? c_quote).
    { unfold bind. destruct (scanstring s') as [[x r0]|e]; [|discriminate].
      intros H; inversion H; reflexivity. }
    destruct (c =? c_lbrace).
    { destruct (skip_ws s') as [|c1 r1]; [discriminate|].
      destruct (c1 =? c_rbrace); [intros H; inversion H; reflexivity|].
      destruct (c1 =? c_quote); [|discriminate].
      apply IHo. reflexivity. }
    destruct (c =? c_lbracket).
    { destruct (skip_ws s') as [|c1 r1]; [discriminate|].
      destruct (c1 =? c_rbracket); [intros H; inversion H; reflexivity|].
      apply IHa. reflexivity. }
    repeat match goal with
           | |- context [strip_prefix ?p ?s] =>
             destruct (strip_prefix p s); [intros H; inversion H; reflexivity|]
           | |- context [match_number ?s] =>
             let E := fresh "E" in
             destruct (match_number s) as [[? ?]|] eqn:E;
               [intros H; inversion H; subst; eapply match_number_keys_ok; eassumption|]
           end.
    discriminate.
  - intros acc s v r Hacc. rewrite array_items_eq. unfold bind.
    destruct (scan_once fuel s) as [[x r0]|e] eqn:Ex; [|discriminate].
    apply IHs in Ex.
    assert (Hacc' : forallb keys_ok (acc ++ [x]) = true)
      by (rewrite forallb_app, Hacc; simpl; rewrite Ex; reflexivity).
    destruct (skip_ws r0) as [|c r1]; [discriminate|].
    destruct (c =? c_rbracket); [intros H; inversion H; subst; exact Hacc'|].
    destruct (c =? c_comma); [|discriminate].
    apply IHa, Hacc'.
  - intros acc s v r Hacc. rewrite object_items_eq. unfold bind.
    destruct (scanstring s) as [[k r0]|e]; [|discriminate].
    destruct (skip_ws r0) as [|c r1]; [discriminate|].
    destruct (c =? c_colon); [|discriminate].
    destruct (scan_once fuel (skip_ws r1)) as [[x r2]|e] eqn:Ex; [|discriminate].
    apply IHs in Ex. pose proof (keys_ok_dict_set acc k x Hacc Ex) as Hacc'.
    destruct (skip_ws r2) as [|c2 r3]; [discriminate|].
    destruct (c2 =? c_rbrace); [intros H; inversion H; subst; exact Hacc'|].
    destruct (c2 =? c_comma); [|discriminate].
    destruct (skip_ws r3) as [|c3 r4]; [discriminate|].
    destruct (c3 =? c_quote); [|discriminate].
    apply IHo, Hacc'.
Qed.

(** The keys of every [dict] that [json.loads] builds are distinct. *)
Lemma json_loads_keys_ok (s : str) (v : json) :
  json_loads s = Ok v -> keys_ok v = true.
Proof.
  assert (Hd : decode s = Ok v -> keys_ok v = true).
  { unfold decode, bind.
    destruct (scan_once (S (2 * length s)) (skip_ws s)) as [[x r]|e] eqn:E;
      [|discriminate].
    destruct (skip_ws r); [|discriminate].
    intros H; inversion H; subst.
    destruct (scan_once_keys_ok (S (2 * length s))) as (Hs & _ & _).
    eapply Hs, E. }
  unfold json_loads. destruct s as [|c t]; [exact Hd|].
  destruct (c =? 65279); [discriminate | exact Hd].
Qed.

(** What is loaded from a text is written and read back exactly when it can
    be stored. *)
Lemma json_loads_plain (s : str) (v : json) :
  json_loads s = Ok v -> storable v = true -> json_plain v = true.
Proof.
  intros Hs Hf. apply keys_storable_plain; [|assumption].
  apply (json_loads_keys_ok s v Hs).
Qed.

(** ** The text of a value that can be stored can be encoded *)

Lemma encodable_app (a b : str) :
  encodable (a ++ b) = encodable a && encodable b.
Proof. apply forallb_app. Qed.

Lemma encodable_escape_char (c : char) :
  is_surrogate c = false -> encodable (escape_char c) = true.
Proof.
  intros Hc. destruct (c <? 32) eqn:E.
  - apply N.ltb_lt in E.
    assert (H : c = 0 \/ c = 1 \/ c = 2 \/ c = 3 \/ c = 4 \/ c = 5 \/ c = 6
                \/ c = 7 \/ c = 8 \/ c = 9 \/ c = 10 \/ c = 11 \/ c = 12
                \/ c = 13 \/ c = 14 \/ c = 15 \/ c = 16 \/ c = 17 \/ c = 18
                \/ c = 19 \/ c = 20 \/ c = 21 \/ c = 22 \/ c = 23 \/ c = 24
                \/ c = 25 \/ c = 26 \/ c = 27 \/ c = 28 \/ c = 29 \/ c = 30
                \/ c = 31) by lia.
    repeat (destruct H as [->|H]; [reflexivity|]). subst c. reflexivity.
  - unfold escape_char. rewrite E.
    repeat match goal with
           | |- context [if ?b then _ else _] => destruct b; [reflexivity|]
           end.
    unfold encodable. simpl. rewrite Hc. reflexivity.
Qed.

Lemma encodable_basestring (s : str) :
  encodable s = true -> encodable (encode_basestring escape_char s) = true.
Proof.
  intros Hs. unfold encode_basestring.
  change (c_quote :: flat_map escape_char s ++ [c_quote])
    with ([c_quote] ++ flat_map escape_char s ++ [c_quote]).
  rewrite !encodable_app. simpl. rewrite andb_true_r.
  induction s as [|c s IH]; [reflexivity|].
  simpl in Hs. apply andb_true_iff in Hs. destruct Hs as [Hc Hs].
  simpl flat_map. rewrite encodable_app, (IH Hs), andb_true_r.
  apply encodable_escape_char. apply negb_true_iff. exact Hc.
Qed.

Lemma encodable_uint_str (d : uint) : encodable (uint_str d) = true.
Proof. induction d; simpl; auto. Qed.

Lemma encodable_repr_int (z : Z) : encodable (repr_int z) = true.
Proof.
  unfold repr_int. destruct (Z.to_int z); simpl; apply encodable_uint_str.
Qed.

Lemma encodable_newline_indent (level : nat) :
  encodable (newline_indent level) = true.
Proof.
  unfold newline_indent. simpl. induction (level + (level + 0))%nat; simpl; auto.
Qed.

Lemma encodable_iterencode_list (enc : json -> str) (indent : str) (l : list json) :
  encodable indent = true ->
  Forall (fun x => encodable (enc x) = true) l ->
  forall first, encodable (iterencode_list enc indent first l) = true.
Proof.
  intros Hi. induction 1 as [|x l Hx Hl IH]; intros first; [reflexivity|].
  simpl. rewrite !encodable_app, Hi, Hx, IH. destruct first; reflexivity.
Qed.

Lemma encodable_iterencode_dict (enc : json -> str) (indent : str)
      (kvs : list (str * json)) :
  encodable indent = true ->
  Forall (fun kv => encodable (fst kv) = true /\ encodable (enc (snd kv)) = true) kvs ->
  forall first,
    encodable (iterencode_dict escape_char enc indent first kvs) = true.
Proof.
  intros Hi. induction 1 as [|[k x] kvs [Hk Hx] Hl IH]; intros first; [reflexivity|].
  simpl in Hk, Hx. cbn [iterencode_dict].
  rewrite !encodable_app, Hi, (encodable_basestring k Hk), Hx, IH.
  destruct first; reflexivity.
Qed.

Lemma encodable_iterencode (v : json) :
  storable v = true ->
  forall level, encodable (iterencode escape_char level v) = true.
Proof.
  induction v as [| b | z | l | s | l IH | kvs IH] using json_nested_ind;
    intros Hs level; simpl in Hs; try discriminate.
  - reflexivity.
  - destruct b; reflexivity.
  - apply encodable_repr_int.
  - apply encodable_basestring, Hs.
  - destruct l as [|x l]; [reflexivity|].
    change (iterencode escape_char level (JArr (x :: l)))
      with ([c_lbracket]
              ++ iterencode_list (iterencode escape_char (S level))
                                 (newline_indent (S level)) true (x :: l)
              ++ newline_indent level ++ [c_rbracket]).
    rewrite !encodable_app, encodable_newline_indent.
    rewrite encodable_iterencode_list; [reflexivity | apply encodable_newline_indent |].
    rewrite forallb_forall in Hs. rewrite Forall_forall in *.
    intros y Hy. apply IH; [assumption | apply Hs, Hy].
  - destruct kvs as [|kv kvs]; [reflexivity|].
    change (iterencode escape_char level (JObj (kv :: kvs)))
      with ([c_lbrace]
              ++ iterencode_dict escape_char (iterencode escape_char (S level))
                                 (newline_indent (S level)) true (kv :: kvs)
              ++ newline_indent level ++ [c_rbrace]).
    rewrite !encodable_app, encodable_newline_indent.
    rewrite encodable_iterencode_dict; [reflexivity | apply encodable_newline_indent |].
    rewrite forallb_forall in Hs. rewrite Forall_forall in *.
    intros y Hy. specialize (Hs y Hy). apply andb_true_iff in Hs.
    destruct Hs as [Hk Hv]. split; [assumption | apply IH; assumption].
Qed.

Lemma encodable_json_dumps (v : json) :
  storable v = true -> encodable (json_dumps v) = true.
Proof. intros Hs. apply encodable_iterencode, Hs. Qed.

(** ** The decoder against the grammar *)

Lemma skip_ws_es_ws (w t : str) : es_ws w = true -> skip_ws (w ++ t) = skip_ws t.
Proof.
  induction w as [|a w IH]; simpl; [reflexivity|].
  intros H. apply andb_true_iff in H. destruct H as [Ha Hw]. rewrite Ha. apply IH, Hw.
Qed.

Lemma ends_value_es_ws (w : str) (c : char) (rest : str) :
  es_ws w = true -> ends_value (c :: rest) = true ->
  ends_value (w ++ c :: rest) = true.
Proof.
  destruct w as [|a w]; [intros _ H; exact H|].
  simpl. intros H _. apply andb_true_iff in H. destruct H as [-> _]. reflexivity.
Qed.

Lemma skip_ws_cabeza (s : str) : cabeza_de_valor s = true -> skip_ws s = s.
Proof.
  destruct s as [|c s]; [discriminate|]. simpl.
  rewrite !andb_true_iff, !negb_true_iff. intros [[-> _] _]. reflexivity.
Qed.

Lemma es_digito_some (c : char) :
  es_digito c = true -> exists D, digit_of_char c = Some D.
Proof.
  unfold es_digito, digit_of_char. rewrite andb_true_iff, !N.leb_le. intros [H1 H2].
  repeat match goal with
         | |- context [if ?c =? ?k then _ else _] =>
           destruct (c =? k) eqn:?; [eexists; reflexivity|]
         end.
  repeat match goal with H : (_ =? _) = false |- _ => apply N.eqb_neq in H end.
  lia.
Qed.

Lemma es_digito_none (c : char) : es_digito c = false -> digit_of_char c = None.
Proof.
  unfold digit_of_char. intros H.
  repeat match goal with
         | |- context [if ?c =? ?k then _ else _] =>
           destruct (c =? k) eqn:E; [apply N.eqb_eq in E; subst; discriminate H|]; clear E
         end.
  reflexivity.
Qed.

Lemma scan_digits_para (s : str) : sin_digito s = true -> scan_digits s = (Nil, s).
Proof.
  destruct s as [|c s]; [reflexivity|]. simpl. intros H.
  apply negb_true_iff in H. rewrite (es_digito_none c H). reflexivity.
Qed.

Lemma scan_digits_numeral (ds rest : str) :
  forallb es_digito ds = true -> sin_digito rest = true ->
  scan_digits (ds ++ rest) = (numeral ds, rest).
Proof.
  intros Hd Hr. induction ds as [|c ds IH]; [apply scan_digits_para, Hr|].
  simpl in Hd. apply andb_true_iff in Hd. destruct Hd as [Hc Hd].
  destruct (es_digito_some c Hc) as [D HD].
  simpl. rewrite HD, (IH Hd). reflexivity.
Qed.

Lemma numeral_no_nil (ds : str) :
  no_vacio ds = true -> forallb es_digito ds = true -> is_nil (numeral ds) = false.
Proof.
  destruct ds as [|c ds]; [discriminate|]. intros _ H. simpl in H.
  apply andb_true_iff in H. destruct H as [Hc _].
  destruct (es_digito_some c Hc) as [D HD]. simpl. rewrite HD.
  unfold digit_of_char in HD.
  repeat match type of HD with
         | (if ?b then _ else _) = _ => destruct b; [inversion HD; reflexivity|]
         end.
  discriminate HD.
Qed.

Lemma ends_value_sin (rest : str) :
  ends_value rest = true -> sin_digito rest = true /\ sin_punto rest = true.
Proof. intros H. ends_cases H; split; reflexivity. Qed.

Lemma es_int_partes (i : str) :
  es_int i = true ->
  exists c t, i = c :: t /\ es_digito c = true /\ forallb es_digito t = true
              /\ ((c =? 48) = true -> t = []).
Proof.
  destruct i as [|c [|c' t]]; [discriminate| |].
  - intros H. exists c, []. repeat split; assumption.
  - intros H. change ((es_digito c && negb (c =? 48)
                       && forallb es_digito (c' :: t)) = true) in H.
    rewrite !andb_true_iff, negb_true_iff in H. destruct H as [[Hc H0] Ht].
    exists c, (c' :: t). repeat split; try assumption. rewrite H0. discriminate.
Qed.

Lemma es_digito_no_minus (c : char) : es_digito c = true -> (c =? c_minus) = false.
Proof.
  unfold es_digito, c_minus. rewrite andb_true_iff, !N.leb_le, N.eqb_neq. lia.
Qed.

Lemma scan_integer_es_int (neg : bool) (i rest : str) :
  es_int i = true -> sin_digito rest = true ->
  scan_integer (signo neg ++ i ++ rest) = Some (neg, numeral i, rest).
Proof.
  intros Hi Hr. destruct (es_int_partes i Hi) as (c & t & -> & Hc & Ht & H0).
  assert (E : scan_integer (signo neg ++ (c :: t) ++ rest)
              = if c =? 48 then Some (neg, D0 Nil, t ++ rest)
                else match digit_of_char c with
                     | Some _ => let (d, r) := scan_digits (c :: t ++ rest) in
                                 Some (neg, d, r)
                     | None => None
                     end).
  { unfold scan_integer, signo. destruct neg; simpl app.
    - replace (c_minus =? c_minus) with true by reflexivity. reflexivity.
    - cbv iota. rewrite (es_digito_no_minus c Hc). reflexivity. }
  rewrite E. clear E.
  destruct (c =? 48) eqn:E0.
  - rewrite (H0 eq_refl). apply N.eqb_eq in E0. subst c. reflexivity.
  - destruct (es_digito_some c Hc) as [D HD]. rewrite HD.
    change (c :: t ++ rest) with ((c :: t) ++ rest).
    rewrite (scan_digits_numeral (c :: t) rest); [reflexivity| |exact Hr].
    simpl. rewrite Hc, Ht. reflexivity.
Qed.

Lemma scan_fraction_es_frac (f r : str) :
  es_frac f = true -> sin_digito r = true -> sin_punto r = true ->
  scan_fraction (f ++ r) = (no_vacio f, r).
Proof.
  intros Hf Hd Hp. destruct f as [|c ds].
  - destruct r as [|c r]; [reflexivity|]. simpl in *.
    apply negb_true_iff in Hp. rewrite Hp. reflexivity.
  - simpl in Hf. rewrite !andb_true_iff in Hf. destruct Hf as [[Hc Hn] Hds].
    simpl. rewrite Hc, (scan_digits_numeral ds r Hds Hd), (numeral_no_nil ds Hn Hds).
    reflexivity.
Qed.

Lemma scan_exponent_es_exp (e rest : str) :
  es_exp e = true -> ends_value rest = true ->
  scan_exponent (e ++ rest) = (no_vacio e, rest).
Proof.
  intros He Hr. destruct e as [|c t]; [apply scan_exponent_none, Hr|].
  destruct (ends_value_sin rest Hr) as [Hd _].
  simpl in He. apply andb_true_iff in He. destruct He as [Hc Ht].
  destruct t as [|c2 ds]; [discriminate|].
  simpl app. unfold scan_exponent. rewrite Hc.
  destruct ((c2 =? 43) || (c2 =? c_minus)) eqn:E.
  - apply andb_true_iff in Ht. destruct Ht as [Hn Hds].
    rewrite (scan_digits_numeral ds rest Hds Hd), (numeral_no_nil ds Hn Hds).
    reflexivity.
  - change (c2 :: ds ++ rest) with ((c2 :: ds) ++ rest).
    rewrite (scan_digits_numeral (c2 :: ds) rest Ht Hd),
            (numeral_no_nil (c2 :: ds) eq_refl Ht).
    reflexivity.
Qed.

Lemma sin_exp (e rest : str) :
  es_exp e = true -> ends_value rest = true ->
  sin_digito (e ++ rest) = true /\ sin_punto (e ++ rest) = true.
Proof.
  intros He Hr. destruct e as [|c t]; [apply ends_value_sin, Hr|].
  simpl in He. apply andb_true_iff in He. destruct He as [Hc _].
  apply orb_true_iff in Hc. destruct Hc as [Hc|Hc]; apply N.eqb_eq in Hc; subst c;
    split; reflexivity.
Qed.

Lemma sin_frac (f r : str) :
  es_frac f = true -> sin_digito r = true -> sin_digito (f ++ r) = true.
Proof.
  intros Hf Hr. destruct f as [|c ds]; [exact Hr|].
  simpl in Hf. rewrite !andb_true_iff in Hf. destruct Hf as [[Hc _] _].
  apply N.eqb_eq in Hc. subst c. reflexivity.
Qed.

Lemma match_number_partes (s r0 r1 r2 : str) (neg frac exp : bool) (d : uint) :
  scan_integer s = Some (neg, d, r0) ->
  scan_fraction r0 = (frac, r1) ->
  scan_exponent r1 = (exp, r2) ->
  match_number s
  = Some (if frac || exp then JFloat (firstn (length s - length r2) s)
          else JInt (Z.of_int (if neg then Neg d else Pos d)), r2).
Proof.
  intros Hi Hf He. unfold match_number. rewrite Hi, Hf, He.
  destruct (frac || exp); reflexivity.
Qed.

Lemma firstn_texto (s rest : str) :
  firstn (length (s ++ rest) - length rest) (s ++ rest) = s.
Proof.
  rewrite length_app, Nat.add_sub, firstn_app, Nat.sub_diag, firstn_all.
  simpl. apply app_nil_r.
Qed.

Lemma match_number_numero (s : str) (v : json) (rest : str) :
  numero s v -> ends_value rest = true -> match_number (s ++ rest) = Some (v, rest).
Proof.
  intros [neg i Hi|neg i f e Hi Hf He Hne] Hr;
    destruct (ends_value_sin rest Hr) as [Hd Hp].
  - rewrite (match_number_partes ((signo neg ++ i) ++ rest) rest rest rest
               neg false false (numeral i)).
    + reflexivity.
    + rewrite <- app_assoc. apply scan_integer_es_int; assumption.
    + apply scan_fraction_none, Hr.
    + apply scan_exponent_none, Hr.
  - destruct (sin_exp e rest He Hr) as [Hd' Hp'].
    rewrite (match_number_partes ((signo neg ++ i ++ f ++ e) ++ rest)
               (f ++ e ++ rest) (e ++ rest) rest neg (no_vacio f) (no_vacio e)
               (numeral i)).
    + rewrite firstn_texto.
      destruct f; [destruct e; [exfalso; apply Hne; reflexivity|]|]; reflexivity.
    + rewrite <- !app_assoc. apply scan_integer_es_int; [exact Hi|].
      apply sin_frac; assumption.
    + apply scan_fraction_es_frac; assumption.
    + apply scan_exponent_es_exp; assumption.
Qed.

Lemma numero_cabeza (s : str) (v : json) :
  numero s v ->
  exists c t, s = c :: t /\ ((c =? c_minus) || ((48 <=? c) && (c <=? 57))) = true.
Proof.
  intros [neg i Hi|neg i f e Hi _ _ _];
    destruct (es_int_partes i Hi) as (c & t & -> & Hc & _);
    (destruct neg; [eexists _, _; split; reflexivity|]);
    eexists _, _; (split; [reflexivity|]); unfold es_digito in Hc; rewrite Hc;
    apply orb_true_r.
Qed.

(** *** Strings *)

Lemma scanstring_u (h1 h2 h3 h4 : char) (s6 : str) :
  scanstring (c_backslash :: 117 :: h1 :: h2 :: h3 :: h4 :: s6)
  = match hex4 h1 h2 h3 h4 with
    | None => Raise JSONDecodeError
    | Some uni =>
      if is_high_surrogate uni then
        match s6 with
        | b :: u :: g1 :: g2 :: g3 :: g4 :: s12 =>
          if (b =? c_backslash) && (u =? 117) then
            match hex4 g1 g2 g3 g4 with
            | None => Raise JSONDecodeError
            | Some uni2 =>
              if is_low_surrogate uni2
              then prepend (join_surrogates uni uni2) (scanstring s12)
              else prepend uni (scanstring s6)
            end
          else prepend uni (scanstring s6)
        | _ => prepend uni (scanstring s6)
        end
      else prepend uni (scanstring s6)
    end.
Proof. reflexivity. Qed.

(** After the escape of a high surrogate the decoder looks for the escape of
    a low one. *)
Lemma scanstring_alto (h1 h2 h3 h4 : char) (uni : N) (s6 : str) :
  hex4 h1 h2 h3 h4 = Some uni ->
  is_high_surrogate uni && sigue_bajo s6 = false ->
  (forall g1 g2 g3 g4 s12,
      s6 = c_backslash :: 117 :: g1 :: g2 :: g3 :: g4 :: s12 ->
      hex4 g1 g2 g3 g4 <> None) ->
  scanstring (c_backslash :: 117 :: h1 :: h2 :: h3 :: h4 :: s6)
  = prepend uni (scanstring s6).
Proof.
  intros Hh Hs Hg. rewrite scanstring_u, Hh.
  destruct (is_high_surrogate uni); [|reflexivity]. simpl in Hs.
  destruct s6 as [|b [|u [|g1 [|g2 [|g3 [|g4 s12]]]]]]; try reflexivity.
  unfold sigue_bajo in Hs.
  destruct ((b =? c_backslash) && (u =? 117)) eqn:E; [|reflexivity].
  apply andb_true_iff in E. destruct E as [Eb Eu].
  apply N.eqb_eq in Eb, Eu. subst b u.
  specialize (Hg g1 g2 g3 g4 s12 eq_refl).
  destruct (hex4 g1 g2 g3 g4) as [uni2|]; [|contradiction].
  simpl in Hs. rewrite Hs. reflexivity.
Qed.

Lemma unescape_no_u (e c : char) : unescape e = Some c -> (e =? 117) = false.
Proof.
  intros H. destruct (e =? 117) eqn:E; [|reflexivity].
  apply N.eqb_eq in E. subst e. discriminate H.
Qed.

Lemma sigue_bajo_primero (c : char) (t : str) :
  (c =? c_backslash) = false -> sigue_bajo (c :: t) = false.
Proof.
  intros H. destruct t as [|? [|? [|? [|? [|? ?]]]]]; try reflexivity.
  simpl. rewrite H. reflexivity.
Qed.

Lemma sigue_bajo_segundo (b e : char) (t : str) :
  (e =? 117) = false -> sigue_bajo (b :: e :: t) = false.
Proof.
  intros H. destruct t as [|? [|? [|? [|? ?]]]]; try reflexivity.
  simpl. rewrite H, andb_false_r. reflexivity.
Qed.

(** What follows a string of the grammar is the closing quote: the escape of
    a low surrogate is looked for within the string only. *)
Lemma cadena_sigue (s x : str) (t : str) :
  cadena s x ->
  sigue_bajo (s ++ c_quote :: t) = sigue_bajo s
  /\ forall g1 g2 g3 g4 s12,
      s ++ c_quote :: t = c_backslash :: 117 :: g1 :: g2 :: g3 :: g4 :: s12 ->
      hex4 g1 g2 g3 g4 <> None.
Proof.
  intros [|c s' x' Hc Hq Hb _|e c s' x' He _|h1 h2 h3 h4 u s' x' Hh _ _
          |h1 h2 h3 h4 k1 k2 k3 k4 hi lo s' x' Hh _ _ _ _].
  - split; [apply sigue_bajo_primero; reflexivity|]. intros. discriminate.
  - apply N.eqb_neq in Hb. split.
    + simpl app. rewrite !sigue_bajo_primero by exact Hb. reflexivity.
    + intros g1 g2 g3 g4 s12 E. inversion E. subst c. discriminate Hb.
  - pose proof (unescape_no_u e c He) as Hu. split.
    + simpl app. rewrite !sigue_bajo_segundo by exact Hu. reflexivity.
    + intros g1 g2 g3 g4 s12 E. inversion E. subst e. discriminate Hu.
  - split; [reflexivity|]. intros g1 g2 g3 g4 s12 E. inversion E. congruence.
  - split; [reflexivity|]. intros g1 g2 g3 g4 s12 E. inversion E. congruence.
Qed.

Lemma cadena_scan (s x : str) :
  cadena s x -> forall rest, scanstring (s ++ c_quote :: rest) = Ok (x, rest).
Proof.
  induction 1 as [|c s x Hc Hq Hb Hs IH|e c s x He Hs IH
                  |h1 h2 h3 h4 u s x Hh Hu Hs IH
                  |h1 h2 h3 h4 g1 g2 g3 g4 hi lo s x Hh Hhi Hg Hlo Hs IH];
    intros rest.
  - reflexivity.
  - apply N.eqb_neq in Hq, Hb. apply N.leb_le in Hc.
    assert (H32 : (c <? 32) = false) by (apply N.ltb_ge; exact Hc).
    simpl. rewrite Hq, Hb, H32, IH. reflexivity.
  - pose proof (unescape_no_u e c He) as Hu.
    simpl. rewrite Hu, He, IH. reflexivity.
  - destruct (cadena_sigue s x rest Hs) as [Ha Hb].
    change ((c_backslash :: 117 :: h1 :: h2 :: h3 :: h4 :: s) ++ c_quote :: rest)
      with (c_backslash :: 117 :: h1 :: h2 :: h3 :: h4 :: s ++ c_quote :: rest).
    rewrite (scanstring_alto h1 h2 h3 h4 u _ Hh), IH;
      [reflexivity | rewrite Ha; exact Hu | exact Hb].
  - change ((c_backslash :: 117 :: h1 :: h2 :: h3 :: h4
               :: c_backslash :: 117 :: g1 :: g2 :: g3 :: g4 :: s) ++ c_quote :: rest)
      with (c_backslash :: 117 :: h1 :: h2 :: h3 :: h4
              :: c_backslash :: 117 :: g1 :: g2 :: g3 :: g4 :: s ++ c_quote :: rest).
    rewrite scanstring_u, Hh, Hhi. cbv iota.
    change ((c_backslash =? c_backslash) && (117 =? 117)) with true. cbv iota.
    rewrite Hg, Hlo, IH. reflexivity.
Qed.

(** *** Values *)

Lemma scan_once_cadena (fuel : nat) (t : str) :
  scan_once (S fuel) (c_quote :: t) = '(x, r) <- scanstring t ;; Ok (JStr x, r).
Proof. reflexivity. Qed.

Lemma scan_once_lista (fuel : nat) (t : str) :
  scan_once (S fuel) (c_lbracket :: t)
  = match skip_ws t with
    | c1 :: r1 =>
      if c1 =? c_rbracket then Ok (JArr [], r1)
      else array_items fuel [] (c1 :: r1)
    | [] => Raise JSONDecodeError
    end.
Proof. reflexivity. Qed.

Lemma scan_once_objeto (fuel : nat) (t : str) :
  scan_once (S fuel) (c_lbrace :: t)
  = match skip_ws t with
    | c1 :: r1 =>
      if c1 =? c_rbrace then Ok (JObj [], r1)
      else if c1 =? c_quote then object_items fuel [] r1
      else Raise JSONDecodeError
    | [] => Raise JSONDecodeError
    end.
Proof. reflexivity. Qed.

Lemma cabeza_de_valor_app (s t : str) :
  cabeza_de_valor s = true -> cabeza_de_valor (s ++ t) = true.
Proof. destruct s; [discriminate | intros H; exact H]. Qed.

Lemma gramatica_cabeza (ext : bool) (t : str) (v : json) :
  gramatica ext t v -> cabeza_de_valor t = true.
Proof.
  intros [| | |s v' Hn|s x _|w _|s l _|w _|s kvs _|_|_|_]; try reflexivity.
  destruct (numero_cabeza s v' Hn) as (c & r & -> & Hc).
  unfold cabeza_de_valor, is_ws.
  rewrite orb_true_iff, andb_true_iff, N.eqb_eq, !N.leb_le in Hc.
  rewrite !andb_true_iff, !negb_true_iff, !orb_false_iff, !N.eqb_neq.
  unfold c_minus, c_space, c_tab, c_lf, c_cr, c_rbracket in *. lia.
Qed.

Lemma skip_ws_valor (ext : bool) (w t : str) (v : json) (r : str) :
  es_ws w = true -> gramatica ext t v -> skip_ws (w ++ t ++ r) = t ++ r.
Proof.
  intros Hw Hg. rewrite (skip_ws_es_ws w _ Hw).
  apply skip_ws_cabeza, cabeza_de_valor_app, (gramatica_cabeza ext t v Hg).
Qed.

Lemma skip_ws_signo (w : str) (c : char) (r : str) :
  es_ws w = true -> is_ws c = false -> skip_ws (w ++ c :: r) = c :: r.
Proof. intros Hw Hc. rewrite (skip_ws_es_ws w _ Hw). apply skip_ws_head, Hc. Qed.

Lemma scan_gramatica (ext : bool) :
  (forall t v, gramatica ext t v ->
     forall fuel rest,
       (length t <= fuel)%nat -> ends_value rest = true ->
       scan_once fuel (t ++ rest) = Ok (v, rest))
  /\ (forall s l, elementos ext s l ->
        forall fuel acc rest,
          (length s < fuel)%nat ->
          cabeza_de_valor (skip_ws (s ++ c_rbracket :: rest)) = true
          /\ array_items fuel acc (skip_ws (s ++ c_rbracket :: rest))
             = Ok (JArr (acc ++ l), rest))
  /\ (forall s kvs, miembros ext s kvs ->
        forall fuel acc rest,
          (length s < fuel)%nat ->
          exists r,
            skip_ws (s ++ c_rbrace :: rest) = c_quote :: r
            /\ object_items fuel acc r = Ok (JObj (dict_desde acc kvs), rest)).
Proof.
  apply (gramatica_elementos_miembros ext
           (fun t v => forall fuel rest,
                (length t <= fuel)%nat -> ends_value rest = true ->
                scan_once fuel (t ++ rest) = Ok (v, rest))
           (fun s l => forall fuel acc rest,
                (length s < fuel)%nat ->
                cabeza_de_valor (skip_ws (s ++ c_rbracket :: rest)) = true
                /\ array_items fuel acc (skip_ws (s ++ c_rbracket :: rest))
                   = Ok (JArr (acc ++ l), rest))
           (fun s kvs => forall fuel acc rest,
                (length s < fuel)%nat ->
                exists r,
                  skip_ws (s ++ c_rbrace :: rest) = c_quote :: r
                  /\ object_items fuel acc r = Ok (JObj (dict_desde acc kvs), rest))).
  - intros [|fuel] rest Hf _; [simpl in Hf; lia | reflexivity].
  - intros [|fuel] rest Hf _; [simpl in Hf; lia | reflexivity].
  - intros [|fuel] rest Hf _; [simpl in Hf; lia | reflexivity].
  - intros s v Hn fuel rest Hf Hr.
    destruct (numero_cabeza s v Hn) as (c & t & E & Hc).
    pose proof (match_number_numero s v rest Hn Hr) as Hm.
    rewrite E in Hf, Hm |- *. destruct fuel as [|fuel]; [simpl in Hf; lia|].
    apply scan_once_number; assumption.
  - intros s x Hs [|fuel] rest Hf _; [simpl in Hf; lia|].
    flatten_text. simpl app.
    rewrite scan_once_cadena, (cadena_scan s x Hs). reflexivity.
  - intros w Hw [|fuel] rest Hf _; [simpl in Hf; lia|].
    flatten_text. simpl app.
    rewrite scan_once_lista, (skip_ws_signo w c_rbracket _ Hw eq_refl). reflexivity.
  - intros s l _ IH [|fuel] rest Hf _; [simpl in Hf; lia|].
    flatten_text. simpl app. rewrite scan_once_lista.
    simpl in Hf. rewrite length_app in Hf. simpl in Hf.
    destruct (IH fuel [] rest ltac:(lia)) as [Hc Ha].
    destruct (skip_ws (s ++ c_rbracket :: rest)) as [|c1 r1]; [discriminate Hc|].
    simpl in Hc. rewrite !andb_true_iff, !negb_true_iff in Hc.
    destruct Hc as [[_ Hc] _]. rewrite Hc. exact Ha.
  - intros w Hw [|fuel] rest Hf _; [simpl in Hf; lia|].
    flatten_text. simpl app.
    rewrite scan_once_objeto, (skip_ws_signo w c_rbrace _ Hw eq_refl). reflexivity.
  - intros s kvs _ IH [|fuel] rest Hf _; [simpl in Hf; lia|].
    flatten_text. simpl app. rewrite scan_once_objeto.
    simpl in Hf. rewrite length_app in Hf. simpl in Hf.
    destruct (IH fuel [] rest ltac:(lia)) as (r & -> & Ho).
    exact Ho.
  - intros _ [|fuel] rest Hf _; [simpl in Hf; lia | reflexivity].
  - intros _ [|fuel] rest Hf _; [simpl in Hf; lia | reflexivity].
  - intros _ [|fuel] rest Hf _; [simpl in Hf; lia | reflexivity].
  - intros w1 s v w2 Hw1 Hg IH Hw2 [|fuel] acc rest Hf; [lia|].
    rewrite !length_app in Hf.
    rewrite <- !app_assoc, (skip_ws_valor ext w1 s v _ Hw1 Hg).
    split; [apply cabeza_de_valor_app, (gramatica_cabeza ext s v Hg)|].
    rewrite array_items_eq, (IH fuel (w2 ++ c_rbracket :: rest));
      [|lia|apply ends_value_es_ws; [exact Hw2 | reflexivity]].
    cbv beta iota delta [bind].
    rewrite (skip_ws_signo w2 c_rbracket _ Hw2 eq_refl). reflexivity.
  - intros w1 s v w2 resto l Hw1 Hg IH Hw2 _ IHl [|fuel] acc rest Hf; [lia|].
    repeat (rewrite length_app in Hf || rewrite length_cons in Hf).
    flatten_text. rewrite (skip_ws_valor ext w1 s v _ Hw1 Hg).
    split; [apply cabeza_de_valor_app, (gramatica_cabeza ext s v Hg)|].
    rewrite array_items_eq,
      (IH fuel (w2 ++ c_comma :: resto ++ c_rbracket :: rest));
      [|lia|apply ends_value_es_ws; [exact Hw2 | reflexivity]].
    cbv beta iota delta [bind].
    rewrite (skip_ws_signo w2 c_comma _ Hw2 eq_refl).
    replace (c_comma =? c_rbracket) with false by reflexivity.
    replace (c_comma =? c_comma) with true by reflexivity. cbv iota.
    destruct (IHl fuel (acc ++ [v]) rest ltac:(lia)) as [_ Ha].
    rewrite Ha, <- app_assoc. reflexivity.
  - intros w1 k x w2 w3 s v w4 Hw1 Hk Hw2 Hw3 Hg IH Hw4 [|fuel] acc rest Hf; [lia|].
    repeat (rewrite length_app in Hf || rewrite length_cons in Hf).
    flatten_text. rewrite (skip_ws_signo w1 c_quote _ Hw1 eq_refl).
    eexists. split; [reflexivity|].
    rewrite object_items_eq, (cadena_scan k x Hk). cbv beta iota delta [bind].
    rewrite (skip_ws_signo w2 c_colon _ Hw2 eq_refl).
    replace (c_colon =? c_colon) with true by reflexivity. cbv iota.
    rewrite (skip_ws_valor ext w3 s v _ Hw3 Hg),
      (IH fuel (w4 ++ c_rbrace :: rest));
      [|lia|apply ends_value_es_ws; [exact Hw4 | reflexivity]].
    cbv beta iota. rewrite (skip_ws_signo w4 c_rbrace _ Hw4 eq_refl). reflexivity.
  - intros w1 k x w2 w3 s v w4 resto kvs Hw1 Hk Hw2 Hw3 Hg IH Hw4 _ IHm
           [|fuel] acc rest Hf; [lia|].
    repeat (rewrite length_app in Hf || rewrite length_cons in Hf).
    flatten_text. rewrite (skip_ws_signo w1 c_quote _ Hw1 eq_refl).
    eexists. split; [reflexivity|].
    rewrite object_items_eq, (cadena_scan k x Hk). cbv beta iota delta [bind].
    rewrite (skip_ws_signo w2 c_colon _ Hw2 eq_refl).
    replace (c_colon =? c_colon) with true by reflexivity. cbv iota.
    rewrite (skip_ws_valor ext w3 s v _ Hw3 Hg),
      (IH fuel (w4 ++ c_comma :: resto ++ c_rbrace :: rest));
      [|lia|apply ends_value_es_ws; [exact Hw4 | reflexivity]].
    cbv beta iota. rewrite (skip_ws_signo w4 c_comma _ Hw4 eq_refl).
    replace (c_comma =? c_rbrace) with false by reflexivity.
    replace (c_comma =? c_comma) with true by reflexivity. cbv iota.
    destruct (IHm fuel (dict_set acc x v) rest ltac:(lia)) as (r & -> & Ho).
    replace (c_quote =? c_quote) with true by reflexivity. cbv iota.
    exact Ho.
Qed.

Lemma skip_ws_todo (w : str) : es_ws w = true -> skip_ws w = [].
Proof.
  intros H. rewrite <- (app_nil_r w), (skip_ws_es_ws w [] H). reflexivity.
Qed.

(** A text of the grammar, with white space around it or not, is decoded to
    the value that it denotes. *)
Lemma json_loads_gramatica (ext : bool) (s : str) (v : json) :
  json_texto ext s v -> json_loads s = Ok v.
Proof.
  intros (w1 & t & w2 & -> & Hw1 & Hw2 & Hg).
  pose proof (gramatica_cabeza ext t v Hg) as Hc.
  assert (E : json_loads (w1 ++ t ++ w2) = decode (w1 ++ t ++ w2)).
  { unfold json_loads. destruct w1 as [|a w1].
    - destruct t as [|c t]; [discriminate Hc|]. simpl in Hc |- *.
      rewrite !andb_true_iff, !negb_true_iff in Hc. destruct Hc as [_ ->].
      reflexivity.
    - simpl in Hw1 |- *. apply andb_true_iff in Hw1. destruct Hw1 as [Ha _].
      destruct (a =? 65279) eqn:E; [|reflexivity].
      apply N.eqb_eq in E. subst a. discriminate Ha. }
  rewrite E. unfold decode. rewrite (skip_ws_valor ext w1 t v w2 Hw1 Hg).
  destruct (scan_gramatica ext) as [H _].
  rewrite (H t v Hg _ w2).
  - cbv beta iota delta [bind]. rewrite (skip_ws_todo w2 Hw2). reflexivity.
  - rewrite !length_app. lia.
  - destruct w2 as [|a w2]; [reflexivity|]. simpl in Hw2 |- *.
    apply andb_true_iff in Hw2. destruct Hw2 as [-> _]. reflexivity.
Qed.

(** *** From the decoder to the grammar *)

Lemma skip_ws_partes (s : str) : exists w, s = w ++ skip_ws s /\ es_ws w = true.
Proof.
  induction s as [|c s (w & E & Hw)]; [exists []; split; reflexivity|].
  simpl. destruct (is_ws c) eqn:Hc.
  - exists (c :: w). split; [simpl; f_equal; exact E|]. simpl. rewrite Hc. exact Hw.
  - exists []. split; reflexivity.
Qed.

Lemma digit_of_char_some (c : char) (D : uint -> uint) :
  digit_of_char c = Some D -> es_digito c = true.
Proof.
  intros H. destruct (es_digito c) eqn:E; [reflexivity|].
  rewrite (es_digito_none c E) in H. discriminate H.
Qed.

Lemma scan_digits_partes (s : str) (d : uint) (r : str) :
  scan_digits s = (d, r) ->
  exists ds, s = ds ++ r /\ forallb es_digito ds = true /\ numeral ds = d
             /\ no_vacio ds = negb (is_nil d).
Proof.
  revert d r. induction s as [|c s IH]; intros d r H; simpl in H.
  - inversion H. exists []. repeat split; reflexivity.
  - destruct (digit_of_char c) as [D|] eqn:E.
    + destruct (scan_digits s) as [d' r'] eqn:Es. inversion H. subst d r.
      destruct (IH d' r' eq_refl) as (ds & -> & Hd & Hn & _).
      exists (c :: ds). simpl. rewrite E, Hn, (digit_of_char_some c D E), Hd.
      repeat split; try reflexivity.
      unfold digit_of_char in E.
      repeat match type of E with
             | (if ?b then _ else _) = _ => destruct b; [inversion E; reflexivity|]
             end.
      discriminate E.
    + inversion H. exists []. repeat split; reflexivity.
Qed.

Lemma scan_integer_cuerpo (neg0 : bool) (s1 : str) (neg : bool) (d : uint) (r : str) :
  match s1 with
  | c :: t =>
    if c =? 48 then Some (neg0, D0 Nil, t)
    else match digit_of_char c with
         | Some _ => let (d, r) := scan_digits s1 in Some (neg0, d, r)
         | None => None
         end
  | [] => None
  end = Some (neg, d, r) ->
  neg = neg0 /\ exists i, s1 = i ++ r /\ es_int i = true /\ numeral i = d.
Proof.
  destruct s1 as [|c t]; [discriminate|].
  destruct (c =? 48) eqn:E0.
  - apply N.eqb_eq in E0. subst c. intros H. inversion H. subst.
    split; [reflexivity|]. exists [48]. repeat split; reflexivity.
  - destruct (digit_of_char c) as [D|] eqn:ED; [|discriminate].
    simpl scan_digits. rewrite ED.
    destruct (scan_digits t) as [d' r'] eqn:Es. intros H. inversion H.
    subst. split; [reflexivity|].
    destruct (scan_digits_partes _ _ _ Es) as (ds & -> & Hd & Hn & Hv).
    pose proof (digit_of_char_some c D ED) as Hc.
    exists (c :: ds). split; [reflexivity|]. split; [|simpl; rewrite ED, Hn; reflexivity].
    destruct ds as [|c2 ds]; [exact Hc|].
    change ((es_digito c && negb (c =? 48) && forallb es_digito (c2 :: ds)) = true).
    rewrite Hc, E0, Hd. reflexivity.
Qed.

Lemma scan_integer_partes (s : str) (neg : bool) (d : uint) (r : str) :
  scan_integer s = Some (neg, d, r) ->
  exists i, s = signo neg ++ i ++ r /\ es_int i = true /\ numeral i = d.
Proof.
  unfold scan_integer. destruct s as [|c t]; [discriminate|].
  destruct (c =? c_minus) eqn:Em; intros H.
  - apply (scan_integer_cuerpo true t) in H. destruct H as (-> & i & E & Hi & Hn).
    exists i. split; [|split; assumption].
    apply N.eqb_eq in Em. subst c. rewrite E. reflexivity.
  - apply (scan_integer_cuerpo false (c :: t)) in H.
    destruct H as (-> & i & E & Hi & Hn).
    exists i. split; [exact E | split; assumption].
Qed.

Lemma scan_fraction_partes (r : str) (frac : bool) (r1 : str) :
  scan_fraction r = (frac, r1) ->
  exists f, r = f ++ r1 /\ es_frac f = true /\ no_vacio f = frac.
Proof.
  unfold scan_fraction. destruct r as [|c t].
  - intros H. inversion H. exists []. repeat split; reflexivity.
  - destruct (c =? 46) eqn:Ec.
    + destruct (scan_digits t) as [fd r'] eqn:Es.
      destruct (scan_digits_partes _ _ _ Es) as (ds & E & Hd & Hn & Hv).
      destruct (is_nil fd); intros H; inversion H; subst.
      * exists []. repeat split; reflexivity.
      * exists (c :: ds). simpl. rewrite Ec, Hv, Hd. repeat split; reflexivity.
    + intros H. inversion H. exists []. repeat split; reflexivity.
Qed.

Lemma scan_exponent_partes (r : str) (exp : bool) (r2 : str) :
  scan_exponent r = (exp, r2) ->
  exists e, r = e ++ r2 /\ es_exp e = true /\ no_vacio e = exp.
Proof.
  unfold scan_exponent. destruct r as [|c t].
  - intros H. inversion H. exists []. repeat split; reflexivity.
  - destruct ((c =? 101) || (c =? 69)) eqn:Ec.
    + destruct t as [|c2 t2].
      * simpl. intros H. inversion H. exists []. repeat split; reflexivity.
      * destruct ((c2 =? 43) || (c2 =? c_minus)) eqn:E2.
        -- destruct (scan_digits t2) as [ed r'] eqn:Es.
           destruct (scan_digits_partes _ _ _ Es) as (ds & E & Hd & Hn & Hv).
           destruct (is_nil ed); intros H; inversion H; subst.
           ++ exists []. repeat split; reflexivity.
           ++ exists (c :: c2 :: ds). simpl. rewrite Ec, E2, Hv, Hd.
              repeat split; reflexivity.
        -- destruct (scan_digits (c2 :: t2)) as [ed r'] eqn:Es.
           destruct (scan_digits_partes _ _ _ Es) as (ds & E & Hd & Hn & Hv).
           destruct (is_nil ed); intros H; inversion H; subst.
           ++ exists []. repeat split; reflexivity.
           ++ destruct ds as [|c3 ds]; [discriminate Hv|].
              simpl in E. inversion E. subst c3.
              exists (c :: c2 :: ds). split; [simpl; congruence|].
              split; [|reflexivity].
              change (((c =? 101) || (c =? 69))
                      && (if (c2 =? 43) || (c2 =? c_minus)
                          then no_vacio ds && forallb es_digito ds
                          else forallb es_digito (c2 :: ds)) = true).
              rewrite Ec, E2. exact Hd.
    + intros H. inversion H. exists []. repeat split; reflexivity.
Qed.

Lemma match_number_partes_inv (s : str) (v : json) (r : str) :
  match_number s = Some (v, r) -> exists t, s = t ++ r /\ numero t v.
Proof.
  unfold match_number.
  destruct (scan_integer s) as [[[neg d] r0]|] eqn:Ei; [|discriminate].
  destruct (scan_fraction r0) as [frac r1] eqn:Ef.
  destruct (scan_exponent r1) as [exp r2] eqn:Ee.
  destruct (scan_integer_partes _ _ _ _ Ei) as (i & E & Hi & Hn).
  destruct (scan_fraction_partes _ _ _ Ef) as (f & E1 & Hf & Hfn).
  destruct (scan_exponent_partes _ _ _ Ee) as (e & E2 & He & Hen).
  subst r0 r1 d.
  assert (Es : s = (signo neg ++ i ++ f ++ e) ++ r2)
    by (rewrite E, <- !app_assoc; reflexivity).
  destruct (frac || exp) eqn:Efe; intros H; inversion H; subst v r.
  - exists (signo neg ++ i ++ f ++ e). split; [exact Es|].
    rewrite Es at 1 2. rewrite firstn_texto.
    apply num_float; try assumption.
    intros E0. apply app_eq_nil in E0. destruct E0; subst f e.
    simpl in Hfn, Hen. subst frac exp. discriminate Efe.
  - apply orb_false_iff in Efe. destruct Efe; subst frac exp.
    destruct f; [|discriminate]. destruct e; [|discriminate].
    exists (signo neg ++ i). split; [rewrite E, <- app_assoc; reflexivity|].
    apply num_int, Hi.
Qed.

Lemma prepend_ok (c : char) (res : result (str * str)) (x r : str) :
  prepend c res = Ok (x, r) -> exists x', x = c :: x' /\ res = Ok (x', r).
Proof.
  destruct res as [[x' r']|e]; [|discriminate]. simpl. intros H. inversion H.
  exists x'. split; reflexivity.
Qed.

Lemma scanstring_u_inv (h1 h2 h3 h4 : char) (uni : N) (s6 x r : str) :
  hex4 h1 h2 h3 h4 = Some uni ->
  scanstring (c_backslash :: 117 :: h1 :: h2 :: h3 :: h4 :: s6) = Ok (x, r) ->
  (exists x', x = uni :: x' /\ scanstring s6 = Ok (x', r)
              /\ is_high_surrogate uni && sigue_bajo s6 = false)
  \/ (exists g1 g2 g3 g4 s12 lo x',
         s6 = c_backslash :: 117 :: g1 :: g2 :: g3 :: g4 :: s12
         /\ is_high_surrogate uni = true
         /\ hex4 g1 g2 g3 g4 = Some lo /\ is_low_surrogate lo = true
         /\ x = join_surrogates uni lo :: x' /\ scanstring s12 = Ok (x', r)).
Proof.
  intros Hh. rewrite scanstring_u, Hh.
  destruct (is_high_surrogate uni) eqn:Ea.
  2:{ intros H. apply prepend_ok in H. destruct H as (x' & -> & H).
      left. exists x'. repeat split. exact H. }
  destruct s6 as [|b [|u [|g1 [|g2 [|g3 [|g4 s12]]]]]];
    try (intros H; apply prepend_ok in H; destruct H as (x' & -> & H);
         left; exists x'; repeat split; exact H).
  destruct ((b =? c_backslash) && (u =? 117)) eqn:E.
  2:{ intros H. apply prepend_ok in H. destruct H as (x' & -> & H).
      left. exists x'. split; [reflexivity|]. split; [exact H|].
      unfold sigue_bajo. rewrite E. reflexivity. }
  destruct (hex4 g1 g2 g3 g4) as [lo|] eqn:Eg; [|discriminate].
  destruct (is_low_surrogate lo) eqn:El; intros H; apply prepend_ok in H;
    destruct H as (x' & -> & H).
  - right. apply andb_true_iff in E. destruct E as [Eb Eu].
    apply N.eqb_eq in Eb, Eu. subst b u.
    exists g1, g2, g3, g4, s12, lo, x'. repeat split; assumption.
  - left. exists x'. split; [reflexivity|]. split; [exact H|].
    unfold sigue_bajo. rewrite E, Eg, El. reflexivity.
Qed.

(** What [scanstring] returns is the value of the text up to the closing
    quote, which is a string of the grammar. *)
Lemma scanstring_cadena (n : nat) :
  forall s x r,
    (length s <= n)%nat -> scanstring s = Ok (x, r) ->
    exists k, s = k ++ c_quote :: r /\ cadena k x.
Proof.
  induction n as [|n IH]; intros [|c s1] x r Hn H; try discriminate H;
    [simpl in Hn; lia|].
  simpl in Hn.
  destruct (c =? c_quote) eqn:Eq.
  { apply N.eqb_eq in Eq. subst c. simpl in H. inversion H. subst.
    exists []. split; [reflexivity | constructor]. }
  destruct (c =? c_backslash) eqn:Eb.
  - apply N.eqb_eq in Eb. subst c.
    destruct s1 as [|e s2]; [discriminate H|].
    destruct (e =? 117) eqn:Eu.
    + apply N.eqb_eq in Eu. subst e.
      destruct s2 as [|h1 [|h2 [|h3 [|h4 s6]]]]; try discriminate H.
      destruct (hex4 h1 h2 h3 h4) as [uni|] eqn:Eh;
        [|rewrite scanstring_u, Eh in H; discriminate H].
      destruct (scanstring_u_inv h1 h2 h3 h4 uni s6 x r Eh H)
        as [(x' & -> & Hs & Hc)
           |(g1 & g2 & g3 & g4 & s12 & lo & x' & -> & Ha & Eg & El & -> & Hs)].
      * apply IH in Hs; [|simpl in Hn; lia]. destruct Hs as (k & -> & Hk).
        exists (c_backslash :: 117 :: h1 :: h2 :: h3 :: h4 :: k).
        split; [reflexivity|]. apply cad_u; [exact Eh| |exact Hk].
        destruct (cadena_sigue k x' r Hk) as [<- _]. exact Hc.
      * apply IH in Hs; [|simpl in Hn; lia]. destruct Hs as (k & -> & Hk).
        exists (c_backslash :: 117 :: h1 :: h2 :: h3 :: h4
                  :: c_backslash :: 117 :: g1 :: g2 :: g3 :: g4 :: k).
        split; [reflexivity|]. apply cad_par; assumption.
    + simpl in H. rewrite Eu in H.
      destruct (unescape e) as [c'|] eqn:Ee; [|discriminate H].
      apply prepend_ok in H. destruct H as (x' & -> & Hs).
      apply IH in Hs; [|simpl in Hn; lia]. destruct Hs as (k & -> & Hk).
      exists (c_backslash :: e :: k). split; [reflexivity|].
      apply cad_escape; assumption.
  - simpl in H. rewrite Eq, Eb in H.
    destruct (c <? 32) eqn:E32; [discriminate H|].
    apply prepend_ok in H. destruct H as (x' & -> & Hs).
    apply IH in Hs; [|lia]. destruct Hs as (k & -> & Hk).
    exists (c :: k). split; [reflexivity|].
    apply N.eqb_neq in Eq, Eb. apply N.ltb_ge in E32.
    apply cad_char; [apply N.leb_le; exact E32 | exact Eq | exact Eb | exact Hk].
Qed.

Lemma strip_prefix_partes (p s r : str) : strip_prefix p s = Some r -> s = p ++ r.
Proof.
  revert s. induction p as [|a p IH]; intros s H; [simpl in H; inversion H; reflexivity|].
  destruct s as [|b s]; [discriminate H|]. simpl in H.
  destruct (a =? b) eqn:E; [|discriminate H]. apply N.eqb_eq in E. subst b.
  simpl. f_equal. apply IH, H.
Qed.

Lemma es_ws_app (a b : str) : es_ws a = true -> es_ws b = true -> es_ws (a ++ b) = true.
Proof. unfold es_ws. intros Ha Hb. rewrite forallb_app, Ha, Hb. reflexivity. Qed.

Lemma elementos_ws (ext : bool) (w t : str) (l : list json) :
  es_ws w = true -> elementos ext t l -> elementos ext (w ++ t) l.
Proof.
  intros Hw [w1 s v w2 Hw1 Hg Hw2|w1 s v w2 resto l' Hw1 Hg Hw2 Hl];
    rewrite app_assoc; constructor; try assumption; apply es_ws_app; assumption.
Qed.

Lemma miembros_ws (ext : bool) (w t : str) (kvs : list (str * json)) :
  es_ws w = true -> miembros ext t kvs -> miembros ext (w ++ t) kvs.
Proof.
  intros Hw [w1 k x w2 w3 s v w4 Hw1 Hk Hw2 Hw3 Hg Hw4
            |w1 k x w2 w3 s v w4 resto kvs' Hw1 Hk Hw2 Hw3 Hg Hw4 Hm];
    rewrite app_assoc; constructor; try assumption; apply es_ws_app; assumption.
Qed.

Lemma scan_once_otro (fuel : nat) (c : char) (s' : str) :
  (c =? c_quote) = false -> (c =? c_lbrace) = false -> (c =? c_lbracket) = false ->
  scan_once (S fuel) (c :: s')
  = match strip_prefix (lit "null") (c :: s') with
    | Some r => Ok (JNull, r)
    | None =>
    match strip_prefix (lit "true") (c :: s') with
    | Some r => Ok (JBool true, r)
    | None =>
    match strip_prefix (lit "false") (c :: s') with
    | Some r => Ok (JBool false, r)
    | None =>
    match match_number (c :: s') with
    | Some vr => Ok vr
    | None =>
    match strip_prefix (lit "NaN") (c :: s') with
    | Some r => Ok (JFloat (lit "NaN"), r)
    | None =>
    match strip_prefix (lit "Infinity") (c :: s') with
    | Some r => Ok (JFloat (lit "Infinity"), r)
    | None =>
    match strip_prefix (lit "-Infinity") (c :: s') with
    | Some r => Ok (JFloat (lit "-Infinity"), r)
    | None => Raise JSONDecodeError
    end end end end end end end.
Proof.
  intros H1 H2 H3. cbn [scan_once]. rewrite H1, H2, H3. reflexivity.
Qed.

Lemma scan_once_gramatica (fuel : nat) :
  (forall s v r, scan_once fuel s = Ok (v, r) ->
                 exists t, s = t ++ r /\ gramatica true t v)
  /\ (forall acc s v r,
         array_items fuel acc s = Ok (v, r) ->
         exists t l, s = t ++ c_rbracket :: r /\ v = JArr (acc ++ l)
                     /\ elementos true t l)
  /\ (forall acc s v r,
         object_items fuel acc s = Ok (v, r) ->
         exists t kvs, c_quote :: s = t ++ c_rbrace :: r
                       /\ v = JObj (dict_desde acc kvs) /\ miembros true t kvs).
Proof.
  induction fuel as [|fuel (IHv & IHa & IHo)];
    [repeat split; intros; discriminate|].
  split; [|split].
  - intros [|c s'] v r H; [discriminate H|].
    destruct (c =? c_quote) eqn:Eq.
    { apply N.eqb_eq in Eq. subst c. rewrite scan_once_cadena in H.
      destruct (scanstring s') as [[x r']|e] eqn:Es; [|discriminate H].
      simpl in H. inversion H. subst v r'.
      destruct (scanstring_cadena _ s' x r (le_n _) Es) as (k & -> & Hk).
      exists (c_quote :: k ++ [c_quote]). split.
      - simpl. rewrite <- app_assoc. reflexivity.
      - apply g_cadena, Hk. }
    destruct (c =? c_lbrace) eqn:Eo.
    { apply N.eqb_eq in Eo. subst c. rewrite scan_once_objeto in H.
      destruct (skip_ws_partes s') as (w & E & Hw). rewrite E.
      destruct (skip_ws s') as [|c1 r1]; [discriminate H|].
      destruct (c1 =? c_rbrace) eqn:E1.
      - apply N.eqb_eq in E1. subst c1. inversion H. subst v r1.
        exists (c_lbrace :: w ++ [c_rbrace]). split.
        + simpl. rewrite <- app_assoc. reflexivity.
        + apply g_objeto_vacio, Hw.
      - destruct (c1 =? c_quote) eqn:E2; [|discriminate H].
        apply N.eqb_eq in E2. subst c1.
        destruct (IHo [] r1 v r H) as (t & kvs & Et & -> & Hm).
        exists (c_lbrace :: (w ++ t) ++ [c_rbrace]). split.
        + rewrite Et. simpl. rewrite <- !app_assoc. reflexivity.
        + apply g_objeto, miembros_ws; assumption. }
    destruct (c =? c_lbracket) eqn:Ea.
    { apply N.eqb_eq in Ea. subst c. rewrite scan_once_lista in H.
      destruct (skip_ws_partes s') as (w & E & Hw). rewrite E.
      destruct (skip_ws s') as [|c1 r1]; [discriminate H|].
      destruct (c1 =? c_rbracket) eqn:E1.
      - apply N.eqb_eq in E1. subst c1. inversion H. subst v r1.
        exists (c_lbracket :: w ++ [c_rbracket]). split.
        + simpl. rewrite <- app_assoc. reflexivity.
        + apply g_lista_vacia, Hw.
      - destruct (IHa [] (c1 :: r1) v r H) as (t & l & Et & -> & Hl).
        exists (c_lbracket :: (w ++ t) ++ [c_rbracket]). split.
        + rewrite Et. simpl. rewrite <- !app_assoc. reflexivity.
        + apply g_lista, elementos_ws; assumption. }
    rewrite (scan_once_otro fuel c s' Eq Eo Ea) in H.
    destruct (strip_prefix (lit "null") (c :: s')) as [r'|] eqn:E1.
    { inversion H. subst. exists (lit "null").
      split; [apply strip_prefix_partes, E1 | constructor]. }
    destruct (strip_prefix (lit "true") (c :: s')) as [r'|] eqn:E2.
    { inversion H. subst. exists (lit "true").
      split; [apply strip_prefix_partes, E2 | constructor]. }
    destruct (strip_prefix (lit "false") (c :: s')) as [r'|] eqn:E3.
    { inversion H. subst. exists (lit "false").
      split; [apply strip_prefix_partes, E3 | constructor]. }
    destruct (match_number (c :: s')) as [[v' r']|] eqn:E4.
    { inversion H. subst.
      destruct (match_number_partes_inv _ _ _ E4) as (t & Et & Hn).
      exists t. split; [exact Et | apply g_numero, Hn]. }
    destruct (strip_prefix (lit "NaN") (c :: s')) as [r'|] eqn:E5.
    { inversion H. subst. exists (lit "NaN").
      split; [apply strip_prefix_partes, E5 | apply g_nan; reflexivity]. }
    destruct (strip_prefix (lit "Infinity") (c :: s')) as [r'|] eqn:E6.
    { inversion H. subst. exists (lit "Infinity").
      split; [apply strip_prefix_partes, E6 | apply g_infinity; reflexivity]. }
    destruct (strip_prefix (lit "-Infinity") (c :: s')) as [r'|] eqn:E7;
      [|discriminate H].
    inversion H. subst. exists (lit "-Infinity").
    split; [apply strip_prefix_partes, E7 | apply g_neg_infinity; reflexivity].
  - intros acc s v r H. rewrite array_items_eq in H.
    destruct (scan_once fuel s) as [[v1 r1]|e] eqn:Es; [|discriminate H].
    cbv beta iota delta [bind] in H.
    destruct (IHv s v1 r1 Es) as (t1 & -> & Hg).
    destruct (skip_ws_partes r1) as (w2 & E & Hw2). rewrite E.
    destruct (skip_ws r1) as [|c r2]; [discriminate H|].
    destruct (c =? c_rbracket) eqn:E1.
    + apply N.eqb_eq in E1. subst c. inversion H. subst v r2.
      exists (t1 ++ w2), [v1]. split; [rewrite <- app_assoc; reflexivity|].
      split; [reflexivity|]. apply (el_ultimo true [] t1 v1 w2); auto.
    + destruct (c =? c_comma) eqn:E2; [|discriminate H].
      apply N.eqb_eq in E2. subst c.
      destruct (skip_ws_partes r2) as (w3 & E3 & Hw3). rewrite E3.
      destruct (IHa _ _ _ _ H) as (t & l & -> & -> & Hl).
      exists (t1 ++ w2 ++ c_comma :: w3 ++ t), (v1 :: l).
      split; [rewrite <- !app_assoc; simpl; rewrite <- !app_assoc; reflexivity|].
      split; [rewrite <- app_assoc; reflexivity|].
      apply (el_mas true [] t1 v1 w2 (w3 ++ t) l); auto.
      apply elementos_ws; assumption.
  - intros acc s v r H. rewrite object_items_eq in H.
    destruct (scanstring s) as [[x r0]|e] eqn:Ek; [|discriminate H].
    cbv beta iota delta [bind] in H.
    destruct (scanstring_cadena _ s x r0 (le_n _) Ek) as (k & -> & Hk).
    destruct (skip_ws_partes r0) as (w2 & E & Hw2). rewrite E.
    destruct (skip_ws r0) as [|c r1]; [discriminate H|].
    destruct (c =? c_colon) eqn:Ec; [|discriminate H].
    apply N.eqb_eq in Ec. subst c.
    destruct (skip_ws_partes r1) as (w3 & E3 & Hw3). rewrite E3.
    destruct (scan_once fuel (skip_ws r1)) as [[v1 r2]|e] eqn:Es; [|discriminate H].
    cbv beta iota in H.
    destruct (IHv _ v1 r2 Es) as (t1 & -> & Hg).
    destruct (skip_ws_partes r2) as (w4 & E4 & Hw4). rewrite E4.
    destruct (skip_ws r2) as [|c2 r3]; [discriminate H|].
    destruct (c2 =? c_rbrace) eqn:E5.
    + apply N.eqb_eq in E5. subst c2. inversion H. subst v r3.
      exists (c_quote :: k ++ c_quote :: w2 ++ c_colon :: w3 ++ t1 ++ w4), [(x, v1)].
      split; [simpl; repeat (rewrite <- app_assoc; simpl); reflexivity|].
      split; [reflexivity|].
      apply (mi_ultimo true [] k x w2 w3 t1 v1 w4); auto.
    + destruct (c2 =? c_comma) eqn:E6; [|discriminate H].
      apply N.eqb_eq in E6. subst c2.
      destruct (skip_ws_partes r3) as (w5 & E7 & Hw5). rewrite E7.
      destruct (skip_ws r3) as [|c3 r4]; [discriminate H|].
      destruct (c3 =? c_quote) eqn:E8; [|discriminate H].
      apply N.eqb_eq in E8. subst c3.
      destruct (IHo _ _ _ _ H) as (t & kvs & Et & -> & Hm).
      exists (c_quote :: k ++ c_quote :: w2 ++ c_colon :: w3 ++ t1 ++ w4
                ++ c_comma :: w5 ++ t), ((x, v1) :: kvs).
      split; [rewrite Et; simpl; repeat (rewrite <- app_assoc; simpl); reflexivity|].
      split; [reflexivity|].
      apply (mi_mas true [] k x w2 w3 t1 v1 w4 (w5 ++ t) kvs); auto.
      apply miembros_ws; assumption.
Qed.

(** What [json.loads] returns is the value of a text of the grammar of
    Python's [json]. *)
Lemma json_loads_texto (s : str) (v : json) :
  json_loads s = Ok v -> json_texto true s v.
Proof.
  intros H.
  assert (Hd : decode s = Ok v).
  { unfold json_loads in H. destruct s as [|c s]; [exact H|].
    destruct (c =? 65279); [discriminate H | exact H]. }
  unfold decode in Hd.
  destruct (scan_once (S (2 * length s)) (skip_ws s)) as [[v' r]|e] eqn:Es;
    [|discriminate Hd].
  cbv beta iota delta [bind] in Hd.
  destruct (skip_ws_partes s) as (w1 & E1 & Hw1).
  destruct (skip_ws_partes r) as (w2 & E2 & Hw2).
  destruct (skip_ws r); [|discriminate Hd]. inversion Hd. subst v'.
  destruct (scan_once_gramatica (S (2 * length s))) as [Hv _].
  destruct (Hv _ _ _ Es) as (t & Et & Hg).
  exists w1, t, w2. rewrite app_nil_r in E2. subst r.
  split; [rewrite E1 at 1; rewrite Et; reflexivity|]. auto.
Qed.

(** ** The schema loader *)

Lemma load_schema_eq (st : Estado) (content : str) :
  archivos st (schema_path st) = Some content ->
  load_schema st = (st, json_loads content).
Proof. intros Hf. unfold load_schema, json_load_file. rewrite Hf. reflexivity. Qed.

(** Members with distinct names make the [dict] of their pairs, in the order
    of the text. *)
Lemma dict_desde_distintos (kvs : list (str * json)) :
  forall acc, NoDup (dict_keys (acc ++ kvs)) -> dict_desde acc kvs = acc ++ kvs.
Proof.
  induction kvs as [|[k v] kvs IH]; intros acc Hn; [symmetry; apply app_nil_r|].
  change (dict_desde acc ((k, v) :: kvs)) with (dict_desde (dict_set acc k v) kvs).
  assert (Hk : ~ In k (map fst acc)).
  { unfold dict_keys in Hn. rewrite map_app in Hn. simpl in Hn.
    apply NoDup_remove_2 in Hn. intros Hin. apply Hn, in_or_app. left. exact Hin. }
  rewrite (dict_set_fresh json acc k v Hk), IH, <- app_assoc; [reflexivity|].
  rewrite <- app_assoc. exact Hn.
Qed.

Lemma cadena_llana (s : str) :
  forallb (fun c => (32 <=? c) && negb (c =? c_quote) && negb (c =? c_backslash)) s
  = true ->
  cadena s s.
Proof.
  induction s as [|c s IH]; [constructor|]. simpl.
  rewrite !andb_true_iff, !negb_true_iff, !N.eqb_neq.
  intros [[[Hc Hq] Hb] Hs]. apply cad_char; auto.
Qed.

(** The text of [texto_esquema] is valid JSON, and denotes a schema of one
    field. *)
Lemma texto_esquema_valido :
  json_texto false texto_esquema
             (JObj [(lit "edad", JObj [(lit "tipo", JStr (lit "numero"))])]).
Proof.
  exists [], (removelast texto_esquema), [c_lf].
  split; [reflexivity|]. split; [reflexivity|]. split; [reflexivity|].
  apply (g_objeto false
           ([c_lf; c_space; c_space; c_quote] ++ lit "edad"
              ++ [c_quote; c_colon; c_space; c_lbrace; c_quote] ++ lit "tipo"
              ++ [c_quote; c_colon; c_space; c_quote] ++ lit "numero"
              ++ [c_quote; c_rbrace; c_lf])
           [(lit "edad", JObj [(lit "tipo", JStr (lit "numero"))])]).
  apply (mi_ultimo false [c_lf; c_space; c_space] (lit "edad") (lit "edad") []
                   [c_space]
                   ([c_lbrace; c_quote] ++ lit "tipo"
                      ++ [c_quote; c_colon; c_space; c_quote] ++ lit "numero"
                      ++ [c_quote; c_rbrace])
                   (JObj [(lit "tipo", JStr (lit "numero"))]) [c_lf]);
    try reflexivity; [apply cadena_llana; reflexivity|].
  apply (g_objeto false
           ([c_quote] ++ lit "tipo" ++ [c_quote; c_colon; c_space; c_quote]
              ++ lit "numero" ++ [c_quote])
           [(lit "tipo", JStr (lit "numero"))]).
  apply (mi_ultimo false [] (lit "tipo") (lit "tipo") [] [c_space]
                   ([c_quote] ++ lit "numero" ++ [c_quote])
                   (JStr (lit "numero")) []);
    try reflexivity; [apply cadena_llana; reflexivity|].
  apply (g_cadena false (lit "numero") (lit "numero")).
  apply cadena_llana. reflexivity.
Qed.

(** The text of a value of the standard starts with a character of its kind:
    [NaN] is no JSON text. *)
Lemma gramatica_estandar_cabeza (t : str) (v : json) :
  gramatica false t v -> exists c r, t = c :: r /\ starts_value c = true.
Proof.
  intros [| | |s v' Hn|s x _|w _|s l _|w _|s kvs _|H|H|H];
    try discriminate H; try (eexists _, _; split; reflexivity).
  destruct (numero_cabeza s v' Hn) as (c & r & -> & Hc).
  exists c, r. split; [reflexivity|]. unfold starts_value.
  apply orb_true_iff in Hc. destruct Hc as [Hc|Hc]; rewrite Hc;
    rewrite ?orb_true_r; reflexivity.
Qed.

Lemma nan_no_es_json (v : json) : ~ json_texto false (lit "NaN") v.
Proof.
  intros (w1 & t & w2 & E & Hw1 & _ & Hg).
  destruct (gramatica_estandar_cabeza t v Hg) as (c & r & -> & Hc).
  destruct w1 as [|a w1]; simpl in E; inversion E; subst.
  - discriminate Hc.
  - discriminate Hw1.
Qed.

(** C6, refuted as stated: the text [[]] is valid JSON whose top-level value
    is not an object, and [load_schema] returns it instead of failing; and
    the text [NaN] is not valid JSON, and [load_schema] returns a float
    instead of failing. *)
Lemma load_schema_acepta_lista :
  json_texto false (lit "[]") (JArr [])
  /\ is_object (JArr []) = false
  /\ load_schema estado_esquema_lista = (estado_esquema_lista, Ok (JArr []))
  /\ (forall v, ~ json_texto false (lit "NaN") v)
  /\ load_schema estado_esquema_nan = (estado_esquema_nan, Ok (JFloat (lit "NaN"))).
Proof.
  split; [|split; [reflexivity|split; [reflexivity|split; [|reflexivity]]]].
  - exists [], (lit "[]"), []. repeat split.
    apply (g_lista_vacia false []). reflexivity.
  - exact nan_no_es_json.
Qed.

(** C6, amended: on the text of an existing schema file, and short of the
    bounds of the interpreter.  When the text is valid JSON (RFC 8259, white
    space around the value allowed), [load_schema] returns the value that the
    text denotes, whatever its kind: an array, a string, a number, a boolean
    or [null] as it is, unchecked.  [load_schema] returns a value exactly
    when the text is a text of the grammar of Python's [json], which is the
    grammar of the standard with [NaN], [Infinity] and [-Infinity] added, and
    the value is the one the text denotes; so when it fails, the text is not
    valid JSON.  An object whose names are distinct is returned as the
    mapping of its names to their values, in the order of the text. *)
Theorem load_schema_json_valido (st : Estado) (content : str) :
  archivos st (schema_path st) = Some content ->
  (forall v, json_texto false content v -> load_schema st = (st, Ok v))
  /\ (forall st' v,
         load_schema st = (st', Ok v) <-> st' = st /\ json_texto true content v)
  /\ (forall st' e,
         load_schema st = (st', Raise e) ->
         forall v, ~ json_texto true content v /\ ~ json_texto false content v)
  /\ (forall w1 t w2 kvs,
         content = w1 ++ c_lbrace :: t ++ c_rbrace :: w2 ->
         es_ws w1 = true -> es_ws w2 = true ->
         miembros false t kvs -> NoDup (dict_keys kvs) ->
         load_schema st = (st, Ok (JObj kvs))).
Proof.
  intros Hf. pose proof (load_schema_eq st content Hf) as E.
  split; [|split; [|split]].
  - intros v Hv. rewrite E, (json_loads_gramatica false content v Hv). reflexivity.
  - intros st' v. rewrite E. split.
    + intros H. inversion H as [[Hs Hj]]. split; [reflexivity|].
      apply json_loads_texto, Hj.
    + intros [-> Hv]. rewrite (json_loads_gramatica true content v Hv). reflexivity.
  - intros st' e H v. rewrite E in H.
    split; intros Hv; rewrite (json_loads_gramatica _ content v Hv) in H;
      discriminate H.
  - intros w1 t w2 kvs -> Hw1 Hw2 Hm Hn.
    rewrite E, (json_loads_gramatica false _ (JObj (dict_de kvs))).
    + unfold dict_de. rewrite (dict_desde_distintos kvs [] Hn). reflexivity.
    + exists w1, (c_lbrace :: t ++ [c_rbrace]), w2.
      split; [simpl; rewrite <- app_assoc; reflexivity|].
      split; [exact Hw1|]. split; [exact Hw2|]. apply g_objeto, Hm.
Qed.

Lemma load_schema_json_valido_witness :
  (forall v, json_texto false texto_esquema v ->
             load_schema estado_esquema_valido = (estado_esquema_valido, Ok v))
  /\ (forall st' v,
         load_schema estado_esquema_valido = (st', Ok v)
         <-> st' = estado_esquema_valido /\ json_texto true texto_esquema v)
  /\ (forall st' e,
         load_schema estado_esquema_valido = (st', Raise e) ->
         forall v, ~ json_texto true texto_esquema v
                   /\ ~ json_texto false texto_esquema v)
  /\ (forall w1 t w2 kvs,
         texto_esquema = w1 ++ c_lbrace :: t ++ c_rbrace :: w2 ->
         es_ws w1 = true -> es_ws w2 = true ->
         miembros false t kvs -> NoDup (dict_keys kvs) ->
         load_schema estado_esquema_valido = (estado_esquema_valido, Ok (JObj kvs))).
Proof.
  apply (load_schema_json_valido estado_esquema_valido texto_esquema). reflexivity.
Defined.

(** The names of the fields of a schema that [JSONFormGenerator] has loaded
    are distinct. *)
Lemma init_campos_distintos (sp hp : str) (fs : str -> option str) (st : Estado)
      (items : list (str * json)) :
  init sp hp fs = Ok st -> schema st = JObj items -> NoDup (dict_keys items).
Proof.
  unfold init, load_schema, json_load_file. simpl.
  destruct (fs sp) as [content|]; [|discriminate].
  destruct (json_loads content) as [v|e] eqn:E; [|discriminate].
  intros H; inversion H; subst. simpl. intros ->.
  apply json_loads_keys_ok in E. simpl in E. apply andb_true_iff in E.
  apply keys_unique_NoDup, E.
Qed.

(** ** The truth value of a float *)

(** A float is false when it is zero: a literal of zeros, with or without a
    sign and an exponent, and a literal so small that [float] rounds it to
    zero; the smallest positive float and the values that are not numbers
    are true. *)
Lemma truthy_float :
  truthy (JFloat (lit "0.0")) = false
  /\ truthy (JFloat (lit "-0.0")) = false
  /\ truthy (JFloat (lit "0e0")) = false
  /\ truthy (JFloat (lit "0.000E+7")) = false
  /\ truthy (JFloat (lit "1e-400")) = false
  /\ truthy (JFloat (lit "2.4703282292062327e-324")) = false
  /\ truthy (JFloat (lit "2.4703282292062328e-324")) = true
  /\ truthy (JFloat (lit "5e-324")) = true
  /\ truthy (JFloat (lit "-1.5")) = true
  /\ truthy (JFloat (lit "1E5")) = true
  /\ truthy (JFloat (lit "NaN")) = true
  /\ truthy (JFloat (lit "-Infinity")) = true.
Proof. repeat split; vm_compute; reflexivity. Qed.

(** A float that is not zero has a digit other than 0 before its exponent. *)
Lemma float_nonzero_cero (literal : str) (neg : bool) (d : uint) (r : str) :
  scan_integer literal = Some (neg, d, r) ->
  Z.of_uint (Decimal.app d (fst (fraction_digits r))) = 0%Z ->
  truthy (JFloat literal) = false.
Proof.
  intros Hs Hz. simpl. unfold float_nonzero. rewrite Hs.
  destruct (fraction_digits r) as [fd r1]. simpl in Hz. rewrite Hz. reflexivity.
Qed.

(** ** The form engine *)

Lemma dict_get_entradas (V : Type) (d : list (str * V)) (k : str) :
  dict_get d k = option_map snd (hd_error (entradas d k)).
Proof.
  induction d as [|[k' v] d IH]; simpl; [reflexivity|].
  destruct (str_eqb k' k); [reflexivity | exact IH].
Qed.

Lemma entradas_dict_set_other (V : Type) (d : list (str * V)) (k k' : str) (v : V) :
  k' <> k -> entradas (dict_set d k v) k' = entradas d k'.
Proof.
  intros Hk. induction d as [|[k0 v0] d IH]; simpl.
  - replace (str_eqb k k') with false; [reflexivity|].
    symmetry. apply str_eqb_neq. congruence.
  - destruct (str_eqb k0 k) eqn:E; simpl; [|rewrite IH; reflexivity].
    apply str_eqb_eq in E. subst k0.
    replace (str_eqb k k') with false; [reflexivity|].
    symmetry. apply str_eqb_neq. congruence.
Qed.

Lemma entradas_dict_set_new (V : Type) (d : list (str * V)) (k : str) (v : V) :
  entradas d k = [] -> entradas (dict_set d k v) k = [(k, v)].
Proof.
  induction d as [|[k0 v0] d IH]; simpl.
  - rewrite str_eqb_refl. reflexivity.
  - destruct (str_eqb k0 k) eqn:E; [discriminate|].
    intros H. simpl. rewrite E. apply IH, H.
Qed.

Lemma dict_get_dict_set (V : Type) (d : list (str * V)) (k : str) (v : V) :
  dict_get (dict_set d k v) k = Some v.
Proof.
  induction d as [|[k0 v0] d IH]; simpl.
  - rewrite str_eqb_refl. reflexivity.
  - destruct (str_eqb k0 k) eqn:E; simpl; rewrite E; [reflexivity | exact IH].
Qed.

Lemma ajeno_bindM (A B : Type) (k : str) (m : M A) (f : A -> M B) :
  ajeno k m -> (forall a, ajeno k (f a)) -> ajeno k (bindM m f).
Proof.
  intros Hm Hf st. unfold bindM. specialize (Hm st).
  destruct (m st) as [st1 [a|e]]; simpl in *; [|exact Hm].
  destruct Hm as [Hd He]. destruct (Hf a st1) as [Hd' He']. split; congruence.
Qed.

Lemma ajeno_lift (A : Type) (k : str) (r : result A) : ajeno k (lift r).
Proof. intros st. split; reflexivity. Qed.

Lemma ajeno_ret (A : Type) (k : str) (a : A) : ajeno k (ret a).
Proof. intros st. split; reflexivity. Qed.

Lemma ajeno_show (k : str) (e : elemento) : ajeno k (show e).
Proof. intros st. split; reflexivity. Qed.

Lemma ajeno_set_campo (k campo : str) (v : json) :
  k <> campo -> ajeno k (set_campo campo v).
Proof.
  intros Hk st. split; [|reflexivity]. simpl. apply entradas_dict_set_other, Hk.
Qed.

Lemma ajeno_validar_regex (env : Entorno) (k campo valor : str) (regex : json) :
  k <> campo -> ajeno k (validar_regex env campo valor regex).
Proof.
  intros Hk. unfold validar_regex. apply ajeno_bindM; [apply ajeno_lift|].
  intros [|]; simpl; [apply ajeno_ret|].
  intros st. split; [reflexivity|]. simpl. apply entradas_dict_set_other, Hk.
Qed.

Lemma ajeno_render_campo (env : Entorno) (k campo : str) (opciones : json) :
  k <> campo -> ajeno k (render_campo env campo opciones).
Proof.
  intros Hk. unfold render_campo.
  repeat (apply ajeno_bindM; [apply ajeno_lift | intros ?]).
  repeat match goal with
         | |- ajeno _ (if ?b then _ else _) => destruct b
         | |- ajeno _ (bindM _ _) => apply ajeno_bindM; [|intros ?]
         | |- ajeno _ (lift _) => apply ajeno_lift
         | |- ajeno _ (ret _) => apply ajeno_ret
         | |- ajeno _ (show _) => apply ajeno_show
         | |- ajeno _ (set_campo _ _) => apply ajeno_set_campo; assumption
         | |- ajeno _ (validar_regex _ _ _ _) => apply ajeno_validar_regex; assumption
         end.
Qed.

Lemma ajeno_render_campos (env : Entorno) (k : str) (items : list (str * json)) :
  ~ In k (dict_keys items) -> ajeno k (render_campos env items).
Proof.
  induction items as [|[campo opciones] items IH]; simpl; intros Hk;
    [apply ajeno_ret|].
  apply ajeno_bindM.
  - apply ajeno_render_campo. intros ->. apply Hk. left. reflexivity.
  - intros _. apply IH. intros Hin. apply Hk. right. exact Hin.
Qed.

Lemma render_campos_app (env : Entorno) (pre post : list (str * json)) (st : Estado) :
  render_campos env (pre ++ post) st
  = (render_campos env pre >> render_campos env post) st.
Proof.
  revert st. induction pre as [|[campo opciones] pre IH]; intros st; simpl.
  - reflexivity.
  - unfold bindM in *. destruct (render_campo env campo opciones st) as [st1 [[]|e]];
      [|reflexivity].
    apply IH.
Qed.

(** The run of [render_form] around one field of a schema whose names are
    distinct: the fields before it and after it leave its entries alone. *)
Lemma render_form_campo (env : Entorno) (st st' : Estado)
      (items : list (str * json)) (campo : str) (opciones : json) :
  schema st = JObj items ->
  NoDup (dict_keys items) ->
  In (campo, opciones) items ->
  render_form env st = (st', Ok tt) ->
  exists st1 st2,
    entradas (data st1) campo = entradas (data st) campo
    /\ entradas (errores st1) campo = entradas (errores st) campo
    /\ render_campo env campo opciones st1 = (st2, Ok tt)
    /\ entradas (data st') campo = entradas (data st2) campo
    /\ entradas (errores st') campo = entradas (errores st2) campo.
Proof.
  intros Hs Hn Hin Hr.
  apply in_split in Hin. destruct Hin as (pre & post & ->).
  unfold dict_keys in Hn. rewrite map_app in Hn. simpl in Hn.
  pose proof (NoDup_remove_2 _ _ _ Hn) as Hnot.
  assert (Hpre : ~ In campo (dict_keys pre))
    by (intros H; apply Hnot, in_or_app; left; exact H).
  assert (Hpost : ~ In campo (dict_keys post))
    by (intros H; apply Hnot, in_or_app; right; exact H).
  unfold render_form, bindM in Hr. simpl in Hr. rewrite Hs in Hr.
  rewrite render_campos_app in Hr. unfold bindM in Hr.
  pose proof (ajeno_render_campos env campo pre Hpre
                (set_pantalla (pantalla st ++ [st_title (lit "🧩 Formulario dinámico con validaciones, historial y envío remoto")]) st))
    as Ha.
  destruct (render_campos env pre _) as [st1 [[]|e]]; [|discriminate].
  simpl in Hr, Ha. unfold bindM in Hr.
  destruct (render_campo env campo opciones st1) as [st2 [[]|e]] eqn:Ec; [|discriminate].
  pose proof (ajeno_render_campos env campo post Hpost st2) as Hb.
  rewrite Hr in Hb. simpl in Hb.
  exists st1, st2. destruct Ha as [Ha1 Ha2]. destruct Hb as [Hb1 Hb2].
  repeat split; assumption.
Qed.

Lemma render_campo_texto (env : Entorno) (st : Estado) (campo : str)
      (kvs : list (str * json)) (r : str) :
  dict_get kvs (lit "tipo") = Some (JStr (lit "texto")) ->
  dict_get kvs (lit "regex") = Some (JStr r) ->
  r <> [] ->
  let valor :=
    st_text_input env (capitalize env campo)
                  (match dict_get kvs (lit "placeholder") with
                   | Some p => p
                   | None => JStr []
                   end) in
  valor <> [] ->
  render_campo env campo (JObj kvs) st
  = match re_fullmatch env r valor with
    | Ok true => (set_data (dict_set (data st) campo (JStr valor)) st, Ok tt)
    | Ok false =>
      (set_data (dict_set (data st) campo (JStr valor))
                (set_errores
                   (dict_set (errores st) campo
                             (lit "Formato inválido para '" ++ campo ++ lit "'")) st),
       Ok tt)
    | Raise e => (st, Raise e)
    end.
Proof.
  intros Ht Hr Hne valor Hv.
  unfold render_campo, opciones_get, lift, bindM. rewrite Ht, Hr.
  change (is_str (JStr (lit "texto")) (lit "texto")) with true. cbv iota.
  fold valor.
  replace (truthy (JStr valor)) with true
    by (destruct valor; [congruence | reflexivity]).
  replace (truthy (JStr r)) with true
    by (destruct r; [congruence | reflexivity]).
  simpl andb. cbv iota. unfold validar_regex, fullmatch, lift, bindM.
  destruct (re_fullmatch env r valor) as [[|]|e]; reflexivity.
Qed.

Lemma render_campo_lista (env : Entorno) (st : Estado) (campo : str)
      (kvs : list (str * json)) :
  dict_get kvs (lit "tipo") = Some (JStr (lit "lista")) ->
  let texto :=
    st_text_input env (capitalize env campo ++ lit " (separado por comas)")
                  (match dict_get kvs (lit "placeholder") with
                   | Some p => p
                   | None => JStr []
                   end) in
  render_campo env campo (JObj kvs) st
  = (set_data (dict_set (data st) campo (JArr (map JStr (lista_de texto)))) st, Ok tt).
Proof.
  intros Ht texto.
  unfold render_campo, opciones_get, lift, bindM. rewrite Ht.
  reflexivity.
Qed.

(** *** [split] and [strip] *)

Lemma split_nonempty (sep : char) (s : str) : split sep s <> [].
Proof.
  destruct s as [|c s]; simpl; [discriminate|].
  destruct (c =? sep); [discriminate|]. destruct (split sep s); discriminate.
Qed.

(** The segments, joined again with the separator, are the text. *)
Lemma join_split (sep : char) (s : str) : join sep (split sep s) = s.
Proof.
  induction s as [|c s IH]; [reflexivity|]. simpl split.
  pose proof (split_nonempty sep s) as Hne.
  destruct (c =? sep) eqn:E.
  - apply N.eqb_eq in E. subst c.
    destruct (split sep s) as [|seg segs]; [congruence|].
    change (join sep ([] :: seg :: segs)) with (sep :: join sep (seg :: segs)).
    rewrite IH. reflexivity.
  - destruct (split sep s) as [|seg segs]; [congruence|].
    destruct segs as [|seg' segs]; simpl in *; rewrite <- IH; reflexivity.
Qed.

(** No segment holds the separator. *)
Lemma split_sin_separador (sep : char) (s : str) :
  Forall (fun seg => ~ In sep seg) (split sep s).
Proof.
  induction s as [|c s IH]; simpl; [repeat constructor; auto|].
  destruct (c =? sep) eqn:E; [constructor; auto|].
  destruct (split sep s) as [|seg segs]; [repeat constructor; simpl; intros [H|[]];
                                            subst; rewrite N.eqb_refl in E; discriminate|].
  inversion IH; subst. constructor; [|assumption].
  simpl. intros [H|H]; [subst; rewrite N.eqb_refl in E; discriminate | contradiction].
Qed.

Lemma lstrip_spec (s : str) :
  exists pre, s = pre ++ lstrip s
              /\ forallb isspace pre = true
              /\ match lstrip s with
                 | c :: _ => isspace c = false
                 | [] => True
                 end.
Proof.
  induction s as [|c s (pre & E & Hp & Hh)]; [exists []; repeat split|].
  simpl. destruct (isspace c) eqn:Ec.
  - exists (c :: pre). simpl. rewrite Ec, Hp. repeat split; [congruence | assumption].
  - exists []. repeat split. assumption.
Qed.

Lemma rstrip_spec (s : str) :
  exists post, s = rstrip s ++ post
               /\ forallb isspace post = true
               /\ (rstrip s = []
                   \/ exists t c, rstrip s = t ++ [c] /\ isspace c = false).
Proof.
  unfold rstrip. destruct (lstrip_spec (rev s)) as (pre & E & Hp & Hh).
  exists (rev pre). split; [|split].
  - rewrite <- rev_app_distr, <- E, rev_involutive. reflexivity.
  - rewrite forallb_forall in *. intros x Hx. apply Hp, in_rev, Hx.
  - destruct (lstrip (rev s)) as [|c t]; [left; reflexivity|].
    right. exists (rev t), c. split; [reflexivity | assumption].
Qed.

(** [strip s] is [s] without a run of white space at each end, and neither
    starts nor ends with white space. *)
Lemma strip_spec (s : str) :
  exists pre post,
    s = pre ++ strip s ++ post
    /\ forallb isspace pre = true /\ forallb isspace post = true
    /\ (strip s = []
        \/ exists c t t' c', strip s = c :: t /\ strip s = t' ++ [c']
                             /\ isspace c = false /\ isspace c' = false).
Proof.
  unfold strip.
  destruct (lstrip_spec s) as (pre & E & Hp & Hh).
  destruct (rstrip_spec (lstrip s)) as (post & E' & Hq & Ht).
  exists pre, post. split; [rewrite <- E', <- E; reflexivity|].
  split; [assumption|]. split; [assumption|].
  destruct Ht as [Ht|(t' & c' & Ht & Hc')]; [left; assumption|].
  right. destruct (rstrip (lstrip s)) as [|c r]; [destruct t'; discriminate|].
  rewrite E' in Hh. exists c, r, t', c'. simpl in Hh. repeat split; assumption.
Qed.

Lemma lista_de_split_trim_drop (texto : str) :
  lista_de texto = split_trim_drop texto.
Proof.
  unfold lista_de, split_trim_drop.
  induction (split c_comma texto) as [|i l IH]; [reflexivity|].
  cbn [flat_map map filter]. rewrite IH. unfold truthy.
  destruct (str_eqb (strip i) []); reflexivity.
Qed.

(** The items of the list stand in the text in the same order: each is a
    segment trimmed, the segments taken from left to right. *)
Lemma split_trim_drop_items (texto : str) (x : str) :
  In x (split_trim_drop texto)
  <-> x <> [] /\ exists i, In i (split c_comma texto) /\ x = strip i.
Proof.
  unfold split_trim_drop. rewrite filter_In, in_map_iff, negb_true_iff, str_eqb_neq.
  split.
  - intros [(i & <- & Hi) Hx]. split; [assumption|]. exists i. auto.
  - intros [Hx (i & Hi & ->)]. split; [exists i; auto | assumption].
Qed.

Lemma dict_get_por_entradas (V : Type) (d d' : list (str * V)) (k : str) :
  entradas d k = entradas d' k -> dict_get d k = dict_get d' k.
Proof. intros H. rewrite !dict_get_entradas, H. reflexivity. Qed.

(** C1, refuted as stated: the message recorded for a value that does not
    match is not the text ["Invalid format for '<name>'"], and with an empty
    pattern, which the value does not match, no error is recorded at all. *)
Lemma render_form_formato_invalido :
  (re_fullmatch entorno_rojo (lit "azul") (lit "rojo") = Ok false
   /\ snd (render_form entorno_rojo estado_color) = Ok tt
   /\ dict_get (errores (fst (render_form entorno_rojo estado_color))) (lit "color")
      = Some (lit "Formato inválido para 'color'")
   /\ dict_get (errores (fst (render_form entorno_rojo estado_color))) (lit "color")
      <> Some (lit "Invalid format for 'color'"))
  /\ (re_fullmatch entorno_rojo [] (lit "rojo") = Ok false
      /\ snd (render_form entorno_rojo estado_color_sin_patron) = Ok tt
      /\ errores (fst (render_form entorno_rojo estado_color_sin_patron)) = []).
Proof.
  split.
  - split; [reflexivity|]. split; [reflexivity|]. split; [vm_compute; reflexivity|].
    vm_compute. discriminate.
  - split; [reflexivity|]. split; reflexivity.
Qed.

(** C1, amended: for a text field of a schema with distinct names, with a
    non-empty pattern under [regex] and a non-empty value entered, when
    [render_form] completes the value entered is stored under the name of the
    field; if the value does not fully match the pattern, the errors hold
    exactly one entry under that name, with the message
    ["Formato inválido para '<name>'"]; if it matches, they hold none. *)
Theorem render_form_texto_regex (env : Entorno) (st st' : Estado)
        (items : list (str * json)) (campo : str) (kvs : list (str * json)) (r : str) :
  schema st = JObj items ->
  NoDup (dict_keys items) ->
  In (campo, JObj kvs) items ->
  dict_get kvs (lit "tipo") = Some (JStr (lit "texto")) ->
  dict_get kvs (lit "regex") = Some (JStr r) ->
  r <> [] ->
  let valor :=
    st_text_input env (capitalize env campo)
                  (match dict_get kvs (lit "placeholder") with
                   | Some p => p
                   | None => JStr []
                   end) in
  valor <> [] ->
  entradas (errores st) campo = [] ->
  render_form env st = (st', Ok tt) ->
  dict_get (data st') campo = Some (JStr valor)
  /\ (re_fullmatch env r valor = Ok false ->
      entradas (errores st') campo
      = [(campo, lit "Formato inválido para '" ++ campo ++ lit "'")])
  /\ (re_fullmatch env r valor = Ok true ->
      entradas (errores st') campo = []).
Proof.
  intros Hs Hn Hin Ht Hr Hne valor Hv He Hrun.
  destruct (render_form_campo env st st' items campo (JObj kvs) Hs Hn Hin Hrun)
    as (st1 & st2 & Hd1 & He1 & Hstep & Hd2 & He2).
  rewrite (render_campo_texto env st1 campo kvs r Ht Hr Hne Hv) in Hstep.
  fold valor in Hstep.
  rewrite (dict_get_por_entradas _ _ _ _ Hd2), He2.
  destruct (re_fullmatch env r valor) as [[|]|e]; inversion Hstep; subst st2;
    unfold set_data, set_errores; cbn [data errores].
  - split; [apply dict_get_dict_set|]. split; [discriminate|].
    intros _. exact (eq_trans He1 He).
  - split; [apply dict_get_dict_set|]. split; [|discriminate].
    intros _. apply entradas_dict_set_new. exact (eq_trans He1 He).
Qed.

Lemma render_form_texto_regex_witness :
  dict_get (data (fst (render_form entorno_rojo estado_color))) (lit "color")
  = Some (JStr (lit "rojo"))
  /\ (re_fullmatch entorno_rojo (lit "azul") (lit "rojo") = Ok false ->
      entradas (errores (fst (render_form entorno_rojo estado_color))) (lit "color")
      = [(lit "color", lit "Formato inválido para '" ++ lit "color" ++ lit "'")])
  /\ (re_fullmatch entorno_rojo (lit "azul") (lit "rojo") = Ok true ->
      entradas (errores (fst (render_form entorno_rojo estado_color))) (lit "color")
      = []).
Proof.
  apply (render_form_texto_regex entorno_rojo estado_color
           (fst (render_form entorno_rojo estado_color))
           (campos_color (lit "azul")) (lit "color")
           [(lit "tipo", JStr (lit "texto")); (lit "regex", JStr (lit "azul"))]
           (lit "azul")).
  - reflexivity.
  - apply keys_unique_NoDup. reflexivity.
  - left. reflexivity.
  - reflexivity.
  - reflexivity.
  - discriminate.
  - vm_compute. discriminate.
  - reflexivity.
  - reflexivity.
Defined.

(** C2: for a list field of a schema with distinct names, when [render_form]
    completes, the value stored under the name of the field is the list of
    the segments of the text entered between commas ([join_split],
    [split_sin_separador]), each trimmed of white space at both ends
    ([strip_spec]), the empty ones dropped, in the order of the text and with
    repetitions; the text ["a, b,,c "] gives ["a"], ["b"], ["c"]. *)
Theorem render_form_lista (env : Entorno) :
  (forall (st st' : Estado) (items : list (str * json)) (campo : str)
          (kvs : list (str * json)),
      schema st = JObj items ->
      NoDup (dict_keys items) ->
      In (campo, JObj kvs) items ->
      dict_get kvs (lit "tipo") = Some (JStr (lit "lista")) ->
      render_form env st = (st', Ok tt) ->
      dict_get (data st') campo
      = Some (JArr (map JStr
                        (split_trim_drop
                           (st_text_input env
                              (capitalize env campo ++ lit " (separado por comas)")
                              (match dict_get kvs (lit "placeholder") with
                               | Some p => p
                               | None => JStr []
                               end))))))
  /\ lista_de (lit "a, b,,c ") = [lit "a"; lit "b"; lit "c"]
  /\ split_trim_drop (lit "a, b,,c ") = [lit "a"; lit "b"; lit "c"].
Proof.
  split; [|split; reflexivity].
  intros st st' items campo kvs Hs Hn Hin Ht Hrun.
  destruct (render_form_campo env st st' items campo (JObj kvs) Hs Hn Hin Hrun)
    as (st1 & st2 & Hd1 & He1 & Hstep & Hd2 & He2).
  rewrite (render_campo_lista env st1 campo kvs Ht) in Hstep.
  rewrite (dict_get_por_entradas _ _ _ _ Hd2).
  inversion Hstep; subst st2. unfold set_data; cbn [data].
  rewrite dict_get_dict_set, lista_de_split_trim_drop. reflexivity.
Qed.

Lemma render_form_lista_witness :
  dict_get (data (fst (render_form entorno_lista estado_color))) (lit "gustos")
  = Some (JArr [JStr (lit "a"); JStr (lit "b"); JStr (lit "c")]).
Proof.
  apply (proj1 (render_form_lista entorno_lista) estado_color
               (fst (render_form entorno_lista estado_color))
               (campos_color (lit "azul")) (lit "gustos")
               [(lit "tipo", JStr (lit "lista"))]).
  - reflexivity.
  - apply keys_unique_NoDup. reflexivity.
  - right. left. reflexivity.
  - reflexivity.
  - reflexivity.
Defined.

(** ** What the form collects is a Submission *)

Lemma colecta_bindM (A B : Type) (m : M A) (f : A -> M B) :
  colecta m -> (forall a, colecta (f a)) -> colecta (bindM m f).
Proof.
  intros Hm Hf st Hs. unfold bindM. specialize (Hm st Hs).
  destruct (m st) as [st1 [a|e]]; simpl in *; [|exact Hm].
  apply Hf, Hm.
Qed.

Lemma colecta_igual (A : Type) (m : M A) :
  (forall st, data (fst (m st)) = data st) -> colecta m.
Proof. intros H st Hs. rewrite H. exact Hs. Qed.

Lemma colecta_set_campo (campo : str) (v : json) :
  encodable campo = true -> is_valor v = true -> colecta (set_campo campo v).
Proof.
  intros Hc Hv st. unfold is_submission. simpl. rewrite !andb_true_iff.
  intros [Hu Hf]. split.
  - apply keys_unique_dict_set, Hu.
  - apply (forallb_dict_set json
             (fun kv => encodable (fst kv) && is_valor (snd kv))); [assumption|].
    simpl. rewrite Hc, Hv. reflexivity.
Qed.

Lemma encodable_lstrip (s : str) : encodable s = true -> encodable (lstrip s) = true.
Proof.
  induction s as [|c s IH]; simpl; [reflexivity|].
  intros H. destruct (isspace c); [|exact H].
  apply andb_true_iff in H. apply IH, H.
Qed.

Lemma encodable_rev (s : str) : encodable s = true -> encodable (rev s) = true.
Proof.
  unfold encodable. rewrite !forallb_forall. intros H c Hc. apply H, in_rev, Hc.
Qed.

Lemma encodable_strip (s : str) : encodable s = true -> encodable (strip s) = true.
Proof.
  intros H. unfold strip, rstrip.
  apply encodable_rev, encodable_lstrip, encodable_rev, encodable_lstrip, H.
Qed.

Lemma encodable_split (sep : char) (s : str) :
  encodable s = true -> forallb encodable (split sep s) = true.
Proof.
  induction s as [|c s IH]; simpl; [reflexivity|].
  intros H. apply andb_true_iff in H. destruct H as [Hc Hs]. specialize (IH Hs).
  destruct (c =? sep); [simpl; exact IH|].
  destruct (split sep s) as [|seg segs]; simpl in *; [rewrite Hc; reflexivity|].
  rewrite Hc. exact IH.
Qed.

Lemma is_valor_lista_de (texto : str) :
  encodable texto = true -> is_valor (JArr (map JStr (lista_de texto))) = true.
Proof.
  intros H. simpl. unfold lista_de.
  pose proof (encodable_split c_comma texto H) as Hs.
  induction (split c_comma texto) as [|i l IH]; [reflexivity|].
  simpl in Hs. apply andb_true_iff in Hs. destruct Hs as [Hi Hl].
  cbn [flat_map]. destruct (truthy (JStr (strip i))); simpl; [|apply IH, Hl].
  rewrite (encodable_strip i Hi). apply IH, Hl.
Qed.

Lemma colecta_render_campo (env : Entorno) (campo : str) (opciones : json) :
  (forall label p, encodable (st_text_input env label p) = true) ->
  encodable campo = true ->
  colecta (render_campo env campo opciones).
Proof.
  intros Henv Hc. unfold render_campo.
  repeat (apply colecta_bindM; [apply colecta_igual; reflexivity | intros ?]).
  repeat match goal with
         | |- colecta (if ?b then _ else _) => destruct b
         | |- colecta (bindM _ _) => apply colecta_bindM; [|intros ?]
         | |- colecta (set_campo _ (JArr (map JStr _))) =>
           apply colecta_set_campo; [assumption | apply is_valor_lista_de, Henv]
         | |- colecta (set_campo _ (JStr _)) =>
           apply colecta_set_campo; [assumption | apply Henv]
         | |- colecta (set_campo _ _) =>
           apply colecta_set_campo; [assumption | reflexivity]
         | |- colecta (validar_regex _ _ _ _) =>
           unfold validar_regex; apply colecta_bindM;
           [apply colecta_igual; reflexivity | intros [|]]
         | |- colecta _ => apply colecta_igual; reflexivity
         end.
Qed.

Lemma colecta_render_campos (env : Entorno) (items : list (str * json)) :
  (forall label p, encodable (st_text_input env label p) = true) ->
  forallb encodable (dict_keys items) = true ->
  colecta (render_campos env items).
Proof.
  intros Henv. induction items as [|[campo opciones] items IH]; simpl;
    [intros _; apply colecta_igual; reflexivity|].
  intros Hk. apply andb_true_iff in Hk. destruct Hk as [Hc Hk].
  apply colecta_bindM; [apply colecta_render_campo; assumption | intros _; exact (IH Hk)].
Qed.

(** After [render_form], whether it completes or raises, [self.data] of a
    fresh object is a Submission: distinct names with a string, an integer, a
    boolean or a list of strings under each; this when the names of the
    fields and the texts entered can be encoded. *)
Lemma render_form_submission (env : Entorno) (st : Estado) :
  (forall label p, encodable (st_text_input env label p) = true) ->
  (forall items, schema st = JObj items -> forallb encodable (dict_keys items) = true) ->
  is_submission (JObj (data st)) = true ->
  is_submission (JObj (data (fst (render_form env st)))) = true.
Proof.
  intros Henv Hk Hs. unfold render_form, bindM, show.
  change (schema (set_pantalla _ st)) with (schema st).
  destruct (schema st) eqn:E; try exact Hs.
  apply (colecta_render_campos env pairs Henv (Hk pairs eq_refl)). exact Hs.
Qed.

(** ** The history store *)

Lemma cargar_para_guardar_mostrar (st : Estado) :
  cargar_para_guardar st = cargar_para_mostrar st.
Proof. reflexivity. Qed.

Lemma write_file_ok (env : Entorno) (path content : str) (st : Estado) :
  encodable content = true ->
  write_file env path content st = (con_archivo path content st, Ok tt).
Proof. intros H. unfold write_file. rewrite H. reflexivity. Qed.

Lemma cargar_tras_escribir (st : Estado) (v : json) :
  json_plain v = true ->
  let st' := con_archivo (historial_path st) (json_dumps v) st in
  cargar_para_mostrar st' = (st', Ok v).
Proof.
  intros Hp. simpl. unfold cargar_para_mostrar. simpl.
  rewrite str_eqb_refl, (json_loads_dumps v Hp). reflexivity.
Qed.


Lemma is_valor_storable (v : json) : is_valor v = true -> storable v = true.
Proof.
  destruct v; simpl; try discriminate; try reflexivity; [intros H; exact H|].
  induction items as [|x l IH]; simpl; [reflexivity|].
  destruct x; simpl; try discriminate.
  intros H. apply andb_true_iff in H. destruct H as [Hs Hl].
  rewrite Hs. apply IH, Hl.
Qed.

Lemma is_valor_keys_ok (v : json) : is_valor v = true -> keys_ok v = true.
Proof.
  destruct v; simpl; try discriminate; try reflexivity.
  induction items as [|x l IH]; simpl; [reflexivity|].
  destruct x; simpl; try discriminate.
  intros H. apply andb_true_iff in H. apply IH, H.
Qed.

Lemma is_submission_storable (v : json) : is_submission v = true -> storable v = true.
Proof.
  destruct v; simpl; try discriminate.
  rewrite andb_true_iff. intros [_ Hv].
  induction pairs as [|[k x] kvs IH]; simpl in *; [reflexivity|].
  rewrite !andb_true_iff in Hv. destruct Hv as [[Hk Hx] Hv].
  rewrite Hk, (is_valor_storable x Hx). apply IH, Hv.
Qed.

Lemma is_submission_keys_ok (v : json) : is_submission v = true -> keys_ok v = true.
Proof.
  destruct v; simpl; try discriminate.
  rewrite !andb_true_iff. intros [Hu Hv]. split; [assumption|]. clear Hu.
  induction pairs as [|[k x] kvs IH]; simpl in *; [reflexivity|].
  rewrite !andb_true_iff in Hv. destruct Hv as [[Hk Hx] Hv].
  rewrite (is_valor_keys_ok x Hx). apply IH, Hv.
Qed.


Lemma cargar_para_mostrar_keys_ok (st st' : Estado) (v : json) :
  cargar_para_mostrar st = (st', Ok v) -> keys_ok v = true.
Proof.
  unfold cargar_para_mostrar.
  destruct (archivos st (historial_path st)) as [content|];
    [|intros H; inversion H; reflexivity].
  destruct (json_loads content) as [x|e] eqn:E.
  - intros H; inversion H; subst. apply (json_loads_keys_ok content v E).
  - destruct e; intros H; inversion H; reflexivity.
Qed.

(** The list with one more entry is written and read back exactly. *)
Lemma ampliado_plain (st st' : Estado) (l : list json) (v : json) :
  cargar_para_mostrar st = (st', Ok (JArr l)) ->
  forallb storable l = true -> is_submission v = true ->
  json_plain (JArr (l ++ [v])) = true /\ storable (JArr (l ++ [v])) = true.
Proof.
  intros Hc Hl Hv. apply cargar_para_mostrar_keys_ok in Hc.
  assert (Hs : storable (JArr (l ++ [v])) = true).
  { simpl. rewrite forallb_app, Hl. simpl.
    rewrite (is_submission_storable v Hv). reflexivity. }
  split; [|exact Hs]. apply keys_storable_plain; [|exact Hs].
  simpl in Hc |- *. rewrite forallb_app, Hc. simpl.
  rewrite (is_submission_keys_ok v Hv). reflexivity.
Qed.

(** The list without one entry is written and read back exactly. *)
Lemma reducido_plain (st st' : Estado) (l : list json) (i : nat) :
  cargar_para_mostrar st = (st', Ok (JArr l)) ->
  forallb storable l = true ->
  json_plain (JArr (firstn i l ++ skipn (S i) l)) = true
  /\ storable (JArr (firstn i l ++ skipn (S i) l)) = true.
Proof.
  intros Hc Hl. apply cargar_para_mostrar_keys_ok in Hc.
  assert (Hin : forall x, In x (firstn i l ++ skipn (S i) l) -> In x l).
  { intros x Hx. apply in_app_or in Hx. destruct Hx as [Hx|Hx].
    - rewrite <- (firstn_skipn i l). apply in_or_app. left. exact Hx.
    - rewrite <- (firstn_skipn (S i) l). apply in_or_app. right. exact Hx. }
  assert (Hs : storable (JArr (firstn i l ++ skipn (S i) l)) = true).
  { simpl. rewrite forallb_forall in *. intros x Hx. apply Hl, Hin, Hx. }
  split; [|exact Hs]. apply keys_storable_plain; [|exact Hs].
  simpl in Hc |- *. rewrite forallb_forall in *. intros x Hx. apply Hc, Hin, Hx.
Qed.

Lemma guardar_historial_escribe (env : Entorno) (st : Estado) (l : list json) :
  cargar_para_mostrar st = (st, Ok (JArr l)) ->
  guardar_historial env st
  = write_file env (historial_path st)
               (json_dumps (JArr (l ++ [JObj (data st)]))) st.
Proof.
  intros H. unfold guardar_historial, bindM.
  rewrite cargar_para_guardar_mostrar, H. reflexivity.
Qed.

Lemma guardar_historial_efecto (env : Entorno) (st : Estado) (l : list json) :
  cargar_para_mostrar st = (st, Ok (JArr l)) ->
  forallb storable l = true ->
  is_submission (JObj (data st)) = true ->
  guardar_historial env st
  = (con_archivo (historial_path st)
                 (json_dumps (JArr (l ++ [JObj (data st)]))) st, Ok tt).
Proof.
  intros Hc Hl Hd. rewrite (guardar_historial_escribe env st l Hc).
  apply write_file_ok, encodable_json_dumps.
  apply (ampliado_plain st st l (JObj (data st)) Hc Hl Hd).
Qed.


(** *** A stored entry with a lone surrogate *)











(** Outside [guardar_historial]'s reach: a history file that holds valid JSON
    which is not an array has no [append]. *)
Example guardar_historial_no_lista :
  snd (guardar_historial entorno_quieto
         (estado_con envio_ejemplo (un_archivo (lit "historial.json") (lit "{}"))))
  = Raise AttributeError.
Proof. reflexivity. Qed.


Lemma eliminar_en_rango (env : Entorno) (st : Estado) (content : str)
      (l : list json) (index : Z) :
  archivos st (historial_path st) = Some content ->
  json_loads content = Ok (JArr l) ->
  forallb storable l = true ->
  (0 <= index < Z.of_nat (length l))%Z ->
  eliminar_entrada_historial env index st
  = (con_archivo (historial_path st)
                 (json_dumps (JArr (firstn (Z.to_nat index) l
                                      ++ skipn (S (Z.to_nat index)) l))) st,
     Raise RerunException).
Proof.
  intros Hf Hj Hl [H0 H1].
  assert (Hc : cargar_para_mostrar st = (st, Ok (JArr l)))
    by (unfold cargar_para_mostrar; rewrite Hf, Hj; reflexivity).
  unfold eliminar_entrada_historial. rewrite Hf, Hj. simpl len.
  apply Z.leb_le in H0. apply Z.ltb_lt in H1. rewrite H0, H1.
  simpl del_item. cbv iota. unfold bindM.
  rewrite write_file_ok; [reflexivity|].
  apply encodable_json_dumps, (reducido_plain st st l (Z.to_nat index) Hc Hl).
Qed.






(** The text of the history file for a sample Submission: two spaces of
    indentation for each level, and the accented letters as they are. *)
Example json_dumps_envio_ejemplo :
  json_dumps (JArr [JObj [(lit "nombre", JStr (lit "María José"));
                          (lit "intereses", JArr [JStr (lit "fútbol")])]])
  = lit "[
  {
    " ++ [c_quote] ++ lit "nombre" ++ [c_quote] ++ lit ": " ++ [c_quote]
      ++ lit "María José" ++ [c_quote] ++ lit ",
    " ++ [c_quote] ++ lit "intereses" ++ [c_quote] ++ lit ": [
      " ++ [c_quote] ++ lit "fútbol" ++ [c_quote] ++ lit "
    ]
  }
]".
Proof. vm_compute. reflexivity. Qed.

(** With [ensure_ascii=False] a character above the ASCII range is written
    as it is. *)
Lemma escape_char_no_ascii (c : char) : 127 < c -> escape_char c = [c].
Proof.
  intros H. unfold escape_char, c_quote, c_backslash, c_lf, c_cr, c_tab.
  repeat match goal with
         | |- context [?a =? ?b] =>
           replace (a =? b) with false by (symmetry; apply N.eqb_neq; lia)
         end.
  replace (c <? 32) with false by (symmetry; apply N.ltb_ge; lia).
  reflexivity.
Qed.

(** *** Missing and undecodable history files *)

Lemma guardar_historial_tolera (env : Entorno) (st : Estado) :
  is_submission (JObj (data st)) = true ->
  archivos st (historial_path st) = None
  \/ (exists content, archivos st (historial_path st) = Some content
                      /\ json_loads content = Raise JSONDecodeError) ->
  guardar_historial env st
  = (con_archivo (historial_path st) (json_dumps (JArr [JObj (data st)])) st, Ok tt).
Proof.
  intros Hd H.
  assert (Hc : cargar_para_mostrar st = (st, Ok (JArr [])))
    by (unfold cargar_para_mostrar;
        destruct H as [->|(content & -> & ->)]; reflexivity).
  apply (guardar_historial_efecto env st [] Hc eq_refl Hd).
Qed.

Lemma cargar_para_mostrar_tolera (st : Estado) :
  archivos st (historial_path st) = None
  \/ (exists content, archivos st (historial_path st) = Some content
                      /\ json_loads content = Raise JSONDecodeError) ->
  cargar_para_mostrar st = (st, Ok (JArr [])).
Proof.
  intros H. unfold cargar_para_mostrar.
  destruct H as [->|(content & -> & ->)]; reflexivity.
Qed.

Lemma eliminar_entrada_historial_sin_archivo (env : Entorno) (st : Estado) (index : Z) :
  archivos st (historial_path st) = None ->
  eliminar_entrada_historial env index st = (st, Ok tt).
Proof. intros H. unfold eliminar_entrada_historial. rewrite H. reflexivity. Qed.

(** [eliminar_entrada_historial] has no handler around [json.load]. *)
Lemma eliminar_entrada_historial_no_tolera (env : Entorno) (st : Estado)
      (content : str) (index : Z) :
  archivos st (historial_path st) = Some content ->
  json_loads content = Raise JSONDecodeError ->
  eliminar_entrada_historial env index st = (st, Raise JSONDecodeError).
Proof.
  intros Hf Hj. unfold eliminar_entrada_historial. rewrite Hf, Hj. reflexivity.
Qed.

(** C5: with a history file whose content is not JSON,
    [eliminar_entrada_historial] raises [JSONDecodeError], where
    [guardar_historial] and [mostrar_historial] take the log as empty. *)
Theorem eliminar_entrada_historial_corrupto :
  json_loads (lit "{") = Raise JSONDecodeError
  /\ eliminar_entrada_historial entorno_quieto 0 estado_corrupto
     = (estado_corrupto, Raise JSONDecodeError)
  /\ cargar_para_mostrar estado_corrupto = (estado_corrupto, Ok (JArr []))
  /\ exists st', guardar_historial entorno_quieto estado_corrupto = (st', Ok tt)
                 /\ cargar_para_mostrar st' = (st', Ok (JArr [JObj envio_ejemplo])).
Proof.
  split; [reflexivity|]. split; [reflexivity|]. split; [reflexivity|].
  eexists. split; [reflexivity|]. vm_compute. reflexivity.
Qed.

(** ** The remote submission *)

Lemma mantiene_bindM (A B : Type) (m : M A) (k : A -> M B) :
  mantiene m -> (forall a, mantiene (k a)) -> mantiene (bindM m k).
Proof.
  intros Hm Hk st. unfold bindM. specialize (Hm st).
  destruct (m st) as [st1 [a|e]]; simpl in *; [|exact Hm].
  destruct Hm as [Hd Hp]. destruct (Hk a st1) as [Hd' Hp']. split; congruence.
Qed.

Lemma mantiene_show (e : elemento) : mantiene (show e).
Proof. intros st. split; reflexivity. Qed.

Lemma mantiene_ret (A : Type) (a : A) : mantiene (ret a).
Proof. intros st. split; reflexivity. Qed.

Lemma mantiene_write_file (env : Entorno) (path content : str) :
  mantiene (write_file env path content).
Proof.
  intros st. unfold write_file. destruct (encodable content); split; reflexivity.
Qed.

Lemma mantiene_guardar_historial (env : Entorno) : mantiene (guardar_historial env).
Proof.
  intros st. unfold guardar_historial, bindM, cargar_para_guardar.
  destruct (archivos st (historial_path st)) as [content|].
  - destruct (json_loads content) as [[]|[]]; try (split; reflexivity);
      apply mantiene_write_file.
  - apply mantiene_write_file.
Qed.

Lemma envia_solo_bindM (A B : Type) (cond : Prop) (url : str) (m : M A) (k : A -> M B) :
  mantiene m -> (forall a, envia_solo cond url (k a)) ->
  envia_solo cond url (bindM m k).
Proof.
  intros Hm Hk st. unfold bindM. specialize (Hm st).
  destruct (m st) as [st1 [a|e]]; simpl in *;
    [|destruct Hm; split; [assumption | left; assumption]].
  destruct Hm as [Hd Hp]. destruct (Hk a st1) as [Hd' Hp'].
  rewrite Hd, Hp in *. split; assumption.
Qed.

Lemma envia_solo_mantiene (A : Type) (cond : Prop) (url : str) (m : M A) :
  mantiene m -> envia_solo cond url m.
Proof. intros Hm st. destruct (Hm st). split; [assumption | left; assumption]. Qed.

Lemma envia_solo_enviar_a_url (env : Entorno) (enviar : bool) (url : str) :
  envia_solo (enviar = true /\ url <> []) url (enviar_a_url env enviar url).
Proof.
  intros st. unfold enviar_a_url.
  destruct enviar; [|split; [|left]; reflexivity].
  destruct url as [|c url]; [split; [|left]; reflexivity|].
  change (truthy (JStr (c :: url))) with true. cbv iota.
  split.
  - destruct (requests_post env (c :: url) (JObj (data st))) as [code|m];
      [destruct (code =? 200)%Z|]; reflexivity.
  - right. split; [split; [reflexivity | discriminate]|].
    destruct (requests_post env (c :: url) (JObj (data st))) as [code|m];
      [destruct (code =? 200)%Z|]; reflexivity.
Qed.

(** C7: the remote submission returns without raising whatever the server
    answers; with a URL, it sends the Submission and shows one message, which
    is the message of success exactly when the response has status 200, a
    warning with the code for any other status, and an error with the text of
    the exception when the request raises. *)
Theorem enviar_a_url_informa (env : Entorno) (st : Estado) (url : str) :
  (forall enviar url', snd (enviar_a_url env enviar url' st) = Ok tt)
  /\ (url <> [] ->
      peticiones (fst (enviar_a_url env true url st))
      = peticiones st ++ [(url, JObj (data st))]
      /\ exists e,
          pantalla (fst (enviar_a_url env true url st)) = pantalla st ++ [e]
          /\ (e = st_success (lit "✅ Datos enviados correctamente.")
              <-> requests_post env url (JObj (data st)) = Response 200)
          /\ match requests_post env url (JObj (data st)) with
             | Response code =>
               code <> 200%Z ->
               e = st_warning (lit "⚠️ Error al enviar: Código " ++ repr_int code)
             | Fallo m => e = st_error (lit "❌ Fallo al enviar: " ++ m)
             end).
Proof.
  split.
  - intros enviar url'. unfold enviar_a_url.
    destruct enviar; [|reflexivity].
    destruct (truthy (JStr url')); [|reflexivity].
    destruct (requests_post env url' (JObj (data st))) as [code|m];
      [destruct (code =? 200)%Z|]; reflexivity.
  - intros Hu. destruct url as [|c url]; [congruence|].
    unfold enviar_a_url.
    change (truthy (JStr (c :: url))) with true. cbv iota beta.
    destruct (requests_post env (c :: url) (JObj (data st))) as [code|m].
    + destruct (code =? 200)%Z eqn:Ec.
      * apply Z.eqb_eq in Ec. subst code.
        split; [reflexivity|]. eexists. split; [reflexivity|].
        split; [tauto | congruence].
      * apply Z.eqb_neq in Ec.
        split; [reflexivity|]. eexists. split; [reflexivity|].
        split; [|reflexivity].
        split; [discriminate | intros H; inversion H; congruence].
    + split; [reflexivity|]. eexists. split; [reflexivity|].
      split; [|reflexivity]. split; discriminate.
Qed.

Lemma enviar_a_url_informa_witness :
  peticiones (fst (enviar_a_url entorno_404 true url_ejemplo estado_ejemplo))
  = peticiones estado_ejemplo ++ [(url_ejemplo, JObj (data estado_ejemplo))]
  /\ exists e,
      pantalla (fst (enviar_a_url entorno_404 true url_ejemplo estado_ejemplo))
      = pantalla estado_ejemplo ++ [e]
      /\ (e = st_success (lit "✅ Datos enviados correctamente.")
          <-> requests_post entorno_404 url_ejemplo (JObj (data estado_ejemplo))
              = Response 200)
      /\ match requests_post entorno_404 url_ejemplo (JObj (data estado_ejemplo)) with
         | Response code =>
           code <> 200%Z ->
           e = st_warning (lit "⚠️ Error al enviar: Código " ++ repr_int code)
         | Fallo m => e = st_error (lit "❌ Fallo al enviar: " ++ m)
         end.
Proof.
  apply (proj2 (enviar_a_url_informa entorno_404 estado_ejemplo url_ejemplo)).
  discriminate.
Defined.

Lemma envia_solo_render_output (env : Entorno) :
  envia_solo
    (st_form_submit_button env (lit "🚀 Enviar") = true
     /\ st_text_input env (lit "Ingresá la URL donde enviar el JSON:")
                      (JStr (lit "https://api.tuservidor.com/datos")) <> [])
    (st_text_input env (lit "Ingresá la URL donde enviar el JSON:")
                   (JStr (lit "https://api.tuservidor.com/datos")))
    (render_output env).
Proof.
  unfold render_output. apply envia_solo_bindM; [apply mantiene_show|]. intros _ st.
  destruct (errores st) as [|e es].
  - lazymatch goal with
    | |- data (fst (?m ?s)) = _ /\ _ => refine ((_ : envia_solo _ _ m) s)
    end.
    repeat (apply envia_solo_bindM; [|intros _]);
      try apply mantiene_show.
    + destruct (st_button env _ None); [|apply mantiene_ret].
      apply mantiene_bindM; [apply mantiene_guardar_historial|].
      intros _. apply mantiene_show.
    + apply envia_solo_enviar_a_url.
  - lazymatch goal with
    | |- data (fst (?m ?s)) = _ /\ _ => refine ((_ : envia_solo _ _ m) s)
    end.
    apply envia_solo_mantiene.
    apply mantiene_bindM; [apply mantiene_show|]. intros _.
    induction (e :: es) as [|[campo mensaje] l IH]; [apply mantiene_ret|].
    simpl. apply mantiene_bindM; [apply mantiene_show|]. intros _. exact IH.
Qed.

(** C10: when the button of the form is pressed with an empty URL, no request
    is sent and the warning is shown; in a whole [render_output], either no
    request is sent, or the button was pressed and the URL typed is not empty
    and one request is sent, to that URL with the Submission as JSON body. *)
Theorem enviar_a_url_vacia (env : Entorno) (st : Estado) :
  enviar_a_url env true [] st
  = (set_pantalla
       (pantalla st ++ [st_warning (lit "⚠️ Debés ingresar una URL válida.")]) st,
     Ok tt)
  /\ peticiones (fst (enviar_a_url env true [] st)) = peticiones st
  /\ (peticiones (fst (render_output env st)) = peticiones st
      \/ ((st_form_submit_button env (lit "🚀 Enviar") = true
           /\ st_text_input env (lit "Ingresá la URL donde enviar el JSON:")
                            (JStr (lit "https://api.tuservidor.com/datos")) <> [])
          /\ peticiones (fst (render_output env st))
             = peticiones st
                 ++ [(st_text_input env (lit "Ingresá la URL donde enviar el JSON:")
                                    (JStr (lit "https://api.tuservidor.com/datos")),
                      JObj (data st))])).
Proof.
  split; [reflexivity|]. split; [reflexivity|].
  exact (proj2 (envia_solo_render_output env st)).
Qed.

(** * Further properties of the methods *)

(** ** The fields of the form, kind by kind *)

Lemma render_form_campos_eq (env : Entorno) (st : Estado) (items : list (str * json)) :
  schema st = JObj items ->
  render_form env st
  = render_campos env items (set_pantalla (pantalla st ++ [titulo]) st).
Proof. intros Hs. unfold render_form, bindM, show. simpl. rewrite Hs. reflexivity. Qed.

Lemma render_campos_partes (env : Entorno) (pre post : list (str * json))
      (campo : str) (opciones : json) (st st' : Estado) :
  render_campos env (pre ++ (campo, opciones) :: post) st = (st', Ok tt) ->
  exists st1 st2,
    render_campos env pre st = (st1, Ok tt)
    /\ render_campo env campo opciones st1 = (st2, Ok tt)
    /\ render_campos env post st2 = (st', Ok tt).
Proof.
  rewrite render_campos_app. unfold bindM.
  destruct (render_campos env pre st) as [st1 [[]|e]]; [|discriminate].
  simpl. unfold bindM.
  destruct (render_campo env campo opciones st1) as [st2 [[]|e]] eqn:E; [|discriminate].
  intros H. exists st1, st2. split; [reflexivity|]. split; [exact E | exact H].
Qed.

Lemma render_campo_numero (env : Entorno) (st : Estado) (campo : str)
      (kvs : list (str * json)) :
  dict_get kvs (lit "tipo") = Some (JStr (lit "numero")) ->
  render_campo env campo (JObj kvs) st
  = match st_number_input env (capitalize env campo)
            (match dict_get kvs (lit "min") with Some m => m | None => JInt 0 end)
            (match dict_get kvs (lit "max") with Some m => m | None => JInt 100 end)
    with
    | Ok n => (set_data (dict_set (data st) campo (JInt n)) st, Ok tt)
    | Raise e => (st, Raise e)
    end.
Proof.
  intros Ht. unfold render_campo, opciones_get, lift, bindM. rewrite Ht.
  change (is_str (JStr (lit "numero")) (lit "texto")) with false.
  change (is_str (JStr (lit "numero")) (lit "numero")) with true. cbv iota.
  destruct (st_number_input env _ _ _); reflexivity.
Qed.

Lemma render_campo_booleano (env : Entorno) (st : Estado) (campo : str)
      (kvs : list (str * json)) :
  dict_get kvs (lit "tipo") = Some (JStr (lit "booleano")) ->
  render_campo env campo (JObj kvs) st
  = (set_data (dict_set (data st) campo
                        (JBool (st_checkbox env (capitalize env campo)))) st,
     Ok tt).
Proof.
  intros Ht. unfold render_campo, opciones_get, lift, bindM. rewrite Ht.
  reflexivity.
Qed.

Lemma render_campo_texto_sin_validar (env : Entorno) (st : Estado) (campo : str)
      (kvs : list (str * json)) :
  dict_get kvs (lit "tipo") = Some (JStr (lit "texto")) ->
  let valor :=
    st_text_input env (capitalize env campo)
                  (match dict_get kvs (lit "placeholder") with
                   | Some p => p
                   | None => JStr []
                   end) in
  valor = []
  \/ truthy (match dict_get kvs (lit "regex") with Some r => r | None => JNull end)
     = false ->
  render_campo env campo (JObj kvs) st
  = (set_data (dict_set (data st) campo (JStr valor)) st, Ok tt).
Proof.
  intros Ht valor H.
  unfold render_campo, opciones_get, lift, bindM. rewrite Ht.
  change (is_str (JStr (lit "texto")) (lit "texto")) with true. cbv iota.
  fold valor.
  replace (truthy (JStr valor)
           && truthy (match dict_get kvs (lit "regex") with
                      | Some r => r
                      | None => JNull
                      end)) with false; [reflexivity|].
  destruct H as [->| ->]; [reflexivity | rewrite andb_false_r; reflexivity].
Qed.

(** X1: for a number field of a schema with distinct names, when
    [render_form] completes, the value stored under the name of the field is
    the integer that [st.number_input] returned for the label of the field,
    asked with the bounds under [min] and [max] of the field, 0 and 100 when
    they are absent. *)
Theorem render_form_numero (env : Entorno) (st st' : Estado)
        (items : list (str * json)) (campo : str) (kvs : list (str * json)) :
  schema st = JObj items ->
  NoDup (dict_keys items) ->
  In (campo, JObj kvs) items ->
  dict_get kvs (lit "tipo") = Some (JStr (lit "numero")) ->
  render_form env st = (st', Ok tt) ->
  exists n,
    st_number_input env (capitalize env campo)
      (match dict_get kvs (lit "min") with Some m => m | None => JInt 0 end)
      (match dict_get kvs (lit "max") with Some m => m | None => JInt 100 end)
    = Ok n
    /\ dict_get (data st') campo = Some (JInt n).
Proof.
  intros Hs Hn Hin Ht Hrun.
  destruct (render_form_campo env st st' items campo (JObj kvs) Hs Hn Hin Hrun)
    as (st1 & st2 & Hd1 & He1 & Hstep & Hd2 & He2).
  rewrite (render_campo_numero env st1 campo kvs Ht) in Hstep.
  destruct (st_number_input env _ _ _) as [n|e]; [|discriminate].
  exists n. split; [reflexivity|].
  rewrite (dict_get_por_entradas _ _ _ _ Hd2).
  inversion Hstep; subst st2. unfold set_data; cbn [data].
  apply dict_get_dict_set.
Qed.

Lemma render_form_numero_witness :
  exists n,
    st_number_input entorno_rojo (capitalize entorno_rojo (lit "edad"))
                    (JInt 18) (JInt 100) = Ok n
    /\ dict_get (data (fst (render_form entorno_rojo estado_ficha))) (lit "edad")
       = Some (JInt n).
Proof.
  apply (render_form_numero entorno_rojo estado_ficha
           (fst (render_form entorno_rojo estado_ficha)) campos_ficha (lit "edad")
           [(lit "tipo", JStr (lit "numero")); (lit "min", JInt 18)]).
  - reflexivity.
  - apply keys_unique_NoDup. reflexivity.
  - right. left. reflexivity.
  - reflexivity.
  - reflexivity.
Defined.

(** X2: for a boolean field of a schema with distinct names, when
    [render_form] completes, the value stored under the name of the field is
    the state of the checkbox with the label of the field. *)
Theorem render_form_booleano (env : Entorno) (st st' : Estado)
        (items : list (str * json)) (campo : str) (kvs : list (str * json)) :
  schema st = JObj items ->
  NoDup (dict_keys items) ->
  In (campo, JObj kvs) items ->
  dict_get kvs (lit "tipo") = Some (JStr (lit "booleano")) ->
  render_form env st = (st', Ok tt) ->
  dict_get (data st') campo = Some (JBool (st_checkbox env (capitalize env campo))).
Proof.
  intros Hs Hn Hin Ht Hrun.
  destruct (render_form_campo env st st' items campo (JObj kvs) Hs Hn Hin Hrun)
    as (st1 & st2 & Hd1 & He1 & Hstep & Hd2 & He2).
  rewrite (render_campo_booleano env st1 campo kvs Ht) in Hstep.
  rewrite (dict_get_por_entradas _ _ _ _ Hd2).
  inversion Hstep; subst st2. unfold set_data; cbn [data].
  apply dict_get_dict_set.
Qed.

Lemma render_form_booleano_witness :
  dict_get (data (fst (render_form entorno_rojo estado_ficha))) (lit "activo")
  = Some (JBool false).
Proof.
  apply (render_form_booleano entorno_rojo estado_ficha
           (fst (render_form entorno_rojo estado_ficha)) campos_ficha (lit "activo")
           [(lit "tipo", JStr (lit "booleano"))]).
  - reflexivity.
  - apply keys_unique_NoDup. reflexivity.
  - right. right. left. reflexivity.
  - reflexivity.
  - reflexivity.
Defined.

(** X3: a text field is not checked when nothing has been entered in it, or
    when the schema gives it no pattern (none, [null] or the empty string):
    when [render_form] completes, the value entered is stored under the name
    of the field and the errors under that name are what they were. *)
Theorem render_form_sin_validar (env : Entorno) (st st' : Estado)
        (items : list (str * json)) (campo : str) (kvs : list (str * json)) :
  schema st = JObj items ->
  NoDup (dict_keys items) ->
  In (campo, JObj kvs) items ->
  dict_get kvs (lit "tipo") = Some (JStr (lit "texto")) ->
  let valor :=
    st_text_input env (capitalize env campo)
                  (match dict_get kvs (lit "placeholder") with
                   | Some p => p
                   | None => JStr []
                   end) in
  valor = []
  \/ truthy (match dict_get kvs (lit "regex") with Some r => r | None => JNull end)
     = false ->
  render_form env st = (st', Ok tt) ->
  dict_get (data st') campo = Some (JStr valor)
  /\ entradas (errores st') campo = entradas (errores st) campo.
Proof.
  intros Hs Hn Hin Ht valor Hv Hrun.
  destruct (render_form_campo env st st' items campo (JObj kvs) Hs Hn Hin Hrun)
    as (st1 & st2 & Hd1 & He1 & Hstep & Hd2 & He2).
  rewrite (render_campo_texto_sin_validar env st1 campo kvs Ht Hv) in Hstep.
  fold valor in Hstep.
  rewrite (dict_get_por_entradas _ _ _ _ Hd2), He2.
  inversion Hstep; subst st2. unfold set_data; cbn [data errores].
  split; [apply dict_get_dict_set | exact He1].
Qed.

Lemma render_form_sin_validar_witness :
  dict_get (data (fst (render_form entorno_quieto estado_ficha))) (lit "nombre")
  = Some (JStr [])
  /\ entradas (errores (fst (render_form entorno_quieto estado_ficha))) (lit "nombre")
     = entradas (errores estado_ficha) (lit "nombre").
Proof.
  apply (render_form_sin_validar entorno_quieto estado_ficha
           (fst (render_form entorno_quieto estado_ficha)) campos_ficha (lit "nombre")
           [(lit "tipo", JStr (lit "texto")); (lit "regex", JStr (lit "Ana"))]).
  - reflexivity.
  - apply keys_unique_NoDup. reflexivity.
  - left. reflexivity.
  - reflexivity.
  - left. reflexivity.
  - reflexivity.
Defined.

(** ** Fields of a kind that the form does not know *)

Lemma anota_bindM (A B : Type) (m : M A) (k : A -> M B) :
  anota m -> (forall a, anota (k a)) -> anota (bindM m k).
Proof.
  intros Hm Hk st. unfold bindM. destruct (Hm st) as [mas E].
  destruct (m st) as [st1 [a|e]]; simpl in *; [|exists mas; exact E].
  destruct (Hk a st1) as [mas' E']. exists (mas ++ mas').
  rewrite E', E, app_assoc. reflexivity.
Qed.

Lemma anota_igual (A : Type) (m : M A) :
  (forall st, pantalla (fst (m st)) = pantalla st) -> anota m.
Proof. intros H st. exists []. rewrite app_nil_r. apply H. Qed.

Lemma anota_show (e : elemento) : anota (show e).
Proof. intros st. exists [e]. reflexivity. Qed.

Lemma anota_render_campo (env : Entorno) (campo : str) (opciones : json) :
  anota (render_campo env campo opciones).
Proof.
  unfold render_campo.
  repeat (apply anota_bindM; [apply anota_igual; reflexivity | intros ?]).
  repeat match goal with
         | |- anota (if ?b then _ else _) => destruct b
         | |- anota (bindM _ _) => apply anota_bindM; [|intros ?]
         | |- anota (show _) => apply anota_show
         | |- anota (validar_regex _ _ _ _) =>
           unfold validar_regex; apply anota_bindM;
           [apply anota_igual; reflexivity | intros [|]]
         | |- anota _ => apply anota_igual; reflexivity
         end.
Qed.

Lemma anota_render_campos (env : Entorno) (items : list (str * json)) :
  anota (render_campos env items).
Proof.
  induction items as [|[campo opciones] items IH]; simpl;
    [apply anota_igual; reflexivity|].
  apply anota_bindM; [apply anota_render_campo | intros _; exact IH].
Qed.

Lemma render_campo_otro (env : Entorno) (st : Estado) (campo : str)
      (kvs : list (str * json)) :
  tipo_reconocido (JObj kvs) = false ->
  render_campo env campo (JObj kvs) st
  = show (st_warning
            (lit "Tipo no reconocido: "
               ++ py_str env (match dict_get kvs (lit "tipo") with
                              | Some t => t
                              | None => JNull
                              end))) st.
Proof.
  unfold tipo_reconocido, render_campo, opciones_get, lift, bindM.
  rewrite !orb_false_iff. intros [[[H1 H2] H3] H4]. rewrite H1, H2, H3, H4.
  reflexivity.
Qed.

(** X4: a field whose kind is none of [texto], [numero], [booleano] and
    [lista] (or that has no kind) is left out of the Submission: when
    [render_form] completes, what the Submission holds under the name of the
    field is what it held before, and the page shows the warning
    ["Tipo no reconocido: "] followed by the kind. *)
Theorem render_form_tipo_no_reconocido (env : Entorno) (st st' : Estado)
        (items : list (str * json)) (campo : str) (kvs : list (str * json)) :
  schema st = JObj items ->
  NoDup (dict_keys items) ->
  In (campo, JObj kvs) items ->
  tipo_reconocido (JObj kvs) = false ->
  render_form env st = (st', Ok tt) ->
  entradas (data st') campo = entradas (data st) campo
  /\ In (st_warning
           (lit "Tipo no reconocido: "
              ++ py_str env (match dict_get kvs (lit "tipo") with
                             | Some t => t
                             | None => JNull
                             end)))
        (pantalla st').
Proof.
  intros Hs Hn Hin Ht Hrun.
  apply in_split in Hin. destruct Hin as (pre & post & ->).
  unfold dict_keys in Hn. rewrite map_app in Hn. simpl in Hn.
  pose proof (NoDup_remove_2 _ _ _ Hn) as Hnot.
  assert (Hpre : ~ In campo (dict_keys pre))
    by (intros H; apply Hnot, in_or_app; left; exact H).
  assert (Hpost : ~ In campo (dict_keys post))
    by (intros H; apply Hnot, in_or_app; right; exact H).
  rewrite (render_form_campos_eq env st _ Hs) in Hrun.
  apply render_campos_partes in Hrun.
  destruct Hrun as (sa & sb & Hsa & Hcampo & Hsb).
  rewrite (render_campo_otro env sa campo kvs Ht) in Hcampo.
  unfold show in Hcampo. inversion Hcampo; subst sb. clear Hcampo.
  destruct (ajeno_render_campos env campo pre Hpre
              (set_pantalla (pantalla st ++ [titulo]) st)) as [Ha _].
  rewrite Hsa in Ha. cbn [fst] in Ha.
  match type of Hsb with
  | render_campos _ _ ?s = _ =>
    destruct (ajeno_render_campos env campo post Hpost s) as [Hb _];
    destruct (anota_render_campos env post s) as [mas E]
  end.
  rewrite Hsb in Hb, E. cbn [fst] in Hb, E.
  split; [exact (eq_trans Hb Ha)|].
  rewrite E. apply in_or_app. left. apply in_or_app. right. left. reflexivity.
Qed.

Lemma render_form_tipo_no_reconocido_witness :
  entradas (data (fst (render_form entorno_rojo estado_ficha))) (lit "foto")
  = entradas (data estado_ficha) (lit "foto")
  /\ In (st_warning (lit "Tipo no reconocido: " ++ lit "imagen"))
        (pantalla (fst (render_form entorno_rojo estado_ficha))).
Proof.
  apply (render_form_tipo_no_reconocido entorno_rojo estado_ficha
           (fst (render_form entorno_rojo estado_ficha)) campos_ficha (lit "foto")
           [(lit "tipo", JStr (lit "imagen"))]).
  - reflexivity.
  - apply keys_unique_NoDup. reflexivity.
  - do 4 right. left. reflexivity.
  - reflexivity.
  - reflexivity.
Defined.

(** ** The names in the Submission *)

Lemma render_campo_no_objeto (env : Entorno) (campo : str) (opciones : json)
      (st : Estado) :
  is_object opciones = false ->
  render_campo env campo opciones st = (st, Raise AttributeError).
Proof. destruct opciones; try discriminate; reflexivity. Qed.

Lemma render_campo_reconocido (env : Entorno) (campo : str) (kvs : list (str * json))
      (st st1 : Estado) :
  tipo_reconocido (JObj kvs) = true ->
  render_campo env campo (JObj kvs) st = (st1, Ok tt) ->
  exists v, data st1 = dict_set (data st) campo v.
Proof.
  unfold tipo_reconocido, render_campo, opciones_get, lift, bindM.
  set (tipo := match dict_get kvs (lit "tipo") with Some v => v | None => JNull end).
  destruct (is_str tipo (lit "texto")).
  - intros _.
    destruct (truthy (JStr _) && truthy _).
    + unfold validar_regex, lift, bindM.
      destruct (fullmatch env _ _) as [[|]|e]; simpl; intros H; inversion H;
        eexists; reflexivity.
    + intros H; inversion H. eexists; reflexivity.
  - destruct (is_str tipo (lit "numero")).
    + intros _. destruct (st_number_input env _ _ _) as [n|e];
        intros H; inversion H. eexists; reflexivity.
    + destruct (is_str tipo (lit "booleano")).
      * intros _ H; inversion H. eexists; reflexivity.
      * destruct (is_str tipo (lit "lista")); [|discriminate].
        intros _ H; inversion H. eexists; reflexivity.
Qed.

Lemma render_campos_claves (env : Entorno) (items : list (str * json)) :
  forall st st',
    NoDup (dict_keys items) ->
    (forall k, In k (dict_keys items) -> ~ In k (dict_keys (data st))) ->
    render_campos env items st = (st', Ok tt) ->
    dict_keys (data st')
    = dict_keys (data st)
        ++ dict_keys (filter (fun kv => tipo_reconocido (snd kv)) items).
Proof.
  induction items as [|[campo opciones] items IH]; intros st st' Hn Hfresh Hrun.
  - inversion Hrun; subst. simpl. rewrite app_nil_r. reflexivity.
  - simpl in Hrun. unfold bindM in Hrun.
    destruct (render_campo env campo opciones st) as [st1 [[]|e]] eqn:E;
      [|discriminate].
    inversion Hn as [|? ? Hnot Hn']; subst.
    assert (Hc : ~ In campo (dict_keys (data st)))
      by (apply Hfresh; left; reflexivity).
    destruct opciones as [| | | | | |kvs];
      try (rewrite render_campo_no_objeto in E by reflexivity; discriminate).
    cbn [filter snd].
    destruct (tipo_reconocido (JObj kvs)) eqn:Et.
    + destruct (render_campo_reconocido env campo kvs st st1 Et E) as [v Hv].
      assert (Hk : dict_keys (data st1) = dict_keys (data st) ++ [campo]).
      { rewrite Hv. unfold dict_keys. rewrite dict_set_fresh by exact Hc.
        rewrite map_app. reflexivity. }
      rewrite (IH st1 st' Hn'); [| |exact Hrun].
      * rewrite Hk, <- app_assoc. reflexivity.
      * intros k Hin. rewrite Hk. intros Hin'. apply in_app_or in Hin'.
        destruct Hin' as [Hin'|[->|[]]].
        -- apply (Hfresh k); [right; exact Hin | exact Hin'].
        -- apply Hnot. exact Hin.
    + rewrite (render_campo_otro env st campo kvs Et) in E.
      unfold show in E. injection E as E. subst st1.
      refine (IH _ st' Hn' _ Hrun).
      intros k Hin. apply (Hfresh k). right. exact Hin.
Qed.

(** X5: when [render_form] completes on a fresh object whose schema has
    distinct names, the names in the Submission are the names of the fields
    of the four known kinds, in the order of the schema; the fields of any
    other kind are not in it. *)
Theorem render_form_claves (env : Entorno) (st st' : Estado)
        (items : list (str * json)) :
  schema st = JObj items ->
  NoDup (dict_keys items) ->
  data st = [] ->
  render_form env st = (st', Ok tt) ->
  dict_keys (data st')
  = dict_keys (filter (fun kv => tipo_reconocido (snd kv)) items).
Proof.
  intros Hs Hn Hd Hrun.
  rewrite (render_form_campos_eq env st _ Hs) in Hrun.
  assert (Hfresh : forall k, In k (dict_keys items) ->
                             ~ In k (dict_keys (data (set_pantalla
                                                        (pantalla st ++ [titulo]) st))))
    by (cbn [data set_pantalla]; rewrite Hd; intros k _ []).
  rewrite (render_campos_claves env items _ st' Hn Hfresh Hrun).
  cbn [data set_pantalla]. rewrite Hd. reflexivity.
Qed.

Lemma render_form_claves_witness :
  dict_keys (data (fst (render_form entorno_rojo estado_ficha)))
  = [lit "nombre"; lit "edad"; lit "activo"; lit "gustos"; lit "apodo"].
Proof.
  apply (render_form_claves entorno_rojo estado_ficha
           (fst (render_form entorno_rojo estado_ficha)) campos_ficha).
  - reflexivity.
  - apply keys_unique_NoDup. reflexivity.
  - reflexivity.
  - reflexivity.
Defined.

(** X6: [render_form] completes only on a schema that is an object whose
    fields all have an object for their options: on anything else it raises
    (a list, a string or a number has neither [items] nor [get]). *)
Theorem render_form_opciones_objetos (env : Entorno) (st st' : Estado) :
  render_form env st = (st', Ok tt) ->
  exists items,
    schema st = JObj items
    /\ Forall (fun kv => is_object (snd kv) = true) items.
Proof.
  intros Hrun. destruct (schema st) as [| | | | | |items] eqn:Hs;
    try (unfold render_form, bindM, show in Hrun; simpl in Hrun;
         rewrite Hs in Hrun; discriminate).
  exists items. split; [reflexivity|].
  rewrite (render_form_campos_eq env st _ Hs) in Hrun.
  revert Hrun. generalize (set_pantalla (pantalla st ++ [titulo]) st).
  clear Hs. induction items as [|[campo opciones] items IH]; intros s Hrun;
    constructor.
  - simpl in Hrun |- *. unfold bindM in Hrun.
    destruct opciones; try reflexivity;
      rewrite render_campo_no_objeto in Hrun by reflexivity; discriminate.
  - simpl in Hrun. unfold bindM in Hrun.
    destruct (render_campo env campo opciones s) as [s1 [[]|e]]; [|discriminate].
    apply (IH s1 Hrun).
Qed.

Lemma render_form_opciones_objetos_witness :
  exists items,
    schema estado_ficha = JObj items
    /\ Forall (fun kv => is_object (snd kv) = true) items.
Proof.
  apply (render_form_opciones_objetos entorno_rojo estado_ficha
           (fst (render_form entorno_rojo estado_ficha))).
  reflexivity.
Defined.

(** ** Where the errors come from *)

Lemma in_dict_set (V : Type) (d : list (str * V)) (k : str) (v : V) (kv : str * V) :
  In kv (dict_set d k v) -> In kv d \/ kv = (k, v).
Proof.
  induction d as [|[k0 v0] d IH]; simpl.
  - intros [<-|[]]. right. reflexivity.
  - destruct (str_eqb k0 k) eqn:E; simpl.
    + apply str_eqb_eq in E. subst k0. intros [<-|H]; auto.
    + intros [<-|H]; auto. destruct (IH H); auto.
Qed.

Lemma is_str_eq (v : json) (s : str) : is_str v s = true -> v = JStr s.
Proof.
  destruct v; simpl; try discriminate. intros H. apply str_eqb_eq in H. congruence.
Qed.

Lemma render_campo_errores (env : Entorno) (campo : str) (opciones : json)
      (st : Estado) :
  errores (fst (render_campo env campo opciones st)) = errores st
  \/ (rechazado env campo opciones
      /\ errores (fst (render_campo env campo opciones st))
         = dict_set (errores st) campo (formato_invalido campo)).
Proof.
  destruct opciones as [| | | | | |kvs]; try (left; reflexivity).
  unfold render_campo, opciones_get, lift, bindM.
  destruct (dict_get kvs (lit "tipo")) as [tipo|] eqn:Ht; [|left; reflexivity].
  destruct (is_str tipo (lit "texto")) eqn:E1.
  - apply is_str_eq in E1. subst tipo.
    set (valor := st_text_input env (capitalize env campo)
                                (match dict_get kvs (lit "placeholder") with
                                 | Some p => p
                                 | None => JStr []
                                 end)).
    destruct (truthy (JStr valor)) eqn:Ev; [|left; reflexivity].
    destruct (dict_get kvs (lit "regex")) as [regex|] eqn:Hr; [|left; reflexivity].
    destruct (truthy regex) eqn:Er; [|left; reflexivity].
    simpl andb. cbv iota.
    unfold validar_regex, fullmatch, lift, bindM.
    destruct regex as [| | | |r| |]; try (left; reflexivity).
    destruct (re_fullmatch env r valor) as [[|]|e] eqn:Em; try (left; reflexivity).
    right. split; [|reflexivity].
    exists kvs, r. fold valor. repeat split; try assumption.
    + intros ->. discriminate Er.
    + intros E. rewrite E in Ev. discriminate Ev.
  - destruct (is_str tipo (lit "numero")).
    + destruct (st_number_input env _ _ _); left; reflexivity.
    + destruct (is_str tipo (lit "booleano")); [left; reflexivity|].
      destruct (is_str tipo (lit "lista")); left; reflexivity.
Qed.

Lemma render_campos_errores (env : Entorno) (items : list (str * json)) :
  forall st campo mensaje,
    In (campo, mensaje) (errores (fst (render_campos env items st))) ->
    In (campo, mensaje) (errores st)
    \/ (mensaje = formato_invalido campo
        /\ exists opciones, In (campo, opciones) items /\ rechazado env campo opciones).
Proof.
  induction items as [|[c o] items IH]; intros st campo mensaje Hin;
    [left; exact Hin|].
  assert (Hstep : forall s, s = fst (render_campo env c o st) ->
                            In (campo, mensaje) (errores s) ->
                            In (campo, mensaje) (errores st)
                            \/ (mensaje = formato_invalido campo
                                /\ exists opciones,
                                    In (campo, opciones) ((c, o) :: items)
                                    /\ rechazado env campo opciones)).
  { intros s -> Hs.
    destruct (render_campo_errores env c o st) as [E|[Hr E]];
      rewrite E in Hs; [left; exact Hs|].
    apply in_dict_set in Hs. destruct Hs as [Hs|Hs]; [left; exact Hs|].
    inversion Hs; subst. right. split; [reflexivity|].
    exists o. split; [left; reflexivity | exact Hr]. }
  simpl in Hin. unfold bindM in Hin.
  destruct (render_campo env c o st) as [st1 [[]|e]] eqn:E.
  - apply IH in Hin. destruct Hin as [Hin|(-> & opciones & Ho & Hr)].
    + apply (Hstep st1 eq_refl Hin).
    + right. split; [reflexivity|]. exists opciones. split; [right; exact Ho | exact Hr].
  - apply (Hstep st1 eq_refl Hin).
Qed.

(** X7: whatever [render_form] does on a fresh object, every error it has
    recorded is the message of [validar_regex] for a text field of the schema
    that has a pattern, in which something has been entered that does not
    match the pattern: no other field and no other value gives an error. *)
Theorem render_form_error_justificado (env : Entorno) (st : Estado)
        (items : list (str * json)) (campo mensaje : str) :
  schema st = JObj items ->
  errores st = [] ->
  In (campo, mensaje) (errores (fst (render_form env st))) ->
  mensaje = formato_invalido campo
  /\ exists opciones, In (campo, opciones) items /\ rechazado env campo opciones.
Proof.
  intros Hs He Hin. rewrite (render_form_campos_eq env st _ Hs) in Hin.
  apply render_campos_errores in Hin. destruct Hin as [Hin|H]; [|exact H].
  cbn [errores set_pantalla] in Hin. rewrite He in Hin. destruct Hin.
Qed.

Lemma render_form_error_justificado_witness :
  lit "Formato inválido para 'nombre'" = formato_invalido (lit "nombre")
  /\ exists opciones,
      In (lit "nombre", opciones) campos_ficha
      /\ rechazado entorno_rojo (lit "nombre") opciones.
Proof.
  apply (render_form_error_justificado entorno_rojo estado_ficha campos_ficha
           (lit "nombre") (lit "Formato inválido para 'nombre'")).
  - reflexivity.
  - reflexivity.
  - vm_compute. left. reflexivity.
Defined.

(** X8: an exception of [re.fullmatch] is not caught: when something has
    been entered in a text field whose pattern is true for [if valor and
    regex] (so none of [None], [False], 0, a float zero, an empty string,
    list or object) and [re.fullmatch] does not accept it (a pattern it
    cannot compile, a value of the schema that is not a string),
    [render_form] raises. *)
Theorem render_form_patron_falla (env : Entorno) (st : Estado)
        (items : list (str * json)) (campo : str) (kvs : list (str * json))
        (regex : json) (e : exn) :
  schema st = JObj items ->
  In (campo, JObj kvs) items ->
  dict_get kvs (lit "tipo") = Some (JStr (lit "texto")) ->
  dict_get kvs (lit "regex") = Some regex ->
  truthy regex = true ->
  let valor :=
    st_text_input env (capitalize env campo)
                  (match dict_get kvs (lit "placeholder") with
                   | Some p => p
                   | None => JStr []
                   end) in
  valor <> [] ->
  fullmatch env regex valor = Raise e ->
  exists e', snd (render_form env st) = Raise e'.
Proof.
  intros Hs Hin Ht Hr Htr valor Hv Hm.
  apply in_split in Hin. destruct Hin as (pre & post & ->).
  rewrite (render_form_campos_eq env st _ Hs), render_campos_app.
  unfold bindM.
  destruct (render_campos env pre _) as [st1 [[]|e1]]; [|exists e1; reflexivity].
  simpl render_campos. unfold bindM.
  assert (E : render_campo env campo (JObj kvs) st1 = (st1, Raise e)).
  { unfold render_campo, opciones_get, lift, bindM. rewrite Ht, Hr.
    change (is_str (JStr (lit "texto")) (lit "texto")) with true. cbv iota.
    fold valor.
    replace (truthy (JStr valor)) with true
      by (destruct valor; [congruence | reflexivity]).
    rewrite Htr. simpl andb. cbv iota.
    unfold validar_regex, lift, bindM. rewrite Hm. reflexivity. }
  rewrite E. exists e. reflexivity.
Qed.

Lemma render_form_patron_falla_witness :
  exists e', snd (render_form entorno_rojo estado_patron_numero) = Raise e'.
Proof.
  apply (render_form_patron_falla entorno_rojo estado_patron_numero
           campos_patron_numero (lit "color")
           [(lit "tipo", JStr (lit "texto")); (lit "regex", JInt 5)]
           (JInt 5) TypeError).
  - reflexivity.
  - right. left. reflexivity.
  - reflexivity.
  - reflexivity.
  - reflexivity.
  - vm_compute. discriminate.
  - reflexivity.
Defined.

(** ** The items of a list field *)

Lemma strip_idem (s : str) : strip (strip s) = strip s.
Proof.
  destruct (strip_spec s) as (pre & post & _ & _ & _ & H).
  destruct H as [->|(c & t & t' & c' & E & E' & Hc & Hc')]; [reflexivity|].
  assert (Hl : lstrip (strip s) = strip s)
    by (rewrite E; simpl; rewrite Hc; reflexivity).
  unfold strip at 1. rewrite Hl. unfold rstrip. rewrite E' at 1.
  rewrite rev_app_distr. simpl. rewrite Hc'.
  change (c' :: rev t') with (rev [c'] ++ rev t').
  rewrite <- rev_app_distr, rev_involutive. symmetry. exact E'.
Qed.

Lemma strip_sin_separador (sep : char) (s : str) : ~ In sep s -> ~ In sep (strip s).
Proof.
  intros Hn Hin. destruct (strip_spec s) as (pre & post & E & _).
  apply Hn. rewrite E. apply in_or_app. right. apply in_or_app. left. exact Hin.
Qed.

Lemma lista_de_limpia (texto : str) : Forall item_limpio (lista_de texto).
Proof.
  unfold lista_de. pose proof (split_sin_separador c_comma texto) as Hs.
  induction Hs as [|i l Hi Hl IH]; [constructor|].
  cbn [flat_map]. apply Forall_app. split; [|exact IH].
  destruct (truthy (JStr (strip i))) eqn:E; constructor; [|constructor].
  split; [|split].
  - intros H. rewrite H in E. discriminate E.
  - apply strip_sin_separador, Hi.
  - apply strip_idem.
Qed.

(** X9: every item of the list that [render_form] makes of the text of a list
    field is not empty, holds no comma, and has no white space at either end;
    a text of commas and white space only gives the empty list. *)
Theorem lista_de_items_limpios (texto : str) :
  Forall item_limpio (lista_de texto)
  /\ (forallb (fun c => (c =? c_comma) || isspace c) texto = true ->
      lista_de texto = []).
Proof.
  split; [apply lista_de_limpia|].
  intros Hc. destruct (lista_de texto) as [|x l] eqn:E; [reflexivity|].
  exfalso.
  assert (Hx : In x (split_trim_drop texto))
    by (rewrite <- lista_de_split_trim_drop, E; left; reflexivity).
  apply split_trim_drop_items in Hx. destruct Hx as (Hne & i & Hi & ->).
  destruct (strip_spec i) as (pre & post & Ei & _ & _ & H).
  destruct H as [H|(c & t & _ & _ & Ec & _ & Hs & _)]; [contradiction|].
  assert (Hin : In c texto).
  { rewrite <- (join_split c_comma texto).
    assert (Hci : In c i)
      by (rewrite Ei, Ec; apply in_or_app; right; left; reflexivity).
    clear - Hi Hci. induction (split c_comma texto) as [|s l IH]; [destruct Hi|].
    destruct Hi as [->|Hi].
    - destruct l; simpl; [exact Hci|]. apply in_or_app. left. exact Hci.
    - specialize (IH Hi). destruct l as [|s' l]; [destruct Hi|].
      change (join c_comma (s :: s' :: l)) with (s ++ c_comma :: join c_comma (s' :: l)).
      apply in_or_app. right. right. exact IH. }
  rewrite forallb_forall in Hc. specialize (Hc c Hin).
  rewrite Hs, orb_false_r in Hc. apply N.eqb_eq in Hc. subst c.
  pose proof (split_sin_separador c_comma texto) as Hsep.
  rewrite Forall_forall in Hsep. apply (Hsep i Hi).
  rewrite Ei, Ec. apply in_or_app. right. left. reflexivity.
Qed.

Lemma lista_de_items_limpios_witness : lista_de (lit " , ,,  ") = [].
Proof.
  apply (proj2 (lista_de_items_limpios (lit " , ,,  "))). reflexivity.
Defined.

Lemma split_app_sep (sep : char) (s t : str) :
  ~ In sep s -> split sep (s ++ sep :: t) = s :: split sep t.
Proof.
  induction s as [|c s IH]; intros Hn; simpl.
  - rewrite N.eqb_refl. reflexivity.
  - replace (c =? sep) with false
      by (symmetry; apply N.eqb_neq; intros ->; apply Hn; left; reflexivity).
    rewrite IH; [reflexivity|]. intros H. apply Hn. right. exact H.
Qed.

Lemma split_uno (sep : char) (s : str) : ~ In sep s -> split sep s = [s].
Proof.
  induction s as [|c s IH]; intros Hn; simpl; [reflexivity|].
  replace (c =? sep) with false
    by (symmetry; apply N.eqb_neq; intros ->; apply Hn; left; reflexivity).
  rewrite IH; [reflexivity|]. intros H. apply Hn. right. exact H.
Qed.

(** The segments of the items joined with the separator are the items. *)
Lemma split_join (sep : char) (l : list str) :
  l <> [] -> Forall (fun x => ~ In sep x) l -> split sep (join sep l) = l.
Proof.
  intros Hne Hl. revert Hne. induction Hl as [|x l Hx Hl IH]; intros Hne;
    [exfalso; apply Hne; reflexivity|].
  destruct l as [|y l]; [apply split_uno, Hx|].
  change (join sep (x :: y :: l)) with (x ++ sep :: join sep (y :: l)).
  rewrite (split_app_sep sep x _ Hx), IH; [reflexivity | discriminate].
Qed.

Lemma lista_de_join_items (l : list str) :
  Forall item_limpio l -> lista_de (join c_comma l) = l.
Proof.
  intros Hl. destruct l as [|x l]; [reflexivity|].
  unfold lista_de. rewrite split_join; [|discriminate|].
  - induction Hl as [|y l' (Hy & _ & Hs) Hl' IH]; [reflexivity|].
    cbn [flat_map]. rewrite Hs, IH.
    replace (truthy (JStr y)) with true; [reflexivity|].
    symmetry. simpl. apply negb_true_iff, str_eqb_neq, Hy.
  - apply (Forall_impl _ (fun x (Hx : item_limpio x) => proj1 (proj2 Hx)) Hl).
Qed.

(** X10: the text made of items joined with commas gives back the items, when
    each item is not empty, holds no comma and has no white space at either
    end; so the list of a field, typed again with commas between its items,
    is read as the same list. *)
Theorem lista_de_join :
  (forall l, Forall item_limpio l -> lista_de (join c_comma l) = l)
  /\ (forall texto, lista_de (join c_comma (lista_de texto)) = lista_de texto).
Proof.
  split; [exact lista_de_join_items|].
  intros texto. apply lista_de_join_items, lista_de_limpia.
Qed.

Lemma lista_de_join_witness :
  lista_de (join c_comma [lit "ajedrez"; lit "cine mudo"])
  = [lit "ajedrez"; lit "cine mudo"].
Proof.
  apply (proj1 lista_de_join [lit "ajedrez"; lit "cine mudo"]).
  repeat constructor; try discriminate; try reflexivity;
    vm_compute; intros H; repeat (destruct H as [H|H]; [discriminate H|]);
      exact H.
Defined.

(** ** A history file that does not hold a list *)

(** X11: when the history file holds valid JSON that is not an array (an
    object, a string, a number, [true], [false] or [null]),
    [guardar_historial] raises [AttributeError] at [append] and leaves the
    file and everything else as they are: the Submission is not saved. *)
Theorem guardar_historial_no_es_lista (env : Entorno) (st : Estado)
        (content : str) (v : json) :
  archivos st (historial_path st) = Some content ->
  json_loads content = Ok v ->
  (forall l, v <> JArr l) ->
  guardar_historial env st = (st, Raise AttributeError).
Proof.
  intros Hf Hj Hv. unfold guardar_historial, bindM, cargar_para_guardar.
  rewrite Hf, Hj. destruct v; try reflexivity. exfalso. apply (Hv items). reflexivity.
Qed.

Lemma guardar_historial_no_es_lista_witness :
  guardar_historial entorno_quieto estado_historial_objeto
  = (estado_historial_objeto, Raise AttributeError).
Proof.
  apply (guardar_historial_no_es_lista entorno_quieto estado_historial_objeto
           (json_dumps (JObj [(lit "nombre", JStr (lit "Ana"))]))
           (JObj [(lit "nombre", JStr (lit "Ana"))])).
  - reflexivity.
  - vm_compute. reflexivity.
  - discriminate.
Defined.

(** X12: when the history file holds valid JSON that is not an array,
    [eliminar_entrada_historial] never writes the file and never asks for a
    rerun: with a negative index it returns; otherwise it raises [TypeError]
    on a number, [true], [false] or [null] (no [len]), returns on an object or
    a string that is not longer than the index, and raises [KeyError] on a
    longer object and [TypeError] on a longer string (no deletion of a
    character). *)
Theorem eliminar_entrada_historial_no_lista (env : Entorno) (st : Estado)
        (content : str) (v : json) (index : Z) :
  archivos st (historial_path st) = Some content ->
  json_loads content = Ok v ->
  (forall l, v <> JArr l) ->
  eliminar_entrada_historial env index st
  = (st,
     if (index <? 0)%Z then Ok tt
     else match v with
          | JObj kvs =>
            if (index <? Z.of_nat (length kvs))%Z then Raise KeyError else Ok tt
          | JStr s =>
            if (index <? Z.of_nat (length s))%Z then Raise TypeError else Ok tt
          | _ => Raise TypeError
          end).
Proof.
  intros Hf Hj Hv. unfold eliminar_entrada_historial. rewrite Hf, Hj.
  rewrite Z.ltb_antisym. destruct (0 <=? index)%Z; [|reflexivity].
  simpl negb. cbv iota.
  destruct v as [| | | |s|items|kvs]; try reflexivity.
  - simpl len. cbv beta iota.
    destruct (index <? Z.of_nat (length s))%Z; reflexivity.
  - exfalso. apply (Hv items). reflexivity.
  - simpl len. cbv beta iota.
    destruct (index <? Z.of_nat (length kvs))%Z; reflexivity.
Qed.

Lemma eliminar_entrada_historial_no_lista_witness :
  eliminar_entrada_historial entorno_quieto 0 estado_historial_objeto
  = (estado_historial_objeto, Raise KeyError).
Proof.
  apply (eliminar_entrada_historial_no_lista entorno_quieto estado_historial_objeto
           (json_dumps (JObj [(lit "nombre", JStr (lit "Ana"))]))
           (JObj [(lit "nombre", JStr (lit "Ana"))]) 0).
  - reflexivity.
  - vm_compute. reflexivity.
  - discriminate.
Defined.

(** ** What the history store leaves alone *)

Lemma solo_historial_write_file (env : Entorno) (content : str) (st : Estado) :
  let st' := fst (write_file env (historial_path st) content st) in
  schema_path st' = schema_path st
  /\ historial_path st' = historial_path st
  /\ schema st' = schema st
  /\ data st' = data st
  /\ errores st' = errores st
  /\ pantalla st' = pantalla st
  /\ peticiones st' = peticiones st
  /\ forall q, q <> historial_path st -> archivos st' q = archivos st q.
Proof.
  unfold write_file. destruct (encodable content); simpl;
    repeat split; intros q Hq; apply str_eqb_neq in Hq; rewrite Hq; reflexivity.
Qed.

Lemma solo_historial_igual (st : Estado) :
  schema_path st = schema_path st
  /\ historial_path st = historial_path st
  /\ schema st = schema st
  /\ data st = data st
  /\ errores st = errores st
  /\ pantalla st = pantalla st
  /\ peticiones st = peticiones st
  /\ forall q, q <> historial_path st -> archivos st q = archivos st q.
Proof. repeat split. Qed.

(** X13: whatever the history file holds and whether they return or raise,
    [guardar_historial] and [eliminar_entrada_historial] change nothing but
    the content of the history file: the schema, the Submission, the errors,
    the page, the requests sent and every other file stay as they are. *)
Theorem historial_solo_su_archivo (env : Entorno) :
  solo_historial (guardar_historial env)
  /\ forall index, solo_historial (eliminar_entrada_historial env index).
Proof.
  split.
  - intros st. unfold guardar_historial, bindM, cargar_para_guardar.
    destruct (archivos st (historial_path st)) as [content|].
    + destruct (json_loads content) as [[]|[]];
        try apply solo_historial_igual; apply solo_historial_write_file.
    + apply solo_historial_write_file.
  - intros index st. unfold eliminar_entrada_historial.
    destruct (archivos st (historial_path st)) as [content|];
      [|apply solo_historial_igual].
    destruct (json_loads content) as [v|e]; [|apply solo_historial_igual].
    destruct (0 <=? index)%Z; [|apply solo_historial_igual].
    destruct (len v) as [n|e]; [|apply solo_historial_igual].
    destruct (index <? Z.of_nat n)%Z; [|apply solo_historial_igual].
    destruct (del_item v (Z.to_nat index)) as [v'|e]; [|apply solo_historial_igual].
    unfold bindM, raise.
    pose proof (solo_historial_write_file env (json_dumps v') st) as H.
    destruct (write_file env (historial_path st) (json_dumps v') st) as [st' [[]|e]];
      exact H.
Qed.

(** ** Saving and deleting again *)

(** X14: deleting the entry that [guardar_historial] has just appended gives
    the log back: after the two calls the history file holds the list that
    was loaded before them, written as [json.dump] writes it. *)
Theorem guardar_y_eliminar (env : Entorno) (st : Estado) (l : list json) :
  cargar_para_mostrar st = (st, Ok (JArr l)) ->
  forallb storable l = true ->
  is_submission (JObj (data st)) = true ->
  exists st1 st2,
    guardar_historial env st = (st1, Ok tt)
    /\ eliminar_entrada_historial env (Z.of_nat (length l)) st1
       = (st2, Raise RerunException)
    /\ archivos st2 (historial_path st) = Some (json_dumps (JArr l))
    /\ cargar_para_mostrar st2 = (st2, Ok (JArr l)).
Proof.
  intros Hc Hl Hd.
  destruct (ampliado_plain st st l (JObj (data st)) Hc Hl Hd) as [Hp Hs].
  pose proof (reducido_plain st st l (length l) Hc Hl) as [Hp' _].
  rewrite firstn_all, skipn_all2, app_nil_r in Hp' by lia.
  set (st1 := con_archivo (historial_path st)
                          (json_dumps (JArr (l ++ [JObj (data st)]))) st).
  assert (E : eliminar_entrada_historial env (Z.of_nat (length l)) st1
              = (con_archivo (historial_path st1) (json_dumps (JArr l)) st1,
                 Raise RerunException)).
  { rewrite (eliminar_en_rango env st1 (json_dumps (JArr (l ++ [JObj (data st)])))
               (l ++ [JObj (data st)]) (Z.of_nat (length l))).
    - rewrite Nat2Z.id, firstn_app, Nat.sub_diag, firstn_all, app_nil_r.
      rewrite skipn_all2 by (rewrite length_app; simpl; lia).
      rewrite app_nil_r. reflexivity.
    - simpl. rewrite str_eqb_refl. reflexivity.
    - apply json_loads_dumps, Hp.
    - exact Hs.
    - rewrite length_app. simpl. lia. }
  exists st1, (con_archivo (historial_path st1) (json_dumps (JArr l)) st1).
  split; [apply (guardar_historial_efecto env st l Hc Hl Hd)|].
  split; [exact E|].
  split; [simpl; rewrite str_eqb_refl; reflexivity|].
  apply (cargar_tras_escribir st1 (JArr l) Hp').
Qed.

Lemma guardar_y_eliminar_witness :
  exists st1 st2,
    guardar_historial entorno_quieto estado_ejemplo = (st1, Ok tt)
    /\ eliminar_entrada_historial entorno_quieto 2 st1 = (st2, Raise RerunException)
    /\ archivos st2 (historial_path estado_ejemplo)
       = Some (json_dumps (JArr historial_ejemplo))
    /\ cargar_para_mostrar st2 = (st2, Ok (JArr historial_ejemplo)).
Proof.
  apply (guardar_y_eliminar entorno_quieto estado_ejemplo historial_ejemplo);
    vm_compute; reflexivity.
Defined.

(** ** The history on the page *)

Lemma agrega_agrega (a b : list elemento) (st : Estado) :
  agrega b (agrega a st) = agrega (a ++ b) st.
Proof. unfold agrega, set_pantalla. simpl. rewrite app_assoc. reflexivity. Qed.

Lemma agrega_nil (st : Estado) : agrega [] st = st.
Proof. destruct st. unfold agrega, set_pantalla. simpl. rewrite app_nil_r. reflexivity. Qed.

Lemma show_agrega (e : elemento) (st : Estado) : show e st = (agrega [e] st, Ok tt).
Proof. reflexivity. Qed.

Lemma firstn_siguiente (A : Type) (l : list A) (i : nat) (x : A) :
  nth_error l i = Some x -> firstn (S i) l = firstn i l ++ [x].
Proof.
  revert i. induction l as [|y l IH]; intros [|i] H; simpl in *; try discriminate.
  - inversion H; reflexivity.
  - f_equal. apply IH, H.
Qed.

Lemma tarjetas_vacias (l : list json) (k : nat) : tarjetas l k k = [].
Proof. unfold tarjetas. rewrite Nat.sub_diag. reflexivity. Qed.

Lemma tarjetas_ultima (l : list json) (k m : nat) (entry : json) :
  (k <= m)%nat -> nth_error l m = Some entry ->
  tarjetas l k (S m) = tarjeta m entry ++ tarjetas l k m.
Proof.
  intros Hk He. unfold tarjetas.
  replace (S m - k)%nat with (S (m - k)) by lia.
  rewrite seq_S, rev_app_distr. simpl rev. cbn [flat_map app].
  replace (k + (m - k))%nat with m by lia. rewrite He. reflexivity.
Qed.

Lemma tarjetas_primera (l : list json) (k m : nat) (entry : json) :
  (k < m)%nat -> nth_error l k = Some entry ->
  tarjetas l k m = tarjetas l (S k) m ++ tarjeta k entry.
Proof.
  intros Hk He. unfold tarjetas.
  replace (m - k)%nat with (S (m - S k)) by lia.
  cbn [seq rev]. rewrite flat_map_app. cbn [flat_map]. rewrite He, app_nil_r.
  reflexivity.
Qed.

(** The loop of [mostrar_historial] over the entries from the index [m - 1]
    down to the index [k], none of whose buttons is pressed: their cards are
    shown and the loop goes on with the entries below [k]. *)
Lemma mostrar_entradas_sin_pulsar (env : Entorno) (l : list json) (k : nat) :
  forall m st,
    (k <= m <= length l)%nat ->
    (forall j, (k <= j < m)%nat ->
               st_button env (lit "🗑️ Eliminar este formulario") (clave_eliminar j)
               = false) ->
    mostrar_entradas env (rev (firstn m l)) m st
    = mostrar_entradas env (rev (firstn k l)) k (agrega (tarjetas l k m) st).
Proof.
  induction m as [|m IH]; intros st Hm Hb.
  - assert (k = 0)%nat by lia. subst k. rewrite tarjetas_vacias, agrega_nil. reflexivity.
  - destruct (Nat.eq_dec k (S m)) as [->|Hne];
      [rewrite tarjetas_vacias, agrega_nil; reflexivity|].
    destruct (nth_error l m) as [entry|] eqn:He;
      [|apply nth_error_None in He; lia].
    rewrite (firstn_siguiente _ l m entry He), rev_app_distr.
    rewrite (tarjetas_ultima l k m entry) by (assumption || lia).
    simpl rev. simpl app. cbn [mostrar_entradas]. unfold bindM at 1 2 3.
    rewrite !show_agrega.
    fold (clave_eliminar m). rewrite (Hb m) by lia.
    unfold ret at 1. rewrite agrega_agrega.
    rewrite IH; [|lia|intros j Hj; apply Hb; lia].
    rewrite agrega_agrega. reflexivity.
Qed.

Lemma cargar_para_mostrar_agrega (es : list elemento) (st : Estado) (r : result json) :
  cargar_para_mostrar st = (st, r) ->
  cargar_para_mostrar (agrega es st) = (agrega es st, r).
Proof.
  unfold cargar_para_mostrar. cbn [agrega set_pantalla archivos historial_path].
  destruct (archivos st (historial_path st)) as [content|].
  - destruct (json_loads content) as [v|[]]; intros H; inversion H; reflexivity.
  - intros H; inversion H; reflexivity.
Qed.

(** X15: when there is no history file, when its content is not JSON, and
    when it holds a value that Python takes as false (an empty list, an empty
    object, an empty string, zero, [false] or [null]), [mostrar_historial]
    shows the heading and the notice that no history is saved yet, shows no
    entry, and returns. *)
Theorem mostrar_historial_vacio (env : Entorno) (st : Estado) :
  (archivos st (historial_path st) = None
   \/ exists content,
       archivos st (historial_path st) = Some content
       /\ (json_loads content = Raise JSONDecodeError
           \/ exists v, json_loads content = Ok v /\ truthy v = false)) ->
  mostrar_historial env st
  = (agrega (cabecera_historial ++ [st_info (lit "No hay historial guardado aún.")]) st,
     Ok tt).
Proof.
  intros H.
  assert (Hc : exists v, cargar_para_mostrar st = (st, Ok v) /\ truthy v = false).
  { unfold cargar_para_mostrar.
    destruct H as [->|(content & -> & [->|(v & -> & Hv)])];
      [exists (JArr [])|exists (JArr [])|exists v]; split; auto. }
  destruct Hc as (v & Hc & Hv).
  unfold mostrar_historial, bindM. rewrite !show_agrega, agrega_agrega.
  rewrite (cargar_para_mostrar_agrega _ st _ Hc), Hv.
  cbn [negb]. rewrite show_agrega, agrega_agrega. reflexivity.
Qed.

Lemma mostrar_historial_vacio_witness :
  mostrar_historial entorno_quieto estado_corrupto
  = (agrega (cabecera_historial ++ [st_info (lit "No hay historial guardado aún.")])
            estado_corrupto,
     Ok tt).
Proof.
  apply (mostrar_historial_vacio entorno_quieto estado_corrupto).
  right. exists (lit "{"). split; [reflexivity|]. left. reflexivity.
Defined.

(** X16: when the history file holds a list of entries and no button of the
    list is pressed, [mostrar_historial] shows, after the heading, one card
    for each entry, the last saved first: an expander with the number of the
    entry counted from one, and the entry in it; it changes nothing else and
    returns. *)
Theorem mostrar_historial_lista (env : Entorno) (st : Estado) (l : list json) :
  cargar_para_mostrar st = (st, Ok (JArr l)) ->
  l <> [] ->
  (forall j, (j < length l)%nat ->
             st_button env (lit "🗑️ Eliminar este formulario") (clave_eliminar j)
             = false) ->
  mostrar_historial env st
  = (agrega (cabecera_historial ++ tarjetas l 0 (length l)) st, Ok tt).
Proof.
  intros Hc Hne Hb.
  unfold mostrar_historial, bindM. rewrite !show_agrega, agrega_agrega.
  rewrite (cargar_para_mostrar_agrega _ st _ Hc).
  replace (truthy (JArr l)) with true by (destruct l; [congruence | reflexivity]).
  cbn [negb].
  rewrite <- (firstn_all l) at 1.
  rewrite (mostrar_entradas_sin_pulsar env l 0 (length l)); [|lia|intros j Hj; apply Hb; lia].
  rewrite agrega_agrega. reflexivity.
Qed.

Lemma mostrar_historial_lista_witness :
  mostrar_historial entorno_quieto estado_ejemplo
  = (agrega (cabecera_historial ++ tarjetas historial_ejemplo 0 2) estado_ejemplo,
     Ok tt).
Proof.
  apply (mostrar_historial_lista entorno_quieto estado_ejemplo historial_ejemplo).
  - vm_compute. reflexivity.
  - discriminate.
  - reflexivity.
Defined.

(** X17: the button under a card deletes the entry of that card.  When the
    history file holds a list of entries that can be stored and the first
    button pressed, from the last entry down, is the one of the entry with
    the index [k], [mostrar_historial] shows the cards of the entries from
    the last one down to that one, rewrites the file as the list without the
    entry at [k], and asks for a rerun. *)
Theorem mostrar_historial_elimina (env : Entorno) (st : Estado) (content : str)
        (l : list json) (k : nat) :
  archivos st (historial_path st) = Some content ->
  json_loads content = Ok (JArr l) ->
  forallb storable l = true ->
  (k < length l)%nat ->
  st_button env (lit "🗑️ Eliminar este formulario") (clave_eliminar k) = true ->
  (forall j, (k < j < length l)%nat ->
             st_button env (lit "🗑️ Eliminar este formulario") (clave_eliminar j)
             = false) ->
  exists st',
    mostrar_historial env st = (st', Raise RerunException)
    /\ st' = con_archivo (historial_path st)
                         (json_dumps (JArr (firstn k l ++ skipn (S k) l)))
                         (agrega (cabecera_historial ++ tarjetas l k (length l)) st)
    /\ cargar_para_mostrar st' = (st', Ok (JArr (firstn k l ++ skipn (S k) l))).
Proof.
  intros Hf Hj Hl Hk Hb Hn.
  assert (Hc : cargar_para_mostrar st = (st, Ok (JArr l)))
    by (unfold cargar_para_mostrar; rewrite Hf, Hj; reflexivity).
  destruct (nth_error l k) as [entry|] eqn:He; [|apply nth_error_None in He; lia].
  eexists. split; [|split; [reflexivity|]].
  - unfold mostrar_historial, bindM. rewrite !show_agrega, agrega_agrega.
    rewrite (cargar_para_mostrar_agrega _ st _ Hc).
    replace (truthy (JArr l)) with true by (destruct l; [simpl in Hk; lia | reflexivity]).
    cbn [negb].
    rewrite <- (firstn_all l) at 1.
    rewrite (mostrar_entradas_sin_pulsar env l (S k) (length l));
      [|lia|intros j Hj'; apply Hn; lia].
    rewrite agrega_agrega.
    rewrite (firstn_siguiente _ l k entry He), rev_app_distr.
    simpl rev. simpl app. cbn [mostrar_entradas]. unfold bindM at 1 2 3.
    rewrite !show_agrega. fold (clave_eliminar k). rewrite Hb.
    rewrite !agrega_agrega.
    rewrite (eliminar_en_rango env (agrega _ st) content l (Z.of_nat k) Hf Hj Hl)
      by lia.
    rewrite Nat2Z.id.
    rewrite (tarjetas_primera l k (length l) entry Hk He).
    reflexivity.
  - apply (cargar_tras_escribir (agrega _ st)).
    apply (reducido_plain st st l k Hc Hl).
Qed.

Lemma mostrar_historial_elimina_witness :
  exists st',
    mostrar_historial (entorno_pulsa (clave_eliminar 0)) estado_ejemplo
    = (st', Raise RerunException)
    /\ st' = con_archivo (historial_path estado_ejemplo)
                         (json_dumps (JArr (skipn 1 historial_ejemplo)))
                         (agrega (cabecera_historial ++ tarjetas historial_ejemplo 0 2)
                                 estado_ejemplo)
    /\ cargar_para_mostrar st' = (st', Ok (JArr (skipn 1 historial_ejemplo))).
Proof.
  apply (mostrar_historial_elimina (entorno_pulsa (clave_eliminar 0)) estado_ejemplo
           (json_dumps (JArr historial_ejemplo)) historial_ejemplo 0).
  - reflexivity.
  - vm_compute. reflexivity.
  - reflexivity.
  - simpl. lia.
  - reflexivity.
  - intros j Hj. simpl in Hj. assert (E : j = 1%nat) by lia. subst j. reflexivity.
Defined.

(** ** The output *)

Lemma errores_agrega (es : list elemento) (st : Estado) :
  errores (agrega es st) = errores st.
Proof. reflexivity. Qed.

Lemma data_agrega (es : list elemento) (st : Estado) : data (agrega es st) = data st.
Proof. reflexivity. Qed.

Ltac pasos :=
  repeat first [ rewrite show_agrega | rewrite agrega_agrega | rewrite errores_agrega
               | rewrite data_agrega | progress cbv beta iota ].

Lemma mostrar_errores_agrega (l : list (str * str)) (st : Estado) :
  mostrar_errores l st = (agrega (map linea_de_error l) st, Ok tt).
Proof.
  revert st. induction l as [|[campo mensaje] l IH]; intros st.
  - simpl. rewrite agrega_nil. reflexivity.
  - cbn [mostrar_errores map]. unfold bindM. rewrite show_agrega. cbv beta iota.
    rewrite IH, agrega_agrega. reflexivity.
Qed.

(** X18: when the form has recorded an error, [render_output] shows the list
    of the errors, one line for each in the order in which they were
    recorded, and nothing else: the Submission is neither shown nor offered
    for download, and whatever button is pressed nothing is saved and nothing
    is sent. *)
Theorem render_output_con_errores (env : Entorno) (st : Estado) :
  errores st <> [] ->
  render_output env st
  = (agrega (st_markdown (lit "---")
               :: st_error (lit "❌ Errores en el formulario:")
               :: map linea_de_error (errores st)) st,
     Ok tt).
Proof.
  intros He. unfold render_output, bindM. pasos.
  destruct (errores st) as [|cm es] eqn:E; [congruence|].
  pasos. rewrite mostrar_errores_agrega, agrega_agrega. reflexivity.
Qed.

Lemma render_output_con_errores_witness :
  render_output (entorno_pulsa None) estado_con_error
  = (agrega [st_markdown (lit "---");
             st_error (lit "❌ Errores en el formulario:");
             linea_de_error (lit "nombre", formato_invalido (lit "nombre"))]
            estado_con_error,
     Ok tt).
Proof.
  apply (render_output_con_errores (entorno_pulsa None) estado_con_error).
  discriminate.
Defined.

Lemma enviar_a_url_no_escribe (env : Entorno) (enviar : bool) (url : str) :
  no_escribe (enviar_a_url env enviar url).
Proof.
  intros st. unfold enviar_a_url.
  destruct enviar; [|repeat split; exists []; rewrite app_nil_r; reflexivity].
  destruct (truthy (JStr url)); [|repeat split; eexists; reflexivity].
  destruct (requests_post env url (JObj (data st))) as [code|m];
    [destruct (code =? 200)%Z|]; repeat split; eexists; reflexivity.
Qed.

Lemma cargar_para_mostrar_archivos (st st' : Estado) (r : result json) :
  archivos st' = archivos st -> historial_path st' = historial_path st ->
  cargar_para_mostrar st = (st, r) -> cargar_para_mostrar st' = (st', r).
Proof.
  unfold cargar_para_mostrar. intros -> ->.
  destruct (archivos st (historial_path st)) as [content|].
  - destruct (json_loads content) as [v|[]]; intros H; inversion H; reflexivity.
  - intros H; inversion H; reflexivity.
Qed.

(** X19: without errors and with the button that saves not pressed,
    [render_output] shows the Submission, offers for download the text of
    [json.dumps] of it with [indent=2], and goes on to the remote submission;
    no file is written. *)
Theorem render_output_sin_guardar (env : Entorno) (st : Estado) :
  errores st = [] ->
  st_button env (lit "💾 Guardar en historial") None = false ->
  render_output env st
  = enviar_a_url env
      (st_form_submit_button env (lit "🚀 Enviar"))
      (st_text_input env (lit "Ingresá la URL donde enviar el JSON:")
                     (JStr (lit "https://api.tuservidor.com/datos")))
      (agrega (resultado (data st) ++ descarga (data st)) st)
  /\ archivos (fst (render_output env st)) = archivos st.
Proof.
  intros He Hb.
  assert (E : render_output env st
              = enviar_a_url env
                  (st_form_submit_button env (lit "🚀 Enviar"))
                  (st_text_input env (lit "Ingresá la URL donde enviar el JSON:")
                                 (JStr (lit "https://api.tuservidor.com/datos")))
                  (agrega (resultado (data st) ++ descarga (data st)) st)).
  { unfold render_output, bindM. pasos. rewrite He. pasos. rewrite Hb.
    unfold ret. pasos. reflexivity. }
  split; [exact E|]. rewrite E.
  destruct (enviar_a_url_no_escribe env
              (st_form_submit_button env (lit "🚀 Enviar"))
              (st_text_input env (lit "Ingresá la URL donde enviar el JSON:")
                             (JStr (lit "https://api.tuservidor.com/datos")))
              (agrega (resultado (data st) ++ descarga (data st)) st)) as [Ha _].
  exact Ha.
Qed.

Lemma render_output_sin_guardar_witness :
  render_output entorno_quieto estado_ejemplo
  = enviar_a_url entorno_quieto false []
      (agrega (resultado envio_ejemplo ++ descarga envio_ejemplo) estado_ejemplo)
  /\ archivos (fst (render_output entorno_quieto estado_ejemplo))
     = archivos estado_ejemplo.
Proof.
  apply (render_output_sin_guardar entorno_quieto estado_ejemplo); reflexivity.
Defined.

(** X20: without errors and with the button that saves pressed,
    [render_output] appends the Submission to the stored log (a list of
    values that can be stored; no file and undecodable content count as the
    empty list), shows that it has been saved, offers the download and goes
    on to the remote submission; the list loaded after it is the log with the
    Submission at its end. *)
Theorem render_output_guarda (env : Entorno) (st : Estado) (l : list json) :
  errores st = [] ->
  st_button env (lit "💾 Guardar en historial") None = true ->
  cargar_para_mostrar st = (st, Ok (JArr l)) ->
  forallb storable l = true ->
  is_submission (JObj (data st)) = true ->
  render_output env st
  = enviar_a_url env
      (st_form_submit_button env (lit "🚀 Enviar"))
      (st_text_input env (lit "Ingresá la URL donde enviar el JSON:")
                     (JStr (lit "https://api.tuservidor.com/datos")))
      (agrega (st_success (lit "Guardado en historial correctamente.")
                 :: descarga (data st))
              (con_archivo (historial_path st)
                           (json_dumps (JArr (l ++ [JObj (data st)])))
                           (agrega (resultado (data st)) st)))
  /\ cargar_para_mostrar (fst (render_output env st))
     = (fst (render_output env st), Ok (JArr (l ++ [JObj (data st)]))).
Proof.
  intros He Hb Hc Hl Hd.
  assert (E : render_output env st
              = enviar_a_url env
                  (st_form_submit_button env (lit "🚀 Enviar"))
                  (st_text_input env (lit "Ingresá la URL donde enviar el JSON:")
                                 (JStr (lit "https://api.tuservidor.com/datos")))
                  (agrega (st_success (lit "Guardado en historial correctamente.")
                             :: descarga (data st))
                          (con_archivo (historial_path st)
                                       (json_dumps (JArr (l ++ [JObj (data st)])))
                                       (agrega (resultado (data st)) st)))).
  { unfold render_output, bindM. pasos. rewrite He. pasos. rewrite Hb. pasos.
    cbn [app].
    pose proof (guardar_historial_efecto env (agrega (resultado (data st)) st) l
                  (cargar_para_mostrar_agrega _ st _ Hc) Hl Hd) as G.
    unfold resultado in G. rewrite G. pasos. reflexivity. }
  split; [exact E|]. rewrite E.
  match goal with
  | |- cargar_para_mostrar (fst (enviar_a_url env ?b ?u ?s)) = _ =>
    destruct (enviar_a_url_no_escribe env b u s) as (Ha & Hp & _);
    refine (cargar_para_mostrar_archivos s _ _ Ha Hp _)
  end.
  apply cargar_para_mostrar_agrega.
  apply (cargar_tras_escribir (agrega (resultado (data st)) st)
                              (JArr (l ++ [JObj (data st)]))).
  apply (ampliado_plain st st l (JObj (data st)) Hc Hl Hd).
Qed.

Lemma render_output_guarda_witness :
  render_output (entorno_pulsa None) estado_ejemplo
  = enviar_a_url (entorno_pulsa None) false []
      (agrega (st_success (lit "Guardado en historial correctamente.")
                 :: descarga envio_ejemplo)
              (con_archivo (lit "historial.json")
                           (json_dumps (JArr (historial_ejemplo ++ [JObj envio_ejemplo])))
                           (agrega (resultado envio_ejemplo) estado_ejemplo)))
  /\ cargar_para_mostrar (fst (render_output (entorno_pulsa None) estado_ejemplo))
     = (fst (render_output (entorno_pulsa None) estado_ejemplo),
        Ok (JArr (historial_ejemplo ++ [JObj envio_ejemplo]))).
Proof.
  apply (render_output_guarda (entorno_pulsa None) estado_ejemplo historial_ejemplo);
    vm_compute; reflexivity.
Defined.

(** ** The script *)

Lemma main_json_loads (env : Entorno) (fs : str -> option str) (content : str) :
  fs (lit "esquema.json") = Some content ->
  main env fs = (sch <- json_loads content ;; Ok (run env (objeto sch fs))).
Proof.
  intros Hf. unfold main, init, load_schema, json_load_file.
  cbn [schema_path archivos]. rewrite Hf.
  destruct (json_loads content); reflexivity.
Qed.

(** X21: the script and its schema file.  Without the file the script stops
    with [FileNotFoundError].  When the file holds a JSON text, of the
    standard or with the [NaN], [Infinity] and [-Infinity] of Python, [run] is
    called on an object with the value that the text denotes as its schema,
    the history path ["historial.json"], and neither data nor errors; and
    [run] is called on such an object only: when the script gets as far as
    [run], the file holds such a text and the schema is its value. *)
Theorem main_esquema (env : Entorno) (fs : str -> option str) :
  (fs (lit "esquema.json") = None -> main env fs = Raise FileNotFoundError)
  /\ (forall content v,
         fs (lit "esquema.json") = Some content ->
         json_texto false content v \/ json_texto true content v ->
         main env fs = Ok (run env (objeto v fs)))
  /\ (forall r,
         main env fs = Ok r ->
         exists content v,
           fs (lit "esquema.json") = Some content
           /\ json_texto true content v
           /\ r = run env (objeto v fs)).
Proof.
  split; [|split].
  - intros Hf. unfold main, init, load_schema, json_load_file.
    cbn [schema_path archivos]. rewrite Hf. reflexivity.
  - intros content v Hf Hv. rewrite (main_json_loads env fs content Hf).
    assert (Hj : json_loads content = Ok v)
      by (destruct Hv as [Hv|Hv]; apply (json_loads_gramatica _ content v Hv)).
    rewrite Hj. reflexivity.
  - intros r Hr. destruct (fs (lit "esquema.json")) as [content|] eqn:Hf.
    + rewrite (main_json_loads env fs content Hf) in Hr.
      destruct (json_loads content) as [v|e] eqn:Hj; [|discriminate Hr].
      simpl in Hr. inversion Hr. exists content, v.
      split; [reflexivity|]. split; [apply json_loads_texto, Hj | reflexivity].
    + unfold main, init, load_schema, json_load_file in Hr.
      cbn [schema_path archivos] in Hr. rewrite Hf in Hr. discriminate Hr.
Qed.

(** X22: on a schema file that holds valid JSON which is not an object, the
    object is built without complaint and the run stops at the first line of
    the loop of [render_form]: [AttributeError] is raised once the title is
    shown, and nothing else is shown, collected, saved or sent. *)
Theorem main_esquema_no_objeto (env : Entorno) (fs : str -> option str)
        (content : str) (v : json) :
  fs (lit "esquema.json") = Some content ->
  json_loads content = Ok v ->
  is_object v = false ->
  main env fs = Ok (agrega [titulo] (objeto v fs), Raise AttributeError).
Proof.
  intros Hf Hj Hv.
  unfold main, init, load_schema, json_load_file. cbn [schema_path archivos].
  rewrite Hf, Hj. cbn [bind]. fold (objeto v fs).
  unfold run, render_form, bindM. rewrite show_agrega. cbv beta iota.
  change (schema (agrega [titulo] (objeto v fs))) with v.
  destruct v; try reflexivity. discriminate Hv.
Qed.

Lemma main_esquema_no_objeto_witness :
  main entorno_quieto (un_archivo (lit "esquema.json") (lit "[]"))
  = Ok (agrega [titulo] (objeto (JArr []) (un_archivo (lit "esquema.json") (lit "[]"))),
        Raise AttributeError).
Proof.
  apply (main_esquema_no_objeto entorno_quieto
           (un_archivo (lit "esquema.json") (lit "[]")) (lit "[]") (JArr []));
    reflexivity.
Defined.

(** ** A value that is refused is neither saved nor sent *)

Lemma rellena_bindM (A B : Type) (m : M A) (k : A -> M B) :
  rellena m -> (forall a, rellena (k a)) -> rellena (bindM m k).
Proof.
  intros Hm Hk st. unfold bindM. specialize (Hm st).
  destruct (m st) as [st1 [a|e]]; simpl in *; [|exact Hm].
  destruct Hm as [Ha Hp]. destruct (Hk a st1) as [Ha' Hp']. split; congruence.
Qed.

Lemma rellena_igual (A : Type) (m : M A) :
  (forall st, archivos (fst (m st)) = archivos st
              /\ peticiones (fst (m st)) = peticiones st) ->
  rellena m.
Proof. intros H. exact H. Qed.

Lemma rellena_render_campo (env : Entorno) (campo : str) (opciones : json) :
  rellena (render_campo env campo opciones).
Proof.
  unfold render_campo.
  repeat (apply rellena_bindM; [intros st; split; reflexivity | intros ?]).
  repeat match goal with
         | |- rellena (if ?b then _ else _) => destruct b
         | |- rellena (bindM _ _) => apply rellena_bindM; [|intros ?]
         | |- rellena (validar_regex _ _ _ _) =>
           unfold validar_regex; apply rellena_bindM;
           [intros st; split; reflexivity | intros [|]]
         | |- rellena _ => intros st; split; reflexivity
         end.
Qed.

Lemma rellena_render_form (env : Entorno) : rellena (render_form env).
Proof.
  unfold render_form. apply rellena_bindM; [intros st; split; reflexivity|].
  intros _ st. destruct (schema st) as [| | | | | |items]; try (split; reflexivity).
  revert st. induction items as [|[campo opciones] items IH]; intros st;
    [split; reflexivity|].
  simpl. apply rellena_bindM; [apply rellena_render_campo | intros _; exact IH].
Qed.

Lemma in_dict_set_igual (V : Type) (d : list (str * V)) (k c : str) (v v' : V) :
  In (k, v) d -> (k = c -> v = v') -> In (k, v) (dict_set d c v').
Proof.
  intros Hin Hv. induction d as [|[k0 v0] d IH]; [destruct Hin|].
  simpl. destruct (str_eqb k0 c) eqn:E.
  - apply str_eqb_eq in E. subst k0. destruct Hin as [H|H]; [|right; exact H].
    inversion H; subst. left. rewrite (Hv eq_refl). reflexivity.
  - destruct Hin as [H|H]; [left; exact H | right; apply IH, H].
Qed.

Lemma render_campo_conserva_error (env : Entorno) (campo k : str) (opciones : json)
      (st : Estado) :
  In (k, formato_invalido k) (errores st) ->
  In (k, formato_invalido k) (errores (fst (render_campo env campo opciones st))).
Proof.
  intros Hin. destruct (render_campo_errores env campo opciones st) as [E|[_ E]];
    rewrite E; [exact Hin|].
  apply in_dict_set_igual; [exact Hin | intros ->; reflexivity].
Qed.

Lemma render_campos_conserva_error (env : Entorno) (k : str) (items : list (str * json)) :
  forall st,
    In (k, formato_invalido k) (errores st) ->
    In (k, formato_invalido k) (errores (fst (render_campos env items st))).
Proof.
  induction items as [|[campo opciones] items IH]; intros st Hin; [exact Hin|].
  simpl. unfold bindM.
  pose proof (render_campo_conserva_error env campo k opciones st Hin) as H.
  destruct (render_campo env campo opciones st) as [st1 [[]|e]]; [|exact H].
  apply IH, H.
Qed.

Lemma render_campo_rechazado (env : Entorno) (campo : str) (opciones : json)
      (st : Estado) :
  rechazado env campo opciones ->
  In (campo, formato_invalido campo)
     (errores (fst (render_campo env campo opciones st))).
Proof.
  intros (kvs & r & -> & Ht & Hr & Hne & Hv & Hm).
  rewrite (render_campo_texto env st campo kvs r Ht Hr Hne Hv), Hm.
  cbn [fst errores set_data set_errores].
  clear. induction (errores st) as [|[k0 v0] d IH]; simpl.
  - left. reflexivity.
  - destruct (str_eqb k0 campo) eqn:E; [|right; exact IH].
    apply str_eqb_eq in E. subst k0. left. reflexivity.
Qed.

(** X23: a value that is refused blocks the whole output.  When a text field
    of the schema has a pattern that the value entered does not match and
    [render_form] completes, the error of that field is among the errors,
    [render_output] shows the errors only, and after the two methods the
    files and the requests sent are what they were: the Submission is neither
    saved nor sent, whatever button is pressed. *)
Theorem rechazado_no_guarda (env : Entorno) (st st1 : Estado)
        (items : list (str * json)) (campo : str) (opciones : json) :
  schema st = JObj items ->
  In (campo, opciones) items ->
  rechazado env campo opciones ->
  render_form env st = (st1, Ok tt) ->
  In (campo, formato_invalido campo) (errores st1)
  /\ (render_form env >> render_output env) st
     = (agrega (st_markdown (lit "---")
                  :: st_error (lit "❌ Errores en el formulario:")
                  :: map linea_de_error (errores st1)) st1,
        Ok tt)
  /\ archivos (fst ((render_form env >> render_output env) st)) = archivos st
  /\ peticiones (fst ((render_form env >> render_output env) st)) = peticiones st.
Proof.
  intros Hs Hin Hr Hrun.
  assert (He : In (campo, formato_invalido campo) (errores st1)).
  { pose proof Hrun as Hrun'.
    rewrite (render_form_campos_eq env st _ Hs) in Hrun'.
    apply in_split in Hin. destruct Hin as (pre & post & ->).
    apply render_campos_partes in Hrun'.
    destruct Hrun' as (sa & sb & _ & Hcampo & Hpost).
    pose proof (render_campo_rechazado env campo opciones sa Hr) as H.
    rewrite Hcampo in H.
    pose proof (render_campos_conserva_error env campo post sb H) as H'.
    rewrite Hpost in H'. exact H'. }
  assert (Hout : render_output env st1
                 = (agrega (st_markdown (lit "---")
                              :: st_error (lit "❌ Errores en el formulario:")
                              :: map linea_de_error (errores st1)) st1,
                    Ok tt)).
  { unfold render_output, bindM. pasos.
    destruct (errores st1) as [|cm es] eqn:E; [destruct He|].
    pasos. rewrite mostrar_errores_agrega, agrega_agrega. reflexivity. }
  assert (E : (render_form env >> render_output env) st
              = (agrega (st_markdown (lit "---")
                           :: st_error (lit "❌ Errores en el formulario:")
                           :: map linea_de_error (errores st1)) st1,
                 Ok tt))
    by (unfold bindM at 1; rewrite Hrun; exact Hout).
  split; [exact He|]. split; [exact E|]. rewrite E.
  destruct (rellena_render_form env st) as [Ha Hp]. rewrite Hrun in Ha, Hp.
  split; [exact Ha | exact Hp].
Qed.

Lemma rechazado_no_guarda_witness :
  In (lit "nombre", formato_invalido (lit "nombre"))
     (errores (fst (render_form entorno_rojo estado_ficha)))
  /\ (render_form entorno_rojo >> render_output entorno_rojo) estado_ficha
     = (agrega (st_markdown (lit "---")
                  :: st_error (lit "❌ Errores en el formulario:")
                  :: map linea_de_error
                         (errores (fst (render_form entorno_rojo estado_ficha))))
               (fst (render_form entorno_rojo estado_ficha)),
        Ok tt)
  /\ archivos (fst ((render_form entorno_rojo >> render_output entorno_rojo)
                      estado_ficha))
     = archivos estado_ficha
  /\ peticiones (fst ((render_form entorno_rojo >> render_output entorno_rojo)
                        estado_ficha))
     = peticiones estado_ficha.
Proof.
  apply (rechazado_no_guarda entorno_rojo estado_ficha
           (fst (render_form entorno_rojo estado_ficha)) campos_ficha (lit "nombre")
           (JObj [(lit "tipo", JStr (lit "texto")); (lit "regex", JStr (lit "Ana"))])).
  - reflexivity.
  - left. reflexivity.
  - exists [(lit "tipo", JStr (lit "texto")); (lit "regex", JStr (lit "Ana"))],
           (lit "Ana").
    repeat split; try reflexivity; vm_compute; discriminate.
  - reflexivity.
Defined.

(** ** The text offered for download *)

Lemma es_ascii_app (a b : str) : es_ascii (a ++ b) = es_ascii a && es_ascii b.
Proof. apply forallb_app. Qed.

Lemma hex_char_ascii (n : N) :
  n < 16 -> ((hex_char n =? c_lf) || ((32 <=? hex_char n) && (hex_char n <=? 126))) = true.
Proof.
  intros H. unfold hex_char. apply orb_true_iff. right.
  destruct (n <? 10) eqn:E; apply andb_true_iff; split; apply N.leb_le;
    [| |apply N.ltb_ge in E|apply N.ltb_ge in E]; lia.
Qed.

Lemma es_ascii_hex4_str (n : N) : n < 65536 -> es_ascii (hex4_str n) = true.
Proof.
  intros H. unfold hex4_str, es_ascii. cbn [forallb].
  rewrite !hex_char_ascii; [reflexivity| | | |].
  - apply N.mod_lt. discriminate.
  - apply N.mod_lt. discriminate.
  - apply N.mod_lt. discriminate.
  - apply N.Div0.div_lt_upper_bound. exact H.
Qed.

Lemma es_ascii_escape_char (c : char) : c < 32 -> es_ascii (escape_char c) = true.
Proof.
  intros E.
  assert (H : c = 0 \/ c = 1 \/ c = 2 \/ c = 3 \/ c = 4 \/ c = 5 \/ c = 6
              \/ c = 7 \/ c = 8 \/ c = 9 \/ c = 10 \/ c = 11 \/ c = 12
              \/ c = 13 \/ c = 14 \/ c = 15 \/ c = 16 \/ c = 17 \/ c = 18
              \/ c = 19 \/ c = 20 \/ c = 21 \/ c = 22 \/ c = 23 \/ c = 24
              \/ c = 25 \/ c = 26 \/ c = 27 \/ c = 28 \/ c = 29 \/ c = 30
              \/ c = 31) by lia.
  repeat (destruct H as [->|H]; [reflexivity|]). subst c. reflexivity.
Qed.

Lemma es_ascii_escape_char_ascii (c : char) : es_ascii (escape_char_ascii c) = true.
Proof.
  unfold escape_char_ascii.
  destruct ((32 <=? c) && (c <=? 126) && negb (c =? c_quote) && negb (c =? c_backslash))
           eqn:E1.
  - apply andb_true_iff in E1. destruct E1 as [E1 _].
    apply andb_true_iff in E1. destruct E1 as [E1 _].
    unfold es_ascii. cbn [forallb]. rewrite E1, orb_true_r. reflexivity.
  - destruct (c <? 32) eqn:E2; [apply es_ascii_escape_char, N.ltb_lt, E2|].
    destruct ((c =? c_quote) || (c =? c_backslash)) eqn:E3.
    + apply orb_true_iff in E3. destruct E3 as [E3|E3]; apply N.eqb_eq in E3;
        subst c; reflexivity.
    + destruct (c <? 65536) eqn:E4; [apply es_ascii_hex4_str, N.ltb_lt, E4|].
      rewrite es_ascii_app, !es_ascii_hex4_str; [reflexivity| |].
      * pose proof (N.mod_lt (c - 65536) 1024). lia.
      * pose proof (N.mod_lt ((c - 65536) / 1024) 1024). lia.
Qed.

Lemma es_ascii_basestring (s : str) :
  es_ascii (encode_basestring escape_char_ascii s) = true.
Proof.
  unfold encode_basestring.
  change (c_quote :: flat_map escape_char_ascii s ++ [c_quote])
    with ([c_quote] ++ flat_map escape_char_ascii s ++ [c_quote]).
  rewrite !es_ascii_app. simpl. rewrite andb_true_r.
  induction s as [|c s IH]; [reflexivity|].
  simpl flat_map. rewrite es_ascii_app, IH, andb_true_r.
  apply es_ascii_escape_char_ascii.
Qed.

Lemma es_ascii_uint_str (d : uint) : es_ascii (uint_str d) = true.
Proof. induction d; simpl; auto. Qed.

Lemma es_ascii_repr_int (z : Z) : es_ascii (repr_int z) = true.
Proof.
  unfold repr_int. destruct (Z.to_int z); simpl; apply es_ascii_uint_str.
Qed.

Lemma es_ascii_newline_indent (level : nat) : es_ascii (newline_indent level) = true.
Proof.
  unfold newline_indent. simpl. induction (level + (level + 0))%nat; simpl; auto.
Qed.

Lemma es_ascii_iterencode_list (enc : json -> str) (indent : str) (l : list json) :
  es_ascii indent = true ->
  Forall (fun x => es_ascii (enc x) = true) l ->
  forall first, es_ascii (iterencode_list enc indent first l) = true.
Proof.
  intros Hi. induction 1 as [|x l Hx Hl IH]; intros first; [reflexivity|].
  simpl. rewrite !es_ascii_app, Hi, Hx, IH. destruct first; reflexivity.
Qed.

Lemma es_ascii_iterencode_dict (enc : json -> str) (indent : str)
      (kvs : list (str * json)) :
  es_ascii indent = true ->
  Forall (fun kv => es_ascii (enc (snd kv)) = true) kvs ->
  forall first,
    es_ascii (iterencode_dict escape_char_ascii enc indent first kvs) = true.
Proof.
  intros Hi. induction 1 as [|[k x] kvs Hx Hl IH]; intros first; [reflexivity|].
  simpl in Hx. cbn [iterencode_dict].
  rewrite !es_ascii_app, Hi, (es_ascii_basestring k), Hx, IH.
  destruct first; reflexivity.
Qed.

Lemma es_ascii_iterencode (v : json) :
  storable v = true ->
  forall level, es_ascii (iterencode escape_char_ascii level v) = true.
Proof.
  induction v as [| b | z | l | s | l IH | kvs IH] using json_nested_ind;
    intros Hs level; simpl in Hs; try discriminate.
  - reflexivity.
  - destruct b; reflexivity.
  - apply es_ascii_repr_int.
  - apply es_ascii_basestring.
  - destruct l as [|x l]; [reflexivity|].
    change (iterencode escape_char_ascii level (JArr (x :: l)))
      with ([c_lbracket]
              ++ iterencode_list (iterencode escape_char_ascii (S level))
                                 (newline_indent (S level)) true (x :: l)
              ++ newline_indent level ++ [c_rbracket]).
    rewrite !es_ascii_app, es_ascii_newline_indent.
    rewrite es_ascii_iterencode_list; [reflexivity | apply es_ascii_newline_indent |].
    rewrite forallb_forall in Hs. rewrite Forall_forall in *.
    intros y Hy. apply IH; [assumption | apply Hs, Hy].
  - destruct kvs as [|kv kvs]; [reflexivity|].
    change (iterencode escape_char_ascii level (JObj (kv :: kvs)))
      with ([c_lbrace]
              ++ iterencode_dict escape_char_ascii (iterencode escape_char_ascii (S level))
                                 (newline_indent (S level)) true (kv :: kvs)
              ++ newline_indent level ++ [c_rbrace]).
    rewrite !es_ascii_app, es_ascii_newline_indent.
    rewrite es_ascii_iterencode_dict; [reflexivity | apply es_ascii_newline_indent |].
    rewrite forallb_forall in Hs. rewrite Forall_forall in *.
    intros y Hy. specialize (Hs y Hy). apply andb_true_iff in Hs.
    apply IH; [assumption | apply Hs].
Qed.

(** X24: the text that [render_output] offers for download, [json.dumps] of
    the Submission with [indent=2] and the default [ensure_ascii], holds
    printable ASCII characters and line feeds only, whatever the characters
    of the Submission; the history file, written with [ensure_ascii=False],
    keeps a character above the ASCII range as it is. *)
Theorem descarga_ascii (d : list (str * json)) :
  is_submission (JObj d) = true ->
  es_ascii (json_dumps_ascii (JObj d)) = true
  /\ forall c, 127 < c ->
       json_dumps_ascii (JStr [c]) <> json_dumps (JStr [c])
       /\ json_dumps (JStr [c]) = [c_quote; c; c_quote].
Proof.
  intros Hd. split.
  - apply es_ascii_iterencode, is_submission_storable, Hd.
  - intros c Hc.
    assert (E : json_dumps (JStr [c]) = [c_quote; c; c_quote]).
    { unfold json_dumps. simpl. unfold encode_basestring. simpl.
      rewrite (escape_char_no_ascii c Hc). reflexivity. }
    split; [|exact E]. rewrite E. intros H.
    pose proof (es_ascii_basestring [c]) as Ha.
    change (encode_basestring escape_char_ascii [c])
      with (json_dumps_ascii (JStr [c])) in Ha.
    rewrite H in Ha.
    unfold es_ascii in Ha. cbn [forallb] in Ha.
    rewrite !andb_true_iff in Ha. destruct Ha as (_ & Ha & _).
    apply orb_true_iff in Ha. unfold c_lf in Ha.
    destruct Ha as [Ha|Ha]; [apply N.eqb_eq in Ha; lia|].
    apply andb_true_iff in Ha. destruct Ha as [_ Ha]. apply N.leb_le in Ha. lia.
Qed.

Lemma descarga_ascii_witness :
  es_ascii (json_dumps_ascii (JObj envio_ejemplo)) = true
  /\ forall c, 127 < c ->
       json_dumps_ascii (JStr [c]) <> json_dumps (JStr [c])
       /\ json_dumps (JStr [c]) = [c_quote; c; c_quote].
Proof.
  apply (descarga_ascii envio_ejemplo). reflexivity.
Defined.

(** ** The text offered for download, read back *)

(** The proof that what [json.dump] writes is read back, for any escaping
    [esc] of the characters of the strings that [scanstring] undoes on the
    strings that satisfy [p]. *)
Section Escapes.
Variable esc : char -> str.
Variable p : str -> bool.
Hypothesis scanstring_esc :
  forall s rest, p s = true -> scanstring (flat_map esc s ++ c_quote :: rest) = Ok (s, rest).

Lemma skip_ws_value_con (level : nat) (v : json) (t : str) :
  json_plain v = true ->
  skip_ws (iterencode esc level v ++ t) = iterencode esc level v ++ t.
Proof.
  intros Hp. destruct (iterencode_head esc level v Hp) as (c & r & E & Hc).
  rewrite E. simpl app. apply skip_ws_head, starts_value_not_ws, Hc.
Qed.

Lemma array_items_scans_con (level : nat) (l : list json) :
  forall x fuel acc rest,
    Forall (scans_con esc) (x :: l) -> forallb json_plain (x :: l) = true ->
    (items_size (x :: l) <= fuel)%nat ->
    array_items fuel acc
      (iterencode esc (S level) x
         ++ iterencode_list (iterencode esc (S level)) (newline_indent (S level)) false l
         ++ newline_indent level ++ c_rbracket :: rest)
    = Ok (JArr (acc ++ x :: l), rest).
Proof.
  induction l as [|y l IH]; intros x fuel acc rest Hs Hp Hf;
    inversion Hs as [|? ? Hx Hl]; subst;
    simpl forallb in Hp; apply andb_true_iff in Hp; destruct Hp as [Hpx Hpl];
    change (items_size (x :: ?l)) with (S (size x + items_size l)) in Hf;
    (destruct fuel as [|fuel]; [lia|]); rewrite array_items_eq.
  - simpl iterencode_list. rewrite app_nil_l.
    rewrite (Hx (S level) fuel); [|lia|reflexivity].
    cbv beta iota delta [bind]. rewrite skip_ws_indent. reflexivity.
  - rewrite iterencode_list_next. rewrite <- app_comm_cons, <- !app_assoc.
    rewrite (Hx (S level) fuel); [|lia|reflexivity].
    cbv beta iota delta [bind]. rewrite skip_ws_head by reflexivity.
    replace (c_comma =? c_rbracket) with false by reflexivity.
    replace (c_comma =? c_comma) with true by reflexivity. cbv iota.
    rewrite skip_ws_indent.
    simpl forallb in Hpl. pose proof Hpl as Hpl'. apply andb_true_iff in Hpl'.
    rewrite (skip_ws_value_con (S level) y _ (proj1 Hpl')).
    rewrite (IH y fuel (acc ++ [x]) rest Hl Hpl); [|lia].
    rewrite <- app_assoc. reflexivity.
Qed.

Lemma object_items_scans_con (level : nat) (kvs : list (str * json)) :
  forall k v fuel acc rest,
    Forall (fun kv => scans_con esc (snd kv)) ((k, v) :: kvs) ->
    forallb (fun kv => json_plain (snd kv)) ((k, v) :: kvs) = true ->
    forallb (fun kv => p (fst kv)) ((k, v) :: kvs) = true ->
    NoDup (map fst (acc ++ (k, v) :: kvs)) ->
    (pairs_size ((k, v) :: kvs) <= fuel)%nat ->
    object_items fuel acc
      (flat_map esc k ++ c_quote :: c_colon :: c_space
         :: iterencode esc (S level) v
         ++ iterencode_dict esc (iterencode esc (S level))
                            (newline_indent (S level)) false kvs
         ++ newline_indent level ++ c_rbrace :: rest)
    = Ok (JObj (acc ++ (k, v) :: kvs), rest).
Proof.
  induction kvs as [|[k2 v2] kvs IH]; intros k v fuel acc rest Hs Hp Hk Hd Hf;
    inversion Hs as [|? ? Hv Hl]; subst; simpl snd in Hv;
    simpl forallb in Hp; apply andb_true_iff in Hp; destruct Hp as [Hpv Hpl];
    simpl forallb in Hk; apply andb_true_iff in Hk; destruct Hk as [Hkk Hkl];
    simpl fst in Hkk;
    change (pairs_size ((k, v) :: ?l)) with (S (size v + pairs_size l)) in Hf;
    (destruct fuel as [|fuel]; [lia|]); rewrite object_items_eq;
    rewrite (scanstring_esc k _ Hkk); cbv beta iota delta [bind];
    rewrite skip_ws_head by reflexivity;
    replace (c_colon =? c_colon) with true by reflexivity; cbv iota;
    change (skip_ws (c_space :: ?t)) with (skip_ws t);
    rewrite (skip_ws_value_con (S level) v _ Hpv);
    assert (Hset : dict_set acc k v = acc ++ [(k, v)])
      by (apply dict_set_fresh; rewrite map_app in Hd;
          apply NoDup_remove_2 in Hd; intros Hin; apply Hd, in_or_app; left; exact Hin).
  - simpl iterencode_dict. rewrite app_nil_l.
    rewrite (Hv (S level) fuel); [|lia|reflexivity].
    cbv beta iota. rewrite skip_ws_indent.
    rewrite skip_ws_head by reflexivity.
    replace (c_rbrace =? c_rbrace) with true by reflexivity. cbv iota.
    rewrite Hset. reflexivity.
  - rewrite iterencode_dict_next. flatten_text.
    rewrite (Hv (S level) fuel); [|lia|reflexivity].
    cbv beta iota. rewrite skip_ws_head by reflexivity.
    replace (c_comma =? c_rbrace) with false by reflexivity.
    replace (c_comma =? c_comma) with true by reflexivity. cbv iota.
    rewrite skip_ws_indent. rewrite skip_ws_head by reflexivity.
    replace (c_quote =? c_quote) with true by reflexivity. cbv iota.
    rewrite Hset.
    rewrite (IH k2 v2 fuel (acc ++ [(k, v)]) rest Hl Hpl Hkl); [| |lia].
    + rewrite <- app_assoc. reflexivity.
    + rewrite <- app_assoc. exact Hd.
Qed.

Lemma scans_con_plain (v : json) :
  json_plain v = true -> textos p v = true -> scans_con esc v.
Proof.
  induction v as [| b | z | l | s | l IH | kvs IH] using json_nested_ind;
    intros Hp Ht level fuel rest Hf He; simpl in Hp; try discriminate;
    (destruct fuel as [|fuel]; [simpl in Hf; lia|]).
  - reflexivity.
  - destruct b; reflexivity.
  - simpl iterencode.
    destruct (repr_int_head z) as (c & t & E & Hc).
    pose proof (match_number_repr_int z rest He) as Hm.
    rewrite E in Hm |- *. simpl app in Hm |- *.
    apply scan_once_number; assumption.
  - simpl iterencode. unfold encode_basestring. flatten_text. simpl app.
    change (scan_once (S fuel) (c_quote :: ?t))
      with ('(x, r) <- scanstring t ;; Ok (JStr x, r)).
    rewrite (scanstring_esc s rest Ht). reflexivity.
  - destruct l as [|x l]; [reflexivity|].
    rewrite iterencode_arr.
    assert (Hs : Forall (scans_con esc) (x :: l)).
    { cbn [textos] in Ht. rewrite forallb_forall in Hp, Ht.
      rewrite Forall_forall in IH |- *. intros y Hy. apply IH; auto. }
    pose proof Hp as Hp'. simpl in Hp'. apply andb_true_iff in Hp'. destruct Hp' as [Hpx _].
    change (scan_once (S fuel) (c_lbracket :: ?t))
      with (match skip_ws t with
            | c1 :: r1 =>
              if c1 =? c_rbracket then Ok (JArr [], r1)
              else array_items fuel [] (c1 :: r1)
            | [] => Raise JSONDecodeError
            end).
    rewrite skip_ws_indent, (skip_ws_value_con (S level) x _ Hpx).
    pose proof (@array_items_scans_con level l x fuel [] rest Hs Hp) as Ha.
    destruct (iterencode_head esc (S level) x Hpx) as (c & t & E & Hc).
    rewrite E in Ha |- *. rewrite <- app_comm_cons in Ha |- *.
    replace (c =? c_rbracket) with false.
    + apply Ha. simpl in Hf. unfold items_size. simpl. lia.
    + symmetry. apply N.eqb_neq. intros ->. discriminate Hc.
  - destruct kvs as [|[k v] kvs]; [reflexivity|].
    rewrite iterencode_obj.
    apply andb_true_iff in Hp. destruct Hp as [Hu Hp].
    cbn [textos] in Ht.
    assert (Hs : Forall (fun kv => scans_con esc (snd kv)) ((k, v) :: kvs)).
    { rewrite forallb_forall in Hp, Ht. rewrite Forall_forall in IH |- *.
      intros y Hy. apply IH; auto.
      specialize (Ht y Hy). apply andb_true_iff in Ht. apply Ht. }
    assert (Hk : forallb (fun kv => p (fst kv)) ((k, v) :: kvs) = true).
    { rewrite forallb_forall in Ht |- *. intros y Hy.
      specialize (Ht y Hy). apply andb_true_iff in Ht. apply Ht. }
    change (scan_once (S fuel) (c_lbrace :: ?t))
      with (match skip_ws t with
            | c1 :: r1 =>
              if c1 =? c_rbrace then Ok (JObj [], r1)
              else if c1 =? c_quote then object_items fuel [] r1
              else Raise JSONDecodeError
            | [] => Raise JSONDecodeError
            end).
    rewrite skip_ws_indent, skip_ws_head by reflexivity.
    replace (c_quote =? c_rbrace) with false by reflexivity.
    replace (c_quote =? c_quote) with true by reflexivity. cbv iota.
    apply (@object_items_scans_con level kvs k v fuel [] rest Hs Hp Hk).
    + apply keys_unique_NoDup. exact Hu.
    + simpl in Hf. unfold pairs_size. simpl. lia.
Qed.

Lemma items_size_le_con (level : nat) (indent : str) (l : list json) :
  Forall (fun v => forall level, (size v <= length (iterencode esc level v))%nat) l ->
  (items_size l <= length (iterencode_list (iterencode esc level) indent false l))%nat.
Proof.
  induction 1 as [|y l Hy Hl IH]; [apply le_n|].
  rewrite iterencode_list_next.
  change (items_size (y :: l)) with (S (size y + items_size l)).
  repeat (rewrite length_app || rewrite length_cons). specialize (Hy level). lia.
Qed.

Lemma pairs_size_le_con (level : nat) (indent : str) (kvs : list (str * json)) :
  Forall (fun kv => forall level,
              (size (snd kv) <= length (iterencode esc level (snd kv)))%nat) kvs ->
  (pairs_size kvs
   <= length (iterencode_dict esc (iterencode esc level) indent false kvs))%nat.
Proof.
  induction 1 as [|[k v] kvs Hv Hl IH]; [apply le_n|].
  rewrite iterencode_dict_next.
  change (pairs_size ((k, v) :: kvs)) with (S (size v + pairs_size kvs)).
  repeat (rewrite length_app || rewrite length_cons).
  specialize (Hv level). simpl in Hv. lia.
Qed.

Lemma size_le_length_con (v : json) :
  json_plain v = true ->
  forall level, (size v <= length (iterencode esc level v))%nat.
Proof.
  induction v as [| b | z | l | s | l IH | kvs IH] using json_nested_ind;
    intros Hp level;
    try (destruct (iterencode_head esc level _ Hp) as (c & t & E & _);
         rewrite E; simpl; lia).
  - destruct l as [|x l]; [simpl; lia|].
    rewrite <- (app_nil_r (iterencode _ _ _)), iterencode_arr.
    simpl in Hp. apply andb_true_iff in Hp. destruct Hp as [Hpx Hpl].
    inversion IH as [|? ? Hx Hl]; subst.
    assert (Hl' : Forall (fun v => forall level,
                              (size v <= length (iterencode esc level v))%nat) l)
      by (apply (forallb_Forall_plain (fun a => a)
                   (fun v => forall level,
                        (size v <= length (iterencode esc level v))%nat));
          assumption).
    pose proof (items_size_le_con (S level) (newline_indent (S level)) l Hl') as Hi.
    specialize (Hx Hpx (S level)).
    change (size (JArr (x :: l))) with (S (S (size x + items_size l))).
    repeat (rewrite length_app || rewrite length_cons). lia.
  - destruct kvs as [|[k v] kvs]; [simpl; lia|].
    rewrite <- (app_nil_r (iterencode _ _ _)), iterencode_obj.
    simpl in Hp. apply andb_true_iff in Hp. destruct Hp as [_ Hp].
    apply andb_true_iff in Hp. destruct Hp as [Hpv Hpl].
    inversion IH as [|? ? Hv Hl]; subst. simpl snd in Hv.
    assert (Hl' : Forall (fun kv => forall level,
                              (size (snd kv)
                               <= length (iterencode esc level (snd kv)))%nat) kvs)
      by (apply (forallb_Forall_plain (fun kv => snd kv)
                   (fun v => forall level,
                        (size v <= length (iterencode esc level v))%nat));
          assumption).
    pose proof (pairs_size_le_con (S level) (newline_indent (S level)) kvs Hl') as Hi.
    specialize (Hv Hpv (S level)).
    change (size (JObj ((k, v) :: kvs))) with (S (S (size v + pairs_size kvs))).
    repeat (rewrite length_app || rewrite length_cons). lia.
Qed.

Lemma json_loads_iterencode (v : json) :
  json_plain v = true -> textos p v = true ->
  json_loads (iterencode esc 0 v) = Ok v.
Proof.
  intros Hp Ht. unfold json_loads, decode.
  pose proof (size_le_length_con v Hp 0) as Hsz.
  pose proof (scans_con_plain v Hp Ht) as Hs.
  specialize (Hs 0%nat (S (2 * length (iterencode esc 0 v))) []).
  rewrite app_nil_r in Hs. specialize (Hs ltac:(lia) eq_refl).
  pose proof (skip_ws_value_con 0 v [] Hp) as Hw. rewrite app_nil_r in Hw.
  destruct (iterencode_head esc 0 v Hp) as (c & t & E & Hc).
  rewrite E in *.
  replace (c =? 65279) with false
    by (symmetry; apply N.eqb_neq; intros ->; discriminate Hc).
  rewrite Hw, Hs. reflexivity.
Qed.
End Escapes.

(** *** [ESCAPE_ASCII] against [scanstring] *)

Ltac lia_div := zify; Z.to_euclidean_division_equations; lia.

Lemma hex_val_hex_char (n : N) : n < 16 -> hex_val (hex_char n) = Some n.
Proof.
  intros H. destruct n as [|digits]; [reflexivity|].
  do 4 (try (destruct digits as [digits|digits|]; try reflexivity)); lia.
Qed.

Lemma hex4_hex4_str (n : N) :
  n < 65536 ->
  hex4 (hex_char (n / 4096)) (hex_char ((n / 256) mod 16))
       (hex_char ((n / 16) mod 16)) (hex_char (n mod 16)) = Some n.
Proof.
  intros H. unfold hex4.
  rewrite !hex_val_hex_char;
    try (apply N.mod_lt; discriminate);
    [|apply N.Div0.div_lt_upper_bound; exact H].
  f_equal. lia_div.
Qed.

Lemma scanstring_hex4_str (n : N) (t : str) :
  n < 65536 ->
  scanstring (hex4_str n ++ t)
  = if is_high_surrogate n then
      match t with
      | b :: u :: g1 :: g2 :: g3 :: g4 :: s12 =>
        if (b =? c_backslash) && (u =? 117) then
          match hex4 g1 g2 g3 g4 with
          | None => Raise JSONDecodeError
          | Some uni2 =>
            if is_low_surrogate uni2
            then prepend (join_surrogates n uni2) (scanstring s12)
            else prepend n (scanstring t)
          end
        else prepend n (scanstring t)
      | _ => prepend n (scanstring t)
      end
    else prepend n (scanstring t).
Proof.
  intros H. unfold hex4_str. cbn [app].
  change (scanstring (c_backslash :: 117 :: ?h1 :: ?h2 :: ?h3 :: ?h4 :: ?s6))
    with (match hex4 h1 h2 h3 h4 with
          | None => Raise JSONDecodeError
          | Some uni =>
            if is_high_surrogate uni then
              match s6 with
              | b :: u :: g1 :: g2 :: g3 :: g4 :: s12 =>
                if (b =? c_backslash) && (u =? 117) then
                  match hex4 g1 g2 g3 g4 with
                  | None => Raise JSONDecodeError
                  | Some uni2 =>
                    if is_low_surrogate uni2
                    then prepend (join_surrogates uni uni2) (scanstring s12)
                    else prepend uni (scanstring s6)
                  end
                else prepend uni (scanstring s6)
              | _ => prepend uni (scanstring s6)
              end
            else prepend uni (scanstring s6)
          end).
  rewrite (hex4_hex4_str n H). reflexivity.
Qed.

Lemma scanstring_escape_char_ascii (c : char) (t : str) :
  is_surrogate c = false -> c < 1114112 ->
  scanstring (escape_char_ascii c ++ t) = prepend c (scanstring t).
Proof.
  intros Hs Hc. unfold escape_char_ascii.
  destruct ((32 <=? c) && (c <=? 126) && negb (c =? c_quote) && negb (c =? c_backslash))
           eqn:E1.
  - rewrite !andb_true_iff, !negb_true_iff in E1.
    destruct E1 as [[[E1 _] E2] E3]. apply N.leb_le in E1.
    simpl. rewrite E2, E3.
    replace (c <? 32) with false by (symmetry; apply N.ltb_ge; lia). reflexivity.
  - destruct (c <? 32) eqn:E2; [apply scanstring_escape_char|].
    destruct ((c =? c_quote) || (c =? c_backslash)) eqn:E3;
      [apply scanstring_escape_char|].
    unfold is_surrogate in Hs.
    destruct (c <? 65536) eqn:E4.
    + apply N.ltb_lt in E4. rewrite (scanstring_hex4_str c t E4).
      replace (is_high_surrogate c) with false; [reflexivity|].
      symmetry. unfold is_high_surrogate.
      apply andb_false_iff in Hs. apply andb_false_iff.
      destruct Hs as [Hs|Hs]; [left; exact Hs|].
      right. apply N.leb_gt in Hs. apply N.leb_gt. lia.
    + apply N.ltb_ge in E4.
      set (hi := 55296 + ((c - 65536) / 1024) mod 1024).
      set (lo := 56320 + (c - 65536) mod 1024).
      assert (Hhi : 55296 <= hi <= 56319) by (unfold hi; lia_div).
      assert (Hlo : 56320 <= lo <= 57343) by (unfold lo; lia_div).
      rewrite <- app_assoc, (scanstring_hex4_str hi) by lia.
      replace (is_high_surrogate hi) with true
        by (symmetry; unfold is_high_surrogate;
            apply andb_true_iff; split; apply N.leb_le; lia).
      unfold hex4_str at 1. cbn [app].
      replace ((c_backslash =? c_backslash) && (117 =? 117)) with true by reflexivity.
      rewrite (hex4_hex4_str lo) by lia.
      replace (is_low_surrogate lo) with true
        by (symmetry; unfold is_low_surrogate;
            apply andb_true_iff; split; apply N.leb_le; lia).
      replace (join_surrogates hi lo) with c; [reflexivity|].
      unfold join_surrogates, hi, lo. lia_div.
Qed.

Lemma scanstring_escaped_ascii (s rest : str) :
  es_unicode s = true ->
  scanstring (flat_map escape_char_ascii s ++ c_quote :: rest) = Ok (s, rest).
Proof.
  induction s as [|c s IH]; [reflexivity|].
  intros H. simpl in H. rewrite !andb_true_iff in H. destruct H as [[Hs Hc] H].
  simpl flat_map. rewrite <- app_assoc, scanstring_escape_char_ascii, (IH H).
  - reflexivity.
  - apply negb_true_iff, Hs.
  - apply N.ltb_lt, Hc.
Qed.

(** X25: the text offered for download is read back by [json.load] as the
    Submission it was made of, characters above the ASCII range and above the
    basic plane included: [json.loads(json.dumps(data, indent=2))] is [data]
    for every value without floats whose strings hold Unicode scalar values
    (code points that are not surrogates). *)
Theorem json_loads_dumps_ascii (v : json) :
  json_plain v = true ->
  textos es_unicode v = true ->
  json_loads (json_dumps_ascii v) = Ok v.
Proof.
  intros Hp Ht.
  apply (json_loads_iterencode escape_char_ascii es_unicode
                               scanstring_escaped_ascii v Hp Ht).
Qed.

Lemma json_loads_dumps_ascii_witness :
  json_loads (json_dumps_ascii (JObj (envio_ejemplo ++ [(lit "señal", JStr (lit "😀"))])))
  = Ok (JObj (envio_ejemplo ++ [(lit "señal", JStr (lit "😀"))])).
Proof.
  apply (json_loads_dumps_ascii
           (JObj (envio_ejemplo ++ [(lit "señal", JStr (lit "😀"))])));
    reflexivity.
Defined.

(** ** The names of a loaded schema *)

(** X26: the schema that [load_schema] returns has distinct field names, and
    so has every object in it, whatever the file holds: of a name given
    twice in the file, [json.load] keeps one entry, at the place of the first
    and with the options of the last. *)
Theorem load_schema_campos_distintos (st st' : Estado) (items : list (str * json)) :
  load_schema st = (st', Ok (JObj items)) ->
  NoDup (dict_keys items) /\ keys_ok (JObj items) = true.
Proof.
  unfold load_schema, json_load_file.
  destruct (archivos st (schema_path st)) as [content|]; [|discriminate].
  intros H. inversion H as [[Hst Hj]]. clear H.
  pose proof (json_loads_keys_ok content (JObj items) Hj) as Hk.
  split; [|exact Hk].
  simpl in Hk. apply andb_true_iff in Hk. apply keys_unique_NoDup, Hk.
Qed.

Lemma load_schema_campos_distintos_witness :
  NoDup (dict_keys [(lit "color", JObj [(lit "tipo", JStr (lit "lista"))]);
                    (lit "edad", JObj [(lit "tipo", JStr (lit "numero"))])])
  /\ keys_ok (JObj [(lit "color", JObj [(lit "tipo", JStr (lit "lista"))]);
                    (lit "edad", JObj [(lit "tipo", JStr (lit "numero"))])]) = true.
Proof.
  apply (load_schema_campos_distintos estado_esquema_repetido estado_esquema_repetido).
  vm_compute. reflexivity.
Defined.

(** ** A run in which no button is pressed *)

Lemma rellena_show (e : elemento) : rellena (show e).
Proof. intros st. split; reflexivity. Qed.

Lemma rellena_ret (A : Type) (a : A) : rellena (ret a).
Proof. intros st. split; reflexivity. Qed.

Lemma rellena_mostrar_errores (l : list (str * str)) : rellena (mostrar_errores l).
Proof.
  induction l as [|[campo mensaje] l IH]; [apply rellena_ret|].
  simpl. apply rellena_bindM; [apply rellena_show | intros _; exact IH].
Qed.

Lemma rellena_render_output (env : Entorno) :
  st_button env (lit "💾 Guardar en historial") None = false ->
  st_form_submit_button env (lit "🚀 Enviar") = false ->
  rellena (render_output env).
Proof.
  intros Hb He. unfold render_output.
  apply rellena_bindM; [apply rellena_show|]. intros _ st.
  destruct (errores st) as [|cm es].
  - lazymatch goal with
    | |- archivos (fst (?m ?s)) = _ /\ _ => refine ((_ : rellena m) s)
    end.
    rewrite Hb, He.
    repeat (apply rellena_bindM; [|intros _]);
      try apply rellena_show; apply rellena_ret.
  - lazymatch goal with
    | |- archivos (fst (?m ?s)) = _ /\ _ => refine ((_ : rellena m) s)
    end.
    apply rellena_bindM; [apply rellena_show | intros _; apply rellena_mostrar_errores].
Qed.

Lemma rellena_mostrar_entradas (env : Entorno) (entradas : list json) :
  (forall label key, st_button env label (Some key) = false) ->
  forall n, rellena (mostrar_entradas env entradas n).
Proof.
  intros Hb. induction entradas as [|entry entradas IH]; intros [|n];
    try apply rellena_ret.
  cbn [mostrar_entradas]. rewrite Hb.
  repeat (apply rellena_bindM; [|intros _]);
    try apply rellena_show; try apply rellena_ret. apply IH.
Qed.

Lemma rellena_mostrar_historial (env : Entorno) :
  (forall label key, st_button env label (Some key) = false) ->
  rellena (mostrar_historial env).
Proof.
  intros Hb. unfold mostrar_historial.
  apply rellena_bindM; [apply rellena_show | intros _].
  apply rellena_bindM; [apply rellena_show | intros _].
  apply rellena_bindM.
  - intros st. unfold cargar_para_mostrar.
    destruct (archivos st (historial_path st)) as [content|]; [|split; reflexivity].
    destruct (json_loads content) as [v|[]]; split; reflexivity.
  - intros historial. destruct (negb (truthy historial)); [apply rellena_show|].
    destruct historial; try (intros st; split; reflexivity);
      apply rellena_mostrar_entradas, Hb.
Qed.

(** X27: a run of the script in which no button is pressed reads and shows
    only: whatever the schema, the texts entered and the history file hold,
    and whether the run completes or raises, after [run] the files and the
    requests sent are what they were. *)
Theorem run_sin_pulsar (env : Entorno) (st : Estado) :
  (forall label key, st_button env label key = false) ->
  st_form_submit_button env (lit "🚀 Enviar") = false ->
  archivos (fst (run env st)) = archivos st
  /\ peticiones (fst (run env st)) = peticiones st.
Proof.
  intros Hb He.
  refine ((_ : rellena (run env)) st). unfold run.
  apply rellena_bindM; [apply rellena_render_form | intros _].
  apply rellena_bindM; [apply rellena_render_output; [apply Hb | exact He] | intros _].
  apply rellena_mostrar_historial. intros label key. apply Hb.
Qed.

Lemma run_sin_pulsar_witness :
  archivos (fst (run entorno_rojo estado_ejemplo)) = archivos estado_ejemplo
  /\ peticiones (fst (run entorno_rojo estado_ejemplo)) = peticiones estado_ejemplo.
Proof.
  apply (run_sin_pulsar entorno_rojo estado_ejemplo); reflexivity.
Defined.
